(** * A shallow embedding of the llm_engineering ingestion core

    The development follows the Python sources:

    - [llm_engineering/database/base_mongo_odm.py]  (class NoSQLBaseDocument)
    - [llm_engineering/web_crawlers/custom_article_crawler.py]
    - [llm_engineering/web_crawlers/github_crawler.py]
    - [llm_engineering/web_crawlers/dispatch_crawler.py]

    Python values are an inductive type, dictionaries are association lists
    in insertion order, exceptions are an enumeration with the subclass
    relation the [except] clauses rely on, and every method that touches
    the store, the file system or the random source is a function from a
    world to an outcome and a new world. *)

From Stdlib Require Import NArith ZArith List String Ascii Bool Lia PeanoNat.
From Stdlib Require Import DecimalString.
Import ListNotations.

Set Warnings "-register-all".

Local Open Scope string_scope.
Local Open Scope list_scope.

(* ================================================================== *)
(** * Part I: definitions *)
(* ================================================================== *)

(** ** Python strings: the [str] methods the sources call *)

Module Str.

Definition chars (s : string) : list ascii := list_ascii_of_string s.
Definition of_chars (l : list ascii) : string := string_of_list_ascii l.

Fixpoint prefixb (p s : list ascii) : bool :=
  match p, s with
  | [], _ => true
  | _ :: _, [] => false
  | a :: p', b :: s' => Ascii.eqb a b && prefixb p' s'
  end.

(** [s.replace(pat, "")] for a non-empty [pat]: occurrences are removed left
    to right and do not overlap.  [skip] counts the characters of a matched
    occurrence that are still to be dropped. *)
Fixpoint remove_from (pat : list ascii) (skip : nat) (s : list ascii) : list ascii :=
  match s with
  | [] => []
  | c :: s' =>
      match skip with
      | S k => remove_from pat k s'
      | O => if prefixb pat s
             then remove_from pat (List.length pat - 1) s'
             else c :: remove_from pat 0 s'
      end
  end.

Definition remove_all (pat : list ascii) (s : list ascii) : list ascii :=
  match pat with
  | [] => s
  | _ :: _ => remove_from pat 0 s
  end.

Definition memb (c : ascii) (set : list ascii) : bool :=
  existsb (Ascii.eqb c) set.

(** [s.lstrip(set)], [s.rstrip(set)] and [s.strip(set)]. *)
Fixpoint lstrip (set : list ascii) (s : list ascii) : list ascii :=
  match s with
  | [] => []
  | c :: s' => if memb c set then lstrip set s' else s
  end.

Definition rstrip (set : list ascii) (s : list ascii) : list ascii :=
  rev (lstrip set (rev s)).

Definition strip (set : list ascii) (s : list ascii) : list ascii :=
  rstrip set (lstrip set s).

(** [s.startswith(p)] and [s.endswith(p)]; with a tuple of candidates the
    Python methods answer whether any of them fits. *)
Definition startswith (s p : string) : bool := prefixb (chars p) (chars s).
Definition endswith (s p : string) : bool := prefixb (rev (chars p)) (rev (chars s)).
Definition startswith_any (s : string) (ps : list string) : bool := existsb (startswith s) ps.
Definition endswith_any (s : string) (ps : list string) : bool := existsb (endswith s) ps.

(** [s.replace(pat, "")] on strings. *)
Definition replace_empty (pat s : string) : string :=
  of_chars (remove_all (chars pat) (chars s)).

(** [s.split(sep)] for a one-character separator: the pieces between the
    separators, empty pieces included. *)
Fixpoint split_on (sep : ascii) (cur : list ascii) (s : list ascii) : list (list ascii) :=
  match s with
  | [] => [rev cur]
  | c :: s' => if Ascii.eqb c sep then rev cur :: split_on sep [] s'
               else split_on sep (c :: cur) s'
  end.

Definition split (sep : ascii) (s : string) : list string :=
  map of_chars (split_on sep [] (chars s)).

(** [s.partition(sep)] for a one-character separator: the text before and
    after its first occurrence, [None] when there is none. *)
Fixpoint partition (sep : ascii) (s : list ascii) : option (list ascii * list ascii) :=
  match s with
  | [] => None
  | c :: s' =>
      if Ascii.eqb c sep then Some ([], s')
      else match partition sep s' with
           | Some (a, b) => Some (c :: a, b)
           | None => None
           end
  end.

End Str.

(** ** Identifiers: Python's [uuid.UUID] *)

Module Uuid.

(** A UUID is its 128-bit integer ([UUID.int]). *)
Definition t := N.

Definition valid (u : t) : Prop := (u < 2 ^ 128)%N.

Definition hex_alphabet : list ascii := Str.chars "0123456789abcdef".

Definition hex_digit (d : N) : ascii := nth (N.to_nat d) hex_alphabet "0"%char.

(** ['%0nx' % x]: the [n] low hexadecimal digits, most significant first. *)
Fixpoint hex_of (n : nat) (x : N) : list ascii :=
  match n with
  | O => []
  | S k => hex_of k (x / 16) ++ [hex_digit (x mod 16)]
  end.

Definition dash : ascii := "-"%char.

(** [UUID.__str__]: [hex = '%032x' % self.int] cut as 8-4-4-4-12. *)
Definition str_chars (u : t) : list ascii :=
  let hex := hex_of 32 u in
  firstn 8 hex ++ dash ::
  firstn 4 (skipn 8 hex) ++ dash ::
  firstn 4 (skipn 12 hex) ++ dash ::
  firstn 4 (skipn 16 hex) ++ dash ::
  skipn 20 hex.

Definition str (u : t) : string := Str.of_chars (str_chars u).

Definition hex_val (c : ascii) : option N :=
  let n := N_of_ascii c in
  if ((48 <=? n) && (n <=? 57))%N then Some (n - 48)%N
  else if ((97 <=? n) && (n <=? 102))%N then Some (n - 87)%N
  else if ((65 <=? n) && (n <=? 70))%N then Some (n - 55)%N
  else None.

(** The value of a run of hexadecimal digits, most significant first;
    [None] when a character is not a digit. *)
Fixpoint hex_value (acc : N) (s : list ascii) : option N :=
  match s with
  | [] => Some acc
  | c :: s' =>
      match hex_val c with
      | Some d => hex_value (acc * 16 + d) s'
      | None => None
      end
  end.

(** What [int] skips before and after a literal: the blanks of [str.isspace]
    among the characters below 256, without the four separators 28 to 31. *)
Definition is_space (c : ascii) : bool :=
  let n := N_of_ascii c in
  ((9 <=? n) && (n <=? 13) || (n =? 32) || (n =? 133) || (n =? 160))%N.

Fixpoint skip_spaces (s : list ascii) : list ascii :=
  match s with
  | [] => []
  | c :: s' => if is_space c then skip_spaces s' else s
  end.

(** The digits of a literal: hexadecimal digits with single underscores
    between them.  The scan stops at the first character that is neither;
    two underscores in a row or an underscore at the end are refused.
    [after_underscore] tells whether the character before was one. *)
Fixpoint digits16 (acc : N) (after_underscore : bool) (s : list ascii)
  : option (N * list ascii) :=
  match s with
  | [] => if after_underscore then None else Some (acc, [])
  | c :: s' =>
      if Ascii.eqb c "_"
      then (if after_underscore then None else digits16 acc true s')
      else match hex_val c with
           | Some d => digits16 (acc * 16 + d) false s'
           | None => if after_underscore then None else Some (acc, s)
           end
  end.

(** [int(text, 16)]: blanks, a sign, a [0x] or [0X] prefix with one
    underscore allowed after it, the digits, blanks.  [None] stands for
    [ValueError]. *)
Definition int16 (s : list ascii) : option Z :=
  let s := skip_spaces s in
  let (negative, s) :=
    match s with
    | c :: r =>
        if Ascii.eqb c "+" then (false, r)
        else if Ascii.eqb c "-" then (true, r)
        else (false, s)
    | [] => (false, s)
    end in
  let s :=
    match s with
    | z :: x :: r =>
        if Ascii.eqb z "0" && (Ascii.eqb x "x" || Ascii.eqb x "X")
        then match r with
             | c :: r' => if Ascii.eqb c "_" then r' else r
             | [] => r
             end
        else s
    | _ => s
    end in
  match s with
  | [] => None
  | c :: _ =>
      match hex_val c with
      | None => None
      | Some _ =>
          match digits16 0 false s with
          | Some (n, rest) =>
              if forallb is_space rest
              then Some (if negative then (- Z.of_N n)%Z else Z.of_N n)
              else None
          | None => None
          end
      end
  end.

(** [UUID(hex)] for a string argument:
    [hex = hex.replace('urn:', '').replace('uuid:', '')],
    [hex = hex.strip('{}').replace('-', '')], then 32 characters are
    required, [int(hex, 16)] is taken and has to lie in [0, 2^128).
    [None] stands for [ValueError]. *)
Definition normalize (s : list ascii) : list ascii :=
  Str.remove_all (Str.chars "-")
    (Str.strip (Str.chars "{}")
       (Str.remove_all (Str.chars "uuid:")
          (Str.remove_all (Str.chars "urn:") s))).

Definition of_chars (s : list ascii) : option t :=
  let hex := normalize s in
  if Nat.eqb (List.length hex) 32 then
    match int16 hex with
    | Some i => if ((0 <=? i) && (i <? 2 ^ 128))%Z then Some (Z.to_N i) else None
    | None => None
    end
  else None.

Definition of_string (s : string) : option t := of_chars (Str.chars s).

(** The text pydantic reads a UUID from.  Its validator does not call
    [uuid.UUID]; it takes 32 hexadecimal digits, the 8-4-4-4-12 form with
    its four dashes, that form in braces, and that form after [urn:uuid:]. *)
Definition hyphenated (s : list ascii) : option t :=
  if Nat.eqb (List.length s) 36
     && Ascii.eqb (nth 8 s "0"%char) dash && Ascii.eqb (nth 13 s "0"%char) dash
     && Ascii.eqb (nth 18 s "0"%char) dash && Ascii.eqb (nth 23 s "0"%char) dash
  then hex_value 0 (firstn 8 s ++ firstn 4 (skipn 9 s) ++ firstn 4 (skipn 14 s)
                    ++ firstn 4 (skipn 19 s) ++ skipn 24 s)
  else None.

Definition parse_chars (s : list ascii) : option t :=
  let n := List.length s in
  if Nat.eqb n 32 then hex_value 0 s
  else if Nat.eqb n 36 then hyphenated s
  else if Nat.eqb n 38 then
    match s with
    | "{"%char :: r =>
        match rev r with
        | "}"%char :: m => hyphenated (rev m)
        | _ => None
        end
    | _ => None
    end
  else if Nat.eqb n 45 then
    (if Str.prefixb (Str.chars "urn:uuid:") s then hyphenated (skipn 9 s) else None)
  else None.

Definition parse_str (s : string) : option t := parse_chars (Str.chars s).

(** A character that is none of those the parser treats specially: not the
    [u] of the prefixes, not a brace, not a dash. *)
Definition plain (c : ascii) : bool :=
  negb (Str.memb c (Str.chars "u{}-")).

(** [UUID.variant] is RFC 4122 when the top bits of octet 8 are [10];
    [UUID.version] is then bits 76..79 and is [None] otherwise. *)
Definition rfc_4122 (u : t) : bool := N.eqb (N.shiftr u 62 mod 4) 2.
Definition version (u : t) : option N :=
  if rfc_4122 u then Some (N.shiftr u 76 mod 16)%N else None.

(** The check behind pydantic's [UUID4] annotation. *)
Definition is_uuid4 (u : t) : bool :=
  match version u with
  | Some v => N.eqb v 4
  | None => false
  end.

(** [uuid.uuid4()]: [UUID(bytes=os.urandom(16), version=4)].  The constructor
    clears and sets the variant and version bits of the random integer. *)
Definition uuid4_of_random (r : N) : t :=
  let i := (r mod 2 ^ 128)%N in
  let i := N.ldiff i (N.shiftl 49152 48) in   (* int &= ~(0xc000 << 48) *)
  let i := N.lor i (N.shiftl 32768 48) in     (* int |= 0x8000 << 48 *)
  let i := N.ldiff i (N.shiftl 61440 64) in   (* int &= ~(0xf000 << 64) *)
  N.lor i (N.shiftl 4 76).                    (* int |= version << 76 *)

End Uuid.

(** ** Python values and dictionaries *)

(** The values that reach the persistence layer: what a document field, a
    filter or a stored record can hold. *)
Inductive value : Type :=
| VNone
| VBool (b : bool)
| VInt (z : Z)
| VStr (s : string)
| VUuid (u : Uuid.t)
| VObjectId (n : N)
| VList (l : list value)
| VDict (d : list (string * value)).

(** A [dict]: keys with their values, in insertion order. *)
Definition dict := list (string * value).

Fixpoint value_eqb (a b : value) {struct a} : bool :=
  match a, b with
  | VNone, VNone => true
  | VBool x, VBool y => Bool.eqb x y
  | VInt x, VInt y => Z.eqb x y
  | VStr x, VStr y => String.eqb x y
  | VUuid x, VUuid y => N.eqb x y
  | VObjectId x, VObjectId y => N.eqb x y
  | VList x, VList y =>
      (fix go (x y : list value) {struct x} : bool :=
         match x, y with
         | [], [] => true
         | a :: x', b :: y' => value_eqb a b && go x' y'
         | _, _ => false
         end) x y
  | VDict x, VDict y =>
      (fix go (x y : list (string * value)) {struct x} : bool :=
         match x, y with
         | [], [] => true
         | (k, a) :: x', (k', b) :: y' => String.eqb k k' && value_eqb a b && go x' y'
         | _, _ => false
         end) x y
  | _, _ => false
  end.

(** [d.get(k)] *)
Fixpoint dict_get (k : string) (d : dict) : option value :=
  match d with
  | [] => None
  | (k', v) :: d' => if String.eqb k k' then Some v else dict_get k d'
  end.

(** [k in d] *)
Definition dict_mem (k : string) (d : dict) : bool :=
  match dict_get k d with Some _ => true | None => false end.

(** [d[k] = v]: an existing key keeps its place, a new key goes last. *)
Fixpoint dict_set (k : string) (v : value) (d : dict) : dict :=
  match d with
  | [] => [(k, v)]
  | (k', v') :: d' =>
      if String.eqb k k' then (k, v) :: d' else (k', v') :: dict_set k v d'
  end.

(** [del d[k]] *)
Fixpoint dict_del (k : string) (d : dict) : dict :=
  match d with
  | [] => []
  | (k', v) :: d' => if String.eqb k k' then d' else (k', v) :: dict_del k d'
  end.

(** [d.pop(k)]: the value and what is left; [None] stands for [KeyError]. *)
Definition dict_pop (k : string) (d : dict) : option (value * dict) :=
  match dict_get k d with
  | Some v => Some (v, dict_del k d)
  | None => None
  end.

(** ** Exceptions *)

Inductive exn : Type :=
| ValueError | KeyError | TypeError | AttributeError | IndexError
| ValidationError            (* pydantic; a ValueError *)
| OSError | FileNotFoundError | PermissionError
| ConnectionFailure          (* pymongo.errors *)
| OperationFailure | WriteError | DuplicateKeyError | BulkWriteError.

Definition exn_eqb (a b : exn) : bool :=
  match a, b with
  | ValueError, ValueError | KeyError, KeyError | TypeError, TypeError
  | AttributeError, AttributeError | IndexError, IndexError
  | ValidationError, ValidationError | OSError, OSError
  | FileNotFoundError, FileNotFoundError | PermissionError, PermissionError
  | ConnectionFailure, ConnectionFailure | OperationFailure, OperationFailure
  | WriteError, WriteError | DuplicateKeyError, DuplicateKeyError
  | BulkWriteError, BulkWriteError => true
  | _, _ => false
  end.

(** The classes an exception is an instance of, itself first.  In pymongo
    [DuplicateKeyError] derives from [WriteError], and [WriteError] and
    [BulkWriteError] derive from [OperationFailure]. *)
Definition exn_mro (e : exn) : list exn :=
  match e with
  | ValidationError => [ValidationError; ValueError]
  | FileNotFoundError => [FileNotFoundError; OSError]
  | PermissionError => [PermissionError; OSError]
  | WriteError => [WriteError; OperationFailure]
  | DuplicateKeyError => [DuplicateKeyError; WriteError; OperationFailure]
  | BulkWriteError => [BulkWriteError; OperationFailure]
  | e => [e]
  end.

(** Does [except c] catch [e]? *)
Definition catches (c e : exn) : bool := existsb (exn_eqb c) (exn_mro e).

(** ** The world a call runs in *)

Inductive outcome (A : Type) : Type :=
| Ok (a : A)
| Raise (e : exn).
Arguments Ok {A} a.
Arguments Raise {A} e.

(** A file-system entry: a file with its text ([None] when it cannot be
    read) or a directory with its entries in listing order. *)
Inductive node : Type :=
| File (content : option string)
| Dir (entries : list (string * node)).

(** What the page loader and the HTML-to-text transformer return. *)
Record page : Type := mkPage {
  p_title : option string;
  p_description : option string;
  p_language : option string;
  p_content : string }.

(** The document store: the records of each collection in insertion order,
    the outcomes the server gives to the coming operations ([Some e]: the
    operation raises [e]), and the counter behind generated [ObjectId]s. *)
Record store : Type := mkStore {
  s_db : list (string * list dict);
  s_faults : list (option exn);
  s_oid : N }.

(** The file system as the repository crawler sees it: directories by
    absolute path, the process working directory, and the number of
    temporary directories made so far. *)
Record fsys : Type := mkFs {
  fs_dirs : list (string * list (string * node));
  fs_cwd : string;
  fs_made : nat }.

(** The collaborators outside the process: whether [git] can be run, what a
    clone of a link brings ([None]: the clone fails and leaves nothing), and
    what fetching a page gives. *)
Record env : Type := mkEnv {
  e_git : bool;
  e_remote : string -> option (list (string * node));
  e_web : string -> outcome page }.

Record world : Type := mkWorld {
  w_store : store;
  w_entropy : nat -> N;      (* os.urandom(16), draw by draw *)
  w_drawn : nat;
  w_fs : fsys;
  w_env : env }.

Definition set_store (w : world) (s : store) : world :=
  mkWorld s (w_entropy w) (w_drawn w) (w_fs w) (w_env w).
Definition set_drawn (w : world) (n : nat) : world :=
  mkWorld (w_store w) (w_entropy w) n (w_fs w) (w_env w).
Definition set_fs (w : world) (f : fsys) : world :=
  mkWorld (w_store w) (w_entropy w) (w_drawn w) f (w_env w).

(** A call: from a world to what it returns or raises, and the world it
    leaves. *)
Definition M (A : Type) : Type := world -> outcome A * world.

Definition ret {A} (a : A) : M A := fun w => (Ok a, w).
Definition raise {A} (e : exn) : M A := fun w => (Raise e, w).
Definition bind {A B} (m : M A) (k : A -> M B) : M B :=
  fun w => match m w with
           | (Ok a, w') => k a w'
           | (Raise e, w') => (Raise e, w')
           end.

(** [try: m  except c1, c2, ...: h] *)
Definition try_except {A} (m : M A) (cs : list exn) (h : exn -> M A) : M A :=
  fun w => match m w with
           | (Ok a, w') => (Ok a, w')
           | (Raise e, w') =>
               if existsb (fun c => catches c e) cs then h e w' else (Raise e, w')
           end.

(** [try: m  finally: f].  The clean-up runs whatever [m] did; if it raises,
    its exception is the one that leaves. *)
Definition try_finally {A} (m : M A) (f : M unit) : M A :=
  fun w => match m w with
           | (r, w') =>
               match f w' with
               | (Ok _, w'') => (r, w'')
               | (Raise e, w'') => (Raise e, w'')
               end
           end.

Definition lift {A} (r : outcome A) : M A := fun w => (r, w).

Declare Scope py_scope.
Delimit Scope py_scope with py.
Notation "x <- m ;; k" := (bind m (fun x => k))
  (at level 100, m at next level, right associativity) : py_scope.
Notation "m ;;; k" := (bind m (fun _ => k))
  (at level 100, right associativity) : py_scope.
Local Open Scope py_scope.

(** [uuid.uuid4()] *)
Definition uuid4 : M Uuid.t :=
  fun w => (Ok (Uuid.uuid4_of_random (w_entropy w (w_drawn w))),
            set_drawn w (S (w_drawn w))).

(** ** The document store (pymongo collections)

    Modelled from the spec: the store is an external service; section 6 of
    the specification describes it as collections of records (mappings from
    field name to value) with a primary-key field [_id], queried by
    exact-match mappings.  Every operation first takes the next outcome the
    server has in stock. *)

Module Mongo.

Definition set_db (s : store) (db : list (string * list dict)) : store :=
  mkStore db (s_faults s) (s_oid s).

(** The server's answer to the next operation. *)
Definition next_outcome : M unit :=
  fun w =>
    let s := w_store w in
    match s_faults s with
    | [] => (Ok tt, w)
    | None :: rest => (Ok tt, set_store w (mkStore (s_db s) rest (s_oid s)))
    | Some e :: rest => (Raise e, set_store w (mkStore (s_db s) rest (s_oid s)))
    end.

Fixpoint records_of (name : string) (db : list (string * list dict)) : list dict :=
  match db with
  | [] => []
  | (n, rs) :: db' => if String.eqb name n then rs else records_of name db'
  end.

Fixpoint put_records (name : string) (rs : list dict) (db : list (string * list dict))
  : list (string * list dict) :=
  match db with
  | [] => [(name, rs)]
  | (n, old) :: db' =>
      if String.eqb name n then (n, rs) :: db' else (n, old) :: put_records name rs db'
  end.

(** A record matches a filter when it holds every filter key with an equal
    value. *)
Definition matches (filter record : dict) : bool :=
  forallb (fun kv => match dict_get (fst kv) record with
                     | Some v => value_eqb (snd kv) v
                     | None => false
                     end) filter.

(** [collection.find_one(filter)] *)
Definition find_one (name : string) (filter : dict) : M (option dict) :=
  next_outcome ;;;
  fun w => (Ok (List.find (matches filter) (records_of name (s_db (w_store w)))), w).

(** [collection.find(filter)], read to the end. *)
Definition find (name : string) (filter : dict) : M (list dict) :=
  next_outcome ;;;
  fun w => (Ok (List.filter (matches filter) (records_of name (s_db (w_store w)))), w).

Definition same_key (k : value) (record : dict) : bool :=
  match dict_get "_id" record with
  | Some k' => value_eqb k k'
  | None => false
  end.

(** Storing one record: a record without [_id] gets a generated [ObjectId];
    a primary key already present in the collection is refused. *)
Definition store_record (name : string) (d : dict) (dup : exn) : M unit :=
  fun w =>
    let s := w_store w in
    let rs := records_of name (s_db s) in
    match dict_get "_id" d with
    | None =>
        (Ok tt, set_store w (mkStore (put_records name (rs ++ [("_id", VObjectId (s_oid s)) :: d]) (s_db s))
                                     (s_faults s) (N.succ (s_oid s))))
    | Some k =>
        if existsb (same_key k) rs then (Raise dup, w)
        else (Ok tt, set_store w (set_db s (put_records name (rs ++ [d]) (s_db s))))
    end.

(** [collection.insert_one(d)] *)
Definition insert_one (name : string) (d : dict) : M unit :=
  next_outcome ;;; store_record name d DuplicateKeyError.

(** [collection.insert_many(ds)]: an ordered insert, which stops at the first
    record the server refuses and keeps the ones before it. *)
Fixpoint store_records (name : string) (ds : list dict) : M unit :=
  match ds with
  | [] => ret tt
  | d :: ds' => store_record name d BulkWriteError ;;; store_records name ds'
  end.

Definition insert_many (name : string) (ds : list dict) : M unit :=
  next_outcome ;;; store_records name ds.

End Mongo.

(** ** Document classes (pydantic models)

    A concrete document class declares its fields besides the inherited
    [id : UUID4], may name its collection in a nested [Settings] class, and
    lists the document classes it derives from.  A class is an object of
    its own: two [class] statements give two classes even when they use one
    name, so a class carries its identity, which is what [is], [isinstance]
    and [issubclass] go by. *)

Inductive ftype : Type := TStr | TDict | TUuid4.

Record cls : Type := mkCls {
  c_id : N;                            (* the class object, by identity *)
  c_name : string;                     (* __name__ *)
  c_bases : list N;                    (* ancestors below NoSQLBaseDocument *)
  c_fields : list (string * ftype);    (* declared after [id], in order *)
  c_collection : option string }.      (* Settings.name *)

(** An instance: its class, its [id], the values of the declared fields in
    declaration order, and the names given to the constructor
    ([model_fields_set]). *)
Record document : Type := mkDoc {
  d_cls : cls;
  d_id : Uuid.t;
  d_fields : dict;
  d_set : list string }.

(** A class declaration pydantic accepts next to the inherited [id]: the
    field names differ from each other and from [id], and none is [_id] (a
    name with a leading underscore is a private attribute, not a field). *)
Definition well_formed (c : cls) : Prop :=
  NoDup (map fst (c_fields c)) /\
  ~ In "id" (map fst (c_fields c)) /\
  ~ In "_id" (map fst (c_fields c)).

(** A value an instance can hold in a field of the given annotation. *)
Definition has_type (t : ftype) (v : value) : Prop :=
  match t, v with
  | TStr, VStr _ => True
  | TDict, VDict _ => True
  | TUuid4, VUuid u => Uuid.valid u /\ Uuid.is_uuid4 u = true
  | _, _ => False
  end.

(** A valid instance: a version-4 [id] and, for each declared field in
    order, a value of its type. *)
Definition valid_document (d : document) : Prop :=
  well_formed (d_cls d) /\
  Uuid.valid (d_id d) /\ Uuid.is_uuid4 (d_id d) = true /\
  Forall2 (fun ft kv => fst ft = fst kv /\ has_type (snd ft) (snd kv))
          (c_fields (d_cls d)) (d_fields d).

(** Validation of one value against a field's annotation (pydantic's lax
    mode on the types the variants use): a [str] field takes a string, a
    [dict] field any mapping, and a [UUID4] field a version-4 UUID or a
    string that parses to one. *)
Definition validate (t : ftype) (v : value) : option value :=
  match t, v with
  | TStr, VStr _ => Some v
  | TDict, VDict _ => Some v
  | TUuid4, VUuid u => if Uuid.is_uuid4 u then Some v else None
  | TUuid4, VStr s =>
      match Uuid.parse_str s with
      | Some u => if Uuid.is_uuid4 u then Some (VUuid u) else None
      | None => None
      end
  | _, _ => None
  end.

(** The declared fields taken from the keyword arguments; [None] when one is
    missing or does not validate. *)
Fixpoint validate_fields (fs : list (string * ftype)) (kwargs : dict) : option dict :=
  match fs with
  | [] => Some []
  | (n, t) :: fs' =>
      match dict_get n kwargs, validate_fields fs' kwargs with
      | Some v, Some rest =>
          match validate t v with
          | Some v' => Some ((n, v') :: rest)
          | None => None
          end
      | _, _ => None
      end
  end.

Definition field_names (c : cls) : list string := "id" :: map fst (c_fields c).

(** The constructor call of a document class with keyword arguments.
    The [id] comes first: it is validated when given and
    drawn from [uuid.uuid4] otherwise; unknown keywords are ignored. *)
Definition construct (c : cls) (kwargs : dict) : M document :=
  id <- match dict_get "id" kwargs with
        | Some v =>
            match validate TUuid4 v with
            | Some (VUuid u) => ret (Some u)
            | _ => ret None
            end
        | None => u <- uuid4 ;; ret (Some u)
        end ;;
  match id, validate_fields (c_fields c) kwargs with
  | Some u, Some fs =>
      ret (mkDoc c u fs (filter (fun n => dict_mem n kwargs) (field_names c)))
  | _, _ => raise ValidationError
  end.

(** [self.model_dump(exclude_unset=..., by_alias=...)].  No document class
    declares an alias, so [by_alias] changes nothing and is left out. *)
Definition model_dump (exclude_unset : bool) (d : document) : dict :=
  let all := ("id", VUuid (d_id d)) :: d_fields d in
  if exclude_unset
  then filter (fun kv => existsb (String.eqb (fst kv)) (d_set d)) all
  else all.

(** ** NoSQLBaseDocument *)

Module NoSQLBaseDocument.

(** [issubclass(c, klass)]: [klass] is [c] or one of its ancestors. *)
Definition issubclass (c klass : cls) : bool :=
  existsb (N.eqb (c_id klass)) (c_id c :: c_bases c).

(** [isinstance(value, klass)] for documents. *)
Definition isinstance (value : document) (klass : cls) : bool :=
  issubclass (d_cls value) klass.

(** [__eq__] *)
Definition eq (self value : document) : bool :=
  if negb (isinstance value (d_cls self)) then false
  else N.eqb (d_id self) (d_id value).

(** [v == w], as the interpreter evaluates it.  When the class of [w] is
    not that of [v] and derives from it, [w.__eq__(v)] is tried first,
    otherwise [v.__eq__(w)]; [__eq__] above never answers [NotImplemented],
    so the method tried first decides. *)
Definition equals (v w : document) : bool :=
  if negb (N.eqb (c_id (d_cls v)) (c_id (d_cls w))) && issubclass (d_cls w) (d_cls v)
  then eq w v
  else eq v w.

(** [__hash__]: [hash(self.id)].  The hash of a UUID is the hash of its
    integer, which CPython reduces modulo the Mersenne prime [2^61 - 1]. *)
Definition hash (self : document) : N := (d_id self mod (2 ^ 61 - 1))%N.

(** One step of the loop that ends [to_mongo]:
    [if isinstance(value, uuid.UUID): parsed[key] = str(value)]. *)
Definition stringify_uuid (kv : string * value) : string * value :=
  match snd kv with
  | VUuid u => (fst kv, VStr (Uuid.str u))
  | _ => kv
  end.

(** [to_mongo], with its [exclude_unset] flag (the other keyword arguments
    are handed to [model_dump] and are not modelled).
    [str(parsed.pop("id"))] is the text of a UUID: the [id] entry of
    [model_dump] is never anything else. *)
Definition to_mongo (exclude_unset : bool) (self : document) : dict :=
  let parsed := model_dump exclude_unset self in
  let parsed :=
    if negb (dict_mem "_id" parsed) && dict_mem "id" parsed then
      match dict_pop "id" parsed with
      | Some (VUuid u, rest) => dict_set "_id" (VStr (Uuid.str u)) rest
      | _ => parsed
      end
    else parsed in
  map stringify_uuid parsed.

(** [uuid.UUID(x)] on whatever the record holds under [_id]. *)
Definition uuid_of_value (v : value) : outcome Uuid.t :=
  match v with
  | VStr s => match Uuid.of_string s with
              | Some u => Ok u
              | None => Raise ValueError
              end
  | VNone => Raise TypeError
  | _ => Raise AttributeError
  end.

(** [from_mongo] *)
Definition from_mongo (c : cls) (data : dict) : M document :=
  match data with
  | [] => raise ValueError
  | _ :: _ =>
      match dict_pop "_id" data with
      | None => raise KeyError
      | Some (v, data') =>
          id <- lift (uuid_of_value v) ;;
          construct c (dict_set "id" (VUuid id) data')
      end
  end.

(** [get_collection_name] *)
Definition get_collection_name (c : cls) : M string :=
  match c_collection c with
  | Some name => ret name
  | None => raise ValueError
  end.

(** [save] *)
Definition save (exclude_unset : bool) (self : document) : M (option document) :=
  collection <- get_collection_name (d_cls self) ;;
  try_except
    (Mongo.insert_one collection (to_mongo exclude_unset self) ;;;
     ret (Some self))
    [WriteError]
    (fun _ => ret None).

(** [get_or_create].  [if instance:] holds for a record that is neither
    [None] nor empty. *)
Definition get_or_create (c : cls) (filter_options : dict) : M (option document) :=
  collection <- get_collection_name c ;;
  try_except
    (instance <- Mongo.find_one collection filter_options ;;
     match instance with
     | Some (r :: data) =>
         found <- from_mongo c (r :: data) ;; ret (Some found)
     | _ =>
         new_instance <- construct c filter_options ;;
         save false new_instance
     end)
    [OperationFailure]
    (fun e => raise e).

(** [bulk_insert] *)
Definition bulk_insert (c : cls) (exclude_unset : bool) (documents : list document) : M bool :=
  collection <- get_collection_name c ;;
  try_except
    (Mongo.insert_many collection (map (to_mongo exclude_unset) documents) ;;;
     ret true)
    [WriteError; BulkWriteError]
    (fun _ => ret false).

(** [find] *)
Definition find (c : cls) (filter_options : dict) : M (option document) :=
  collection <- get_collection_name c ;;
  try_except
    (instance <- Mongo.find_one collection filter_options ;;
     match instance with
     | Some (r :: data) =>
         found <- from_mongo c (r :: data) ;; ret (Some found)
     | _ => ret None
     end)
    [OperationFailure]
    (fun _ => ret None).

(** The comprehension of [bulk_find]:
    [[document for instance in instances
      if (document := cls.from_mongo(instance)) is not None]].
    [from_mongo] returns a document or raises; what it returns is never
    [None], so the test keeps every document that was built. *)
Fixpoint from_mongo_each (c : cls) (instances : list dict) : M (list document) :=
  match instances with
  | [] => ret []
  | instance :: rest =>
      document <- from_mongo c instance ;;
      documents <- from_mongo_each c rest ;;
      ret (document :: documents)
  end.

(** [bulk_find] *)
Definition bulk_find (c : cls) (filter_options : dict) : M (list document) :=
  collection <- get_collection_name c ;;
  try_except
    (instances <- Mongo.find collection filter_options ;;
     from_mongo_each c instances)
    [OperationFailure]
    (fun _ => ret []).

End NoSQLBaseDocument.

(** ** IP literals: which texts [ipaddress.ip_address] accepts

    [urlsplit] asks the [ipaddress] module about a host in brackets.  Only
    whether the text is an address matters there, not its value. *)

Module Ip.

Definition is_digit (c : ascii) : bool :=
  let n := N_of_ascii c in ((48 <=? n) && (n <=? 57))%N.

Definition is_hex (c : ascii) : bool :=
  match Uuid.hex_val c with Some _ => true | None => false end.

Definition is_empty (s : list ascii) : bool :=
  match s with [] => true | _ :: _ => false end.

(** [int(s, 10)] on decimal digits. *)
Fixpoint dec_value (acc : N) (s : list ascii) : N :=
  match s with
  | [] => acc
  | c :: s' => dec_value (acc * 10 + (N_of_ascii c - 48)) s'
  end.

(** [_parse_octet]: one to three decimal digits, no leading zero except in
    [0] itself, at most 255. *)
Definition parse_octet (s : list ascii) : option N :=
  match s with
  | [] => None
  | c :: _ =>
      if negb (forallb is_digit s) then None
      else if (3 <? List.length s)%nat then None
      else if negb (Nat.eqb (List.length s) 1) && Ascii.eqb c "0" then None
      else if (255 <? dec_value 0 s)%N then None
      else Some (dec_value 0 s)
  end.

Fixpoint parse_octets (acc : N) (octets : list (list ascii)) : option N :=
  match octets with
  | [] => Some acc
  | o :: rest =>
      match parse_octet o with
      | Some n => parse_octets (acc * 256 + n) rest
      | None => None
      end
  end.

(** [IPv4Address(s)._ip]: four octets between dots. *)
Definition ipv4 (s : list ascii) : option N :=
  if Str.memb "/"%char s then None
  else
    let octets := Str.split_on "."%char [] s in
    if Nat.eqb (List.length octets) 4 then parse_octets 0 octets else None.

(** ['%x' % n] for a number below [2^16]. *)
Definition hex_text (n : N) : list ascii :=
  match Str.lstrip ["0"%char] (Uuid.hex_of 4 n) with
  | [] => ["0"%char]
  | l => l
  end.

(** [_parse_hextet] succeeds: one to four hexadecimal digits. *)
Definition hextet_ok (s : list ascii) : bool :=
  forallb is_hex s && (List.length s <=? 4)%nat && negb (is_empty s).

(** The positions from [i] on at which [parts] holds an empty text. *)
Fixpoint empty_positions (i : nat) (parts : list (list ascii)) : list nat :=
  match parts with
  | [] => []
  | p :: rest =>
      if is_empty p then i :: empty_positions (S i) rest
      else empty_positions (S i) rest
  end.

(** [IPv6Address._ip_int_from_string] succeeds. *)
Definition ipv6_int_ok (s : list ascii) : bool :=
  if is_empty s then false
  else
    let parts := Str.split_on ":"%char [] s in
    if (List.length parts <? 3)%nat then false
    else
      let parts :=
        if Str.memb "."%char (last parts [])
        then match ipv4 (last parts []) with
             | Some v =>
                 Some (removelast parts ++
                       [hex_text (N.land (N.shiftr v 16) 65535); hex_text (N.land v 65535)])
             | None => None
             end
        else Some parts in
      match parts with
      | None => false
      | Some parts =>
          let n := List.length parts in
          if (9 <? n)%nat then false
          else
            match empty_positions 1 (removelast (tl parts)) with
            | [] =>
                Nat.eqb n 8 && negb (is_empty (hd [] parts))
                && negb (is_empty (last parts [])) && forallb hextet_ok parts
            | [skip_index] =>
                let parts_hi := skip_index in
                let parts_lo := (n - skip_index - 1)%nat in
                let hi := if is_empty (hd [] parts) then (parts_hi - 1)%nat else parts_hi in
                let lo := if is_empty (last parts []) then (parts_lo - 1)%nat else parts_lo in
                negb (is_empty (hd [] parts) && negb (Nat.eqb hi 0))
                && negb (is_empty (last parts []) && negb (Nat.eqb lo 0))
                && (hi + lo <? 8)%nat
                && forallb hextet_ok (firstn hi parts)
                && forallb hextet_ok (skipn (n - lo) parts)
            | _ => false
            end
      end.

(** [IPv6Address(s)] succeeds: no slash, a scope id after [%] is not empty
    and holds no [%], and what is before it is an address. *)
Definition ipv6_ok (s : list ascii) : bool :=
  if Str.memb "/"%char s then false
  else
    match Str.partition "%"%char s with
    | None => ipv6_int_ok s
    | Some (addr, scope_id) =>
        negb (is_empty scope_id) && negb (Str.memb "%"%char scope_id) && ipv6_int_ok addr
    end.

End Ip.

(** ** URLs: [urllib.parse.urlparse(url).netloc]

    Text is taken as a sequence of characters below 256; on such text the
    normalisation check of [_checknetloc] never fires and is left out. *)

Module Url.

Definition is_alpha (c : ascii) : bool :=
  let n := N_of_ascii c in
  ((65 <=? n) && (n <=? 90) || (97 <=? n) && (n <=? 122))%N.

Definition is_digit (c : ascii) : bool :=
  let n := N_of_ascii c in ((48 <=? n) && (n <=? 57))%N.

(** The characters a scheme is made of. *)
Definition scheme_char (c : ascii) : bool :=
  is_alpha c || is_digit c || Str.memb c (Str.chars "+-.").

(** [_WHATWG_C0_CONTROL_OR_SPACE]: the characters 0 to 32. *)
Definition c0_control_or_space : list ascii := map ascii_of_nat (seq 0 33).

(** The first lines of [urlsplit]: leading control characters and blanks
    are stripped, then every tab, carriage return and line feed is taken
    out. *)
Definition cleaned (url : list ascii) : list ascii :=
  Str.remove_all [ascii_of_nat 10]
    (Str.remove_all [ascii_of_nat 13]
       (Str.remove_all [ascii_of_nat 9]
          (Str.lstrip c0_control_or_space url))).

(** [urlsplit] takes a scheme off when the text before the first colon is
    not empty, starts with a letter and holds scheme characters only. *)
Definition after_scheme (url : list ascii) : list ascii :=
  match Str.partition ":"%char url with
  | Some (c :: pre, rest) =>
      if is_alpha c && forallb scheme_char (c :: pre) then rest else url
  | _ => url
  end.

(** The characters up to the first of [/], [?] and [#]. *)
Fixpoint until_delim (s : list ascii) : list ascii :=
  match s with
  | [] => []
  | c :: s' => if Str.memb c (Str.chars "/?#") then [] else c :: until_delim s'
  end.

(** [s.partition(c)[0]] and [s.rpartition(c)[2]]: the text before the first
    [c] and the text after the last one, all of [s] when it holds none. *)
Fixpoint before_first (c : ascii) (s : list ascii) : list ascii :=
  match s with
  | [] => []
  | x :: s' => if Ascii.eqb x c then [] else x :: before_first c s'
  end.

Definition after_last (c : ascii) (s : list ascii) : list ascii :=
  rev (before_first c (rev s)).

(** [re.match(r"\Av[a-fA-F0-9]+\..+\Z", hostname)] for a host that starts
    with [v]: digits, a dot, and at least one more character, none of
    which is a line feed. *)
Fixpoint ipvfuture_tail (seen_digit : bool) (s : list ascii) : bool :=
  match s with
  | [] => false
  | c :: s' =>
      if Ip.is_hex c then ipvfuture_tail true s'
      else seen_digit && Ascii.eqb c "." && negb (Ip.is_empty s')
           && negb (Str.memb (ascii_of_nat 10) s')
  end.

(** [_check_bracketed_host] does not raise. *)
Definition bracketed_host_ok (hostname : list ascii) : bool :=
  match hostname with
  | "v"%char :: rest => ipvfuture_tail false rest
  | _ =>
      match Ip.ipv4 hostname with
      | Some _ => false                  (* an IPv4 address cannot be in brackets *)
      | None => Ip.ipv6_ok hostname
      end
  end.

(** [_check_bracketed_netloc] does not raise. *)
Definition bracketed_netloc_ok (netloc : list ascii) : bool :=
  let hostname_and_port := after_last "@"%char netloc in
  match Str.partition "["%char hostname_and_port with
  | Some (before_bracket, bracketed) =>
      if negb (Ip.is_empty before_bracket) then false
      else
        let (hostname, port) :=
          match Str.partition "]"%char bracketed with
          | Some (h, p) => (h, p)
          | None => (bracketed, [])
          end in
        match port with
        | [] => bracketed_host_ok hostname
        | c :: _ => if Ascii.eqb c ":" then bracketed_host_ok hostname else false
        end
  | None => bracketed_host_ok (before_first ":"%char hostname_and_port)
  end.

(** The network location: what follows [//], up to the path, query or
    fragment.  A bracket without its partner, or brackets around
    something that is not an IPv6 or IPvFuture literal, is a
    [ValueError]. *)
Definition netloc_chars (url : list ascii) : outcome (list ascii) :=
  match after_scheme (cleaned url) with
  | "/"%char :: "/"%char :: rest =>
      let netloc := until_delim rest in
      let opens := Str.memb "["%char netloc in
      let closes := Str.memb "]"%char netloc in
      if (opens && negb closes) || (closes && negb opens) then Raise ValueError
      else if opens && closes && negb (bracketed_netloc_ok netloc) then Raise ValueError
      else Ok netloc
  | _ => Ok []
  end.

Definition netloc (url : string) : outcome string :=
  match netloc_chars (Str.chars url) with
  | Ok n => Ok (Str.of_chars n)
  | Raise e => Raise e
  end.

End Url.

(** ** Regular-expression text: [re.escape] *)

Module Re.

(** The characters [re.escape] puts a backslash before. *)
Definition special : list ascii :=
  Str.chars "()[]{}?*+-|^$\.&~# " ++
  [ascii_of_nat 9; ascii_of_nat 10; ascii_of_nat 13; ascii_of_nat 11; ascii_of_nat 12].

Fixpoint escape_chars (s : list ascii) : list ascii :=
  match s with
  | [] => []
  | c :: s' =>
      if Str.memb c special then "\"%char :: c :: escape_chars s'
      else c :: escape_chars s'
  end.

Definition escape (s : string) : string := Str.of_chars (escape_chars (Str.chars s)).

End Re.

(** ** The file system and the processes the repository crawler uses *)

Module Os.

Fixpoint lookup {A} (k : string) (l : list (string * A)) : option A :=
  match l with
  | [] => None
  | (k', a) :: l' => if String.eqb k k' then Some a else lookup k l'
  end.

Definition exists_dir (p : string) (fs : fsys) : bool :=
  match lookup p (fs_dirs fs) with Some _ => true | None => false end.

Definition tmp_name (n : nat) : string :=
  "/tmp/tmp" ++ NilEmpty.string_of_uint (Nat.to_uint n).

(** The first unused temporary name from [n] on. *)
Fixpoint fresh_from (fs : fsys) (n fuel : nat) : nat :=
  match fuel with
  | O => n
  | S fuel' => if exists_dir (tmp_name n) fs then fresh_from fs (S n) fuel' else n
  end.

(** [tempfile.mkdtemp()]: a new empty directory under a name not in use. *)
Definition mkdtemp : M string :=
  fun w =>
    let fs := w_fs w in
    let n := fresh_from fs (fs_made fs) (List.length (fs_dirs fs)) in
    let p := tmp_name n in
    (Ok p, set_fs w (mkFs ((p, []) :: fs_dirs fs) (fs_cwd fs) (S n))).

(** [os.chdir(p)] *)
Definition chdir (p : string) : M unit :=
  fun w =>
    let fs := w_fs w in
    if exists_dir p fs
    then (Ok tt, set_fs w (mkFs (fs_dirs fs) p (fs_made fs)))
    else (Raise FileNotFoundError, w).

(** [os.listdir(p)] *)
Definition listdir (p : string) : M (list string) :=
  fun w =>
    match lookup p (fs_dirs (w_fs w)) with
    | Some entries => (Ok (map fst entries), w)
    | None => (Raise FileNotFoundError, w)
    end.

Fixpoint put_dir (p : string) (entries : list (string * node))
  (dirs : list (string * list (string * node))) : list (string * list (string * node)) :=
  match dirs with
  | [] => []
  | (q, old) :: dirs' =>
      if String.eqb p q then (q, entries) :: dirs' else (q, old) :: put_dir p entries dirs'
  end.

(** [shutil.rmtree(p)] *)
Definition rmtree (p : string) : M unit :=
  fun w =>
    let fs := w_fs w in
    if exists_dir p fs
    then (Ok tt, set_fs w (mkFs (filter (fun d => negb (String.eqb p (fst d))) (fs_dirs fs))
                                (fs_cwd fs) (fs_made fs)))
    else (Raise FileNotFoundError, w).

(** [os.path.join(a, b)] *)
Definition path_join (a b : string) : string :=
  if Str.startswith b "/" then b
  else if String.eqb a "" || Str.endswith a "/" then a ++ b
  else a ++ "/" ++ b.

(** [subprocess.run(["git", "clone", link])] in the working directory.  The
    call raises when the program cannot be started; a clone that fails only
    gives a non-zero exit status, which the caller does not look at.  A
    clone that works leaves one directory, named after the last part of the
    link. *)
Definition git_clone (link dirname : string) : M unit :=
  fun w =>
    let fs := w_fs w in
    if negb (e_git (w_env w)) then (Raise FileNotFoundError, w)
    else match e_remote (w_env w) link, lookup (fs_cwd fs) (fs_dirs fs) with
         | Some tree, Some entries =>
             (Ok tt, set_fs w (mkFs (put_dir (fs_cwd fs) (entries ++ [(dirname, Dir tree)]) (fs_dirs fs))
                                    (fs_cwd fs) (fs_made fs)))
         | _, _ => (Ok tt, w)
         end.

(** The files of a directory, with their text. *)
Fixpoint files_of (entries : list (string * node)) : list (string * option string) :=
  match entries with
  | [] => []
  | (name, File text) :: rest => (name, text) :: files_of rest
  | (_, Dir _) :: rest => files_of rest
  end.

(** [os.walk(root)], top down: each directory with its files, then its
    sub-directories in listing order. *)
Fixpoint walk (root : string) (n : node) {struct n} : list (string * list (string * option string)) :=
  match n with
  | File _ => []
  | Dir entries =>
      (root, files_of entries) ::
      (fix subdirs (es : list (string * node)) : list (string * list (string * option string)) :=
         match es with
         | [] => []
         | (name, sub) :: es' => walk (path_join root name) sub ++ subdirs es'
         end) entries
  end.

(** What [os.walk(repo_path)] goes through: nothing when the path is not a
    directory. *)
Definition walk_path (local_temp name : string) : M (list (string * list (string * option string))) :=
  fun w =>
    match lookup local_temp (fs_dirs (w_fs w)) with
    | Some entries =>
        match lookup name entries with
        | Some n => (Ok (walk (path_join local_temp name) n), w)
        | None => (Ok [], w)
        end
    | None => (Ok [], w)
    end.

End Os.

(** ** Crawlers *)

(** The user a crawl is run for ([kwargs["user"]]: its [id] and
    [full_name]). *)
Record user : Type := mkUser {
  u_id : Uuid.t;
  u_full_name : string }.

(** [kwargs["user"]] *)
Definition kwargs_user (u : option user) : M user :=
  match u with
  | Some x => ret x
  | None => raise KeyError
  end.

Definition opt_str (o : option string) : value :=
  match o with
  | Some s => VStr s
  | None => VNone
  end.

Module CustomArticleCrawler.

(** [loader.load()], [html2text.transform_documents(docs)] and
    [docs_transformed[0]]: the collaborators' answer for the link. *)
Definition load (link : string) : M page :=
  fun w => (e_web (w_env w) link, w).

(** [extract], for the document class bound as [model]. *)
Definition extract (model : cls) (link : string) (usr : option user) : M unit :=
  old_model <- NoSQLBaseDocument.find model [("link", VStr link)] ;;
  match old_model with
  | Some _ => ret tt
  | None =>
      doc_transformed <- load link ;;
      let content :=
        [("Title", opt_str (p_title doc_transformed));
         ("Subtitle", opt_str (p_description doc_transformed));
         ("Content", VStr (p_content doc_transformed));
         ("language", opt_str (p_language doc_transformed))] in
      platform <- lift (Url.netloc link) ;;
      u <- kwargs_user usr ;;
      instance <- construct model
                    [("content", VDict content);
                     ("link", VStr link);
                     ("platform", VStr platform);
                     ("author_id", VUuid (u_id u));
                     ("author_full_name", VStr (u_full_name u))] ;;
      NoSQLBaseDocument.save false instance ;;;
      ret tt
  end.

End CustomArticleCrawler.

Module GithubCrawler.

(** The default of [__init__]'s [ignore]. *)
Definition default_ignore : list string := [".git"; ".toml"; ".lock"; ".png"].

(** [link.rstrip("/").split("/")[-1]] *)
Definition repo_name (link : string) : string :=
  last (Str.split "/"%char (Str.of_chars (Str.rstrip ["/"%char] (Str.chars link)))) "".

(** The inner loop over the files of one directory. *)
Fixpoint read_files (ignore : list string) (dir : string)
  (files : list (string * option string)) (tree : dict) : outcome dict :=
  match files with
  | [] => Ok tree
  | (file, text) :: rest =>
      if Str.endswith_any file ignore then read_files ignore dir rest tree
      else match text with
           | None => Raise PermissionError
           | Some t =>
               read_files ignore dir rest
                 (dict_set (Os.path_join dir file) (VStr (Str.replace_empty " " t)) tree)
           end
  end.

(** The loop over [os.walk(repo_path)]. *)
Fixpoint read_tree (ignore : list string) (repo_path : string)
  (steps : list (string * list (string * option string))) (tree : dict) : outcome dict :=
  match steps with
  | [] => Ok tree
  | (root, files) :: rest =>
      let dir := Str.of_chars (Str.lstrip ["/"%char]
                   (Str.chars (Str.replace_empty repo_path root))) in
      if Str.startswith_any dir ignore then read_tree ignore repo_path rest tree
      else match read_files ignore dir files tree with
           | Ok tree' => read_tree ignore repo_path rest tree'
           | Raise e => Raise e
           end
  end.

(** The body of the [try]. *)
Definition clone_and_save (model : cls) (ignore : list string)
  (link repo local_temp : string) (usr : option user) : M unit :=
  Os.chdir local_temp ;;;
  Os.git_clone link repo ;;;
  names <- Os.listdir local_temp ;;
  match names with
  | [] => ret tt
  | first :: _ =>
      let repo_path := Os.path_join local_temp first in
      steps <- Os.walk_path local_temp first ;;
      tree <- lift (read_tree ignore repo_path steps []) ;;
      u <- kwargs_user usr ;;
      instance <- construct model
                    [("content", VDict tree);
                     ("name", VStr repo);
                     ("link", VStr link);
                     ("platform", VStr "github");
                     ("author_id", VUuid (u_id u));
                     ("author_full_name", VStr (u_full_name u))] ;;
      NoSQLBaseDocument.save false instance ;;;
      ret tt
  end.

(** [extract], for the document class bound as [model]. *)
Definition extract (model : cls) (ignore : list string) (link : string)
  (usr : option user) : M unit :=
  old_model <- NoSQLBaseDocument.find model [("link", VStr link)] ;;
  match old_model with
  | Some _ => ret tt
  | None =>
      let repo := repo_name link in
      local_temp <- Os.mkdtemp ;;
      try_finally
        (clone_and_save model ignore link repo local_temp usr)
        (Os.rmtree local_temp)
  end.

End GithubCrawler.

(** ** The dispatcher *)

Inductive crawler_class : Type := GithubCrawlerClass | CustomArticleCrawlerClass.

(** An instance of a crawler class, as its constructor makes it. *)
Inductive crawler : Type :=
| AGithubCrawler (ignore : list string)
| ACustomArticleCrawler.

Definition instantiate (k : crawler_class) : crawler :=
  match k with
  | GithubCrawlerClass => AGithubCrawler GithubCrawler.default_ignore
  | CustomArticleCrawlerClass => ACustomArticleCrawler
  end.

Definition class_of (c : crawler) : crawler_class :=
  match c with
  | AGithubCrawler _ => GithubCrawlerClass
  | ACustomArticleCrawler => CustomArticleCrawlerClass
  end.

Module CrawlerDispatcher.

(** [self._crawlers]: crawler classes by pattern text. *)
Definition t := list (string * crawler_class).

(** [build] *)
Definition build : t := [].

(** The key [register] files a domain under:
    [r"https://(www\.)?{}/*".format(re.escape(domain))]. *)
Definition pattern (domain : string) : string :=
  "https://(www\.)?" ++ Re.escape domain ++ "/*".

Fixpoint put (k : string) (c : crawler_class) (d : t) : t :=
  match d with
  | [] => [(k, c)]
  | (k', c') :: d' => if String.eqb k k' then (k, c) :: d' else (k', c') :: put k c d'
  end.

(** [register]: the dispatcher after the call, or what [urlparse] raised. *)
Definition register (self : t) (domain : string) (crawler : crawler_class) : outcome t :=
  match Url.netloc domain with
  | Ok domain => Ok (put (pattern domain) crawler self)
  | Raise e => Raise e
  end.

(** [register_github] *)
Definition register_github (self : t) : outcome t :=
  register self "https://github.com" GithubCrawlerClass.

(** The domain without a leading [www.], when it has one. *)
Definition without_www (domain : string) : option string :=
  match Str.chars domain with
  | "w"%char :: "w"%char :: "w"%char :: "."%char :: rest => Some (Str.of_chars rest)
  | _ => None
  end.

(** Modelled from the spec: [get_crawler] is called by
    [tests/document_retriever.py] but its definition is not among the
    sources.  Section 4.4: it "derives the domain from the URL and looks up
    the best/only matching registered pattern; if no pattern matches, this
    is a configuration/usage error", which an implementation is to signal
    explicitly.  A registered pattern matches the domain it was made from
    and, through its optional [(www\.)?] group, that domain behind [www.];
    the pattern made from the URL's own domain is the best match. *)
Definition get_crawler (self : t) (url : string) : outcome crawler :=
  match Url.netloc url with
  | Raise e => Raise e
  | Ok domain =>
      match Os.lookup (pattern domain) self with
      | Some k => Ok (instantiate k)
      | None =>
          match without_www domain with
          | Some bare =>
              match Os.lookup (pattern bare) self with
              | Some k => Ok (instantiate k)
              | None => Raise KeyError
              end
          | None => Raise KeyError
          end
      end
  end.

(** A dispatcher after a series of registrations. *)
Fixpoint register_all (self : t) (regs : list (string * crawler_class)) : outcome t :=
  match regs with
  | [] => Ok self
  | (domain, crawler) :: rest =>
      match register self domain crawler with
      | Ok self' => register_all self' rest
      | Raise e => Raise e
      end
  end.

(** What [urlparse] makes of the domains of a series of registrations. *)
Definition domains (regs : list (string * crawler_class)) : list (outcome string) :=
  map (fun r => Url.netloc (fst r)) regs.

End CrawlerDispatcher.

(** ** The connection singleton ([database/mongo_connection.py]) *)

Module MongoDatabaseConnector.

(** [AppSettings] of [model/settings.py]: what the client is made with. *)
Record app_settings : Type := mkSettings {
  MONGO_HOST : string;
  MONGO_PORT : N;
  MONGO_USER : string;
  MONGO_PASSWORD : string;
  DATABASE_NAME : string }.

(** The defaults the class declares. *)
Definition default_settings : app_settings :=
  mkSettings "localhost" 27017 "llm" "llm" "llm_game".

(** A [MongoClient]: the arguments it was made with, and which call of the
    constructor made it. *)
Record client : Type := mkClient {
  cl_host : string;
  cl_port : N;
  cl_username : string;
  cl_password : string;
  cl_serial : nat }.

(** The process as the class sees it: the class attribute [_instance], the
    number of [MongoClient(...)] calls made so far, and which of the calls
    raise [ConnectionFailure]. *)
Record process : Type := mkProcess {
  instance : option client;
  calls : nat;
  refused : nat -> bool }.

(** What [MongoDatabaseConnector()] gives: the client, or the
    [ConnectionError] raised in the handler of [ConnectionFailure]. *)
Inductive answer : Type :=
| Returned (c : client)
| ConnectionError.

(** [__new__] *)
Definition new (settings : app_settings) (p : process) : answer * process :=
  match instance p with
  | None =>
      if refused p (calls p)
      then (ConnectionError, mkProcess None (S (calls p)) (refused p))
      else
        let c := mkClient (MONGO_HOST settings) (MONGO_PORT settings)
                          (MONGO_USER settings) (MONGO_PASSWORD settings) (calls p) in
        (Returned c, mkProcess (Some c) (S (calls p)) (refused p))
  | Some c => (Returned c, p)
  end.

(** [n] calls of [MongoDatabaseConnector()] one after the other. *)
Fixpoint repeat_new (settings : app_settings) (n : nat) (p : process)
  : list answer * process :=
  match n with
  | O => ([], p)
  | S n' =>
      let (a, p1) := new settings p in
      let (rest, p2) := repeat_new settings n' p1 in
      (a :: rest, p2)
  end.

End MongoDatabaseConnector.

(** ** The batch runner ([tests/document_retriever.py]) *)

Module DocumentRetriever.

(** The per-domain counters, a dictionary of integers, and the dictionary of
    them by domain. *)
Definition counts := list (string * Z).
Definition tally := list (string * counts).

(** [d[k] = a] on a dictionary with text keys. *)
Fixpoint assoc_set {A : Type} (k : string) (a : A) (l : list (string * A))
  : list (string * A) :=
  match l with
  | [] => [(k, a)]
  | (k', a') :: l' =>
      if String.eqb k k' then (k, a) :: l' else (k', a') :: assoc_set k a l'
  end.

(** [c.get(k, 0)] *)
Definition get0 (k : string) (c : counts) : Z :=
  match Os.lookup k c with
  | Some n => n
  | None => 0%Z
  end.

(** A [bool] added to an [int]. *)
Definition int_of_bool (b : bool) : Z := if b then 1%Z else 0%Z.

(** [_add_to_metadata] *)
Definition add_to_metadata (metadata : tally) (domain : string)
  (successfull_crawl : bool) : tally :=
  let metadata :=
    match Os.lookup domain metadata with
    | Some _ => metadata
    | None => assoc_set domain [] metadata
    end in
  let inner := match Os.lookup domain metadata with Some c => c | None => [] end in
  let inner :=
    assoc_set "successful" (get0 "successful" inner + int_of_bool successfull_crawl)%Z inner in
  let inner := assoc_set "total" (get0 "total" inner + 1)%Z inner in
  assoc_set domain inner metadata.

(** [try: m  except Exception: h] -- every exception is caught. *)
Definition try_except_exception {A} (m : M A) (h : exn -> M A) : M A :=
  fun w => match m w with
           | (Ok a, w') => (Ok a, w')
           | (Raise e, w') => h e w'
           end.

(** The summary [test_crawler_dispatcher] returns. *)
Record summary : Type := mkSummary {
  total : Z;
  successful : Z;
  failed : Z;
  metadata : tally }.

Section Runner.

(** [dispatcher.get_crawler] is not among the sources, and which crawlers it
    hands out is the dispatcher's business: the runner is modelled for any
    lookup and for any [extract] of the crawler found. *)
Variable get_crawler : string -> outcome crawler.
Variable extract : crawler -> string -> user -> M unit.

(** [_crawler_link] *)
Definition crawler_link (link : string) (u : user) : M (bool * string) :=
  crawler <- lift (get_crawler link) ;;
  crawler_domain <- lift (Url.netloc link) ;;
  try_except_exception
    (extract crawler link u ;;; ret (true, crawler_domain))
    (fun _ => ret (false, crawler_domain)).

(** The loop of [test_crawler_dispatcher]. *)
Fixpoint crawl_links (u : user) (links : list string) (metadata : tally)
  (successful_crawls : Z) : M (tally * Z) :=
  match links with
  | [] => ret (metadata, successful_crawls)
  | link :: rest =>
      r <- crawler_link link u ;;
      crawl_links u rest
        (add_to_metadata metadata (snd r) (fst r))
        (successful_crawls + int_of_bool (fst r))%Z
  end.

(** [test_crawler_dispatcher] *)
Definition test_crawler_dispatcher (u : user) (links : list string) : M summary :=
  r <- crawl_links u links [] 0%Z ;;
  let n := Z.of_nat (List.length links) in
  ret (mkSummary n (snd r) (n - snd r)%Z (fst r)).

End Runner.

(** The sum of one counter over all domains. *)
Fixpoint sum_of (k : string) (m : tally) : Z :=
  match m with
  | [] => 0%Z
  | (_, c) :: m' => (get0 k c + sum_of k m')%Z
  end.

(** The counters of a domain are sound: between none and all of its crawls
    succeeded. *)
Definition sound (entry : string * counts) : Prop :=
  (0 <= get0 "successful" (snd entry) <= get0 "total" (snd entry))%Z.

End DocumentRetriever.

(** ** Document classes and sample data *)

Module Documents.

(** [ExampleDocument] of [tests/test_no_sql_base_document.py]. *)
Definition ExampleDocument : cls :=
  mkCls 1 "ExampleDocument" [] [("name", TStr)] (Some "test_collection").

(** [ExampleDocument] of [tests/mongo_checks.py]: another class under the
    same name. *)
Definition ExampleDocument_checks : cls :=
  mkCls 6 "ExampleDocument" [] [("name", TStr); ("document", TStr)]
        (Some "test_collection").

(** A class derived from it, as any caller may declare one:
    [class SpecialExample(ExampleDocument)]. *)
Definition SpecialExample : cls :=
  mkCls 2 "SpecialExample" [1%N] [("name", TStr)] (Some "test_collection").

(** Modelled from the spec: [llm_engineering/pages/documents.py] is not among
    the sources.  Section 3 gives each document a [content] mapping, a
    [link], and the provenance fields [platform], [author_id] and
    [author_full_name]; the crawlers pass exactly these, the repository
    crawler also a [name]. *)
Definition article_fields : list (string * ftype) :=
  [("content", TDict); ("link", TStr); ("platform", TStr);
   ("author_id", TUuid4); ("author_full_name", TStr)].

Definition repository_fields : list (string * ftype) :=
  [("content", TDict); ("name", TStr); ("link", TStr); ("platform", TStr);
   ("author_id", TUuid4); ("author_full_name", TStr)].

Definition ArticleDocument : cls :=
  mkCls 3 "ArticleDocument" [] article_fields (Some "articles").

Definition RepositoryDocument : cls :=
  mkCls 4 "RepositoryDocument" [] repository_fields (Some "repositories").

(** Two identifiers as [uuid.uuid4] makes them. *)
Definition id_a : Uuid.t := Uuid.uuid4_of_random 7.
Definition id_b : Uuid.t := Uuid.uuid4_of_random 11.

(** A world with an empty store and file system, [git] installed, no
    repository behind any link and no page behind any address. *)
Definition quiet : world :=
  mkWorld (mkStore [] [] 0) (fun n => N.of_nat n) 0
          (mkFs [("/app", [])] "/app" 0)
          (mkEnv true (fun _ => None) (fun _ => Raise OSError)).

(** An article whose [content] carries an identifier of its own. *)
Definition sample_article : document :=
  mkDoc ArticleDocument id_a
        [("content", VDict [("Title", VStr "T"); ("ref", VUuid id_b)]);
         ("link", VStr "https://example.com/a");
         ("platform", VStr "example.com");
         ("author_id", VUuid id_b);
         ("author_full_name", VStr "Ada L")]
        ["content"; "link"; "platform"; "author_id"; "author_full_name"].


(** A store of [ExampleDocument]s in which the second record was not written
    by [save]: its primary key is an [ObjectId]. *)
Definition mixed_records : list dict :=
  [ [("_id", VStr (Uuid.str id_a)); ("name", VStr "Entry 0")];
    [("_id", VObjectId 1); ("name", VStr "Entry 0")] ].

Definition mixed : world :=
  mkWorld (mkStore [("test_collection", mixed_records)] [] 2) (fun n => N.of_nat n) 0
          (mkFs [("/app", [])] "/app" 0)
          (mkEnv true (fun _ => None) (fun _ => Raise OSError)).

(** A world whose store answers the next operation and refuses the one
    after it with a write error. *)
Definition failing_write : world :=
  mkWorld (mkStore [] [None; Some WriteError] 0) (fun n => N.of_nat n) 0
          (mkFs [("/app", [])] "/app" 0)
          (mkEnv true (fun _ => None) (fun _ => Raise OSError)).

(** A world whose store refuses the next operation. *)
Definition failing_read : world :=
  mkWorld (mkStore [("test_collection", mixed_records)] [Some OperationFailure] 2)
          (fun n => N.of_nat n) 0
          (mkFs [("/app", [])] "/app" 0)
          (mkEnv true (fun _ => None) (fun _ => Raise OSError)).


(** A world in which [sample_article] has been saved. *)
Definition crawled : world :=
  mkWorld (mkStore [("articles", [NoSQLBaseDocument.to_mongo false sample_article])] [] 0)
          (fun n => N.of_nat n) 0
          (mkFs [("/app", [])] "/app" 0)
          (mkEnv true (fun _ => None) (fun _ => Raise OSError)).


(** A repository, the link it is cloned from, and the user crawling it. *)
Definition engine_tree : list (string * node) :=
  [("README.md", File (Some "hello world"));
   (".git", Dir [("config", File (Some "x"))]);
   ("src", Dir [("main.py", File (Some "print ( 1 )"));
                ("logo.png", File None);
                ("sub", Dir [("a.toml", File (Some "q"));
                             ("b.txt", File (Some "b b"))])])].

Definition engine_link : string := "https://github.com/ada/engine/".

Definition ada : user := mkUser id_b "Ada L".

(** A world with an empty store in which [engine_link] can be cloned and
    [https://example.com/a] can be fetched. *)
Definition online : world :=
  mkWorld (mkStore [] [] 0) (fun n => N.of_nat n) 0
          (mkFs [("/app", [])] "/app" 0)
          (mkEnv true
             (fun l => if String.eqb l engine_link then Some engine_tree else None)
             (fun l => if String.eqb l "https://example.com/a"
                       then Ok (mkPage (Some "T") None (Some "en") "Body text")
                       else Raise OSError)).

(** The same world without a [git] program. *)
Definition no_git : world :=
  mkWorld (w_store online) (w_entropy online) 0 (w_fs online)
          (mkEnv false (e_remote (w_env online)) (e_web (w_env online))).

(** The working directory after the first temporary directory was made. *)
Definition online_tmp : world :=
  set_fs online (mkFs [("/tmp/tmp0", []); ("/app", [])] "/app" 1).


(** The world [online] with a store that answers two operations and refuses
    the third with an operation failure. *)
Definition flaky : world :=
  set_store online (mkStore [] [None; None; Some OperationFailure] 0).


(** A document class that declares no [Settings.name]. *)
Definition Unbound : cls := mkCls 5 "Unbound" [] [("name", TStr)] None.

(** An [ExampleDocument] built without an [id] argument: the id was drawn,
    so it is not among the fields set. *)
Definition defaulted_example : document :=
  mkDoc ExampleDocument id_a [("name", VStr "Test Entry")] ["name"].


(** Two [ExampleDocument]s that share their name, as [bulk_insert] takes
    them. *)
Definition entries : list document :=
  [ mkDoc ExampleDocument id_a [("name", VStr "Entry")] ["name"];
    mkDoc ExampleDocument id_b [("name", VStr "Entry")] ["name"] ].


(** The lookup of [CrawlerDispatcher.build().register_github()]. *)
Definition sample_get_crawler (link : string) : outcome crawler :=
  match CrawlerDispatcher.register_github CrawlerDispatcher.build with
  | Ok dispatcher => CrawlerDispatcher.get_crawler dispatcher link
  | Raise e => Raise e
  end.

(** A dispatcher's [extract], bound to the sample document classes, and a
    batch of three links. *)
Definition sample_extract (k : crawler) (link : string) (u : user) : M unit :=
  match k with
  | AGithubCrawler ignore => GithubCrawler.extract RepositoryDocument ignore link (Some u)
  | ACustomArticleCrawler => CustomArticleCrawler.extract ArticleDocument link (Some u)
  end.

Definition sample_links : list string :=
  [engine_link; "https://github.com/ada/engine/"; "https://www.github.com/ada/none"].

End Documents.

(** Does a value hold a UUID object, at any depth? *)
Fixpoint holds_uuid (v : value) : bool :=
  match v with
  | VUuid _ => true
  | VList l => existsb holds_uuid l
  | VDict d =>
      (fix any (d : list (string * value)) : bool :=
         match d with
         | [] => false
         | (_, x) :: d' => holds_uuid x || any d'
         end) d
  | _ => false
  end.

(** ** Notions the statements use *)

(** A call leaves an observation of the world as it was. *)
Definition keeps {A T : Type} (f : world -> T) (m : M A) : Prop :=
  forall w, f (snd (m w)) = f w.

(** The process working directory. *)
Definition cwd (w : world) : string := fs_cwd (w_fs w).

(** The records of all collections. *)
Definition database (w : world) : list (string * list dict) := s_db (w_store w).

(** What a call on the store or on a document class leaves alone. *)
Definition outside_store (w : world) : fsys * env := (w_fs w, w_env w).

(** What a call that only reads the store leaves alone: the records, the
    file system and the collaborators. *)
Definition persisted (w : world) : list (string * list dict) * fsys * env :=
  (database w, w_fs w, w_env w).

(** The keyword arguments the article crawler builds its document from. *)
Definition article_kwargs (link platform : string) (pg : page) (u : user) : dict :=
  [("content", VDict [("Title", opt_str (p_title pg));
                      ("Subtitle", opt_str (p_description pg));
                      ("Content", VStr (p_content pg));
                      ("language", opt_str (p_language pg))]);
   ("link", VStr link);
   ("platform", VStr platform);
   ("author_id", VUuid (u_id u));
   ("author_full_name", VStr (u_full_name u))].

(** The keyword arguments the repository crawler builds its document from. *)
Definition repository_kwargs (link : string) (tree : dict) (u : user) : dict :=
  [("content", VDict tree);
   ("name", VStr (GithubCrawler.repo_name link));
   ("link", VStr link);
   ("platform", VStr "github");
   ("author_id", VUuid (u_id u));
   ("author_full_name", VStr (u_full_name u))].

(** The identifier the next call of [uuid.uuid4] returns. *)
Definition next_uuid (w : world) : Uuid.t :=
  Uuid.uuid4_of_random (w_entropy w (w_drawn w)).

(** The directory the next call of [tempfile.mkdtemp] makes. *)
Definition next_tmp (w : world) : string :=
  Os.tmp_name (Os.fresh_from (w_fs w) (fs_made (w_fs w)) (List.length (fs_dirs (w_fs w)))).

(** What the repository crawler reads from a clone of [tree] made in the
    next temporary directory. *)
Definition read_clone (ignore : list string) (link : string)
  (tree : list (string * node)) (w : world) : outcome dict :=
  let repo_path := Os.path_join (next_tmp w) (GithubCrawler.repo_name link) in
  GithubCrawler.read_tree ignore repo_path (Os.walk repo_path (Dir tree)) [].

(** The store after one more record went into a collection. *)
Definition with_record (name : string) (r : dict) (w : world) : store :=
  Mongo.set_db (w_store w)
    (Mongo.put_records name (Mongo.records_of name (database w) ++ [r]) (database w)).

(** How many records of a collection carry the link. *)
Definition count_link (name link : string) (w : world) : nat :=
  List.length (filter (Mongo.matches [("link", VStr link)])
                      (Mongo.records_of name (database w))).

(** A call that stores nothing when it raises. *)
Definition raises_clean {A : Type} (m : M A) : Prop :=
  forall w e w', m w = (Raise e, w') -> database w' = database w.

(** Two classes do not derive from each other: when each is among the
    other's ancestors they are one class. *)
Definition acyclic (a b : cls) : Prop :=
  NoSQLBaseDocument.issubclass a b = true ->
  NoSQLBaseDocument.issubclass b a = true -> c_id a = c_id b.

(** A text without blanks. *)
Definition spaceless (v : value) : Prop :=
  exists s, v = VStr s /\ Str.memb " "%char (Str.chars s) = false.

(* ================================================================== *)
(** * Part II: properties *)
(* ================================================================== *)

Section StrFacts.

Lemma prefixb_head_false (p : list ascii) (a c : ascii) (s : list ascii) :
  Ascii.eqb a c = false -> Str.prefixb (a :: p) (c :: s) = false.
Proof. intros H. simpl. now rewrite H. Qed.

(** A pattern whose first character does not occur in [s] is never found. *)
Lemma remove_from_absent (a : ascii) (p s : list ascii) :
  Str.memb a s = false -> Str.remove_from (a :: p) 0 s = s.
Proof.
  induction s as [|c s IH]; intros H; [reflexivity|].
  unfold Str.memb in H. simpl in H. apply orb_false_elim in H as [Hc Hs].
  cbn [Str.remove_from]. rewrite prefixb_head_false by exact Hc.
  f_equal. apply IH. exact Hs.
Qed.

End StrFacts.

(** One bit of a generated identifier, at a position given as a numeral:
    the masks decide it, or it is the random bit. *)
Ltac uuid4_bit :=
  unfold Uuid.uuid4_of_random;
  rewrite N.lor_spec, N.ldiff_spec, N.lor_spec, N.ldiff_spec;
  match goal with
  | |- context [N.testbit (N.modulo ?r ?m) ?i] => generalize (N.testbit (N.modulo r m) i)
  end;
  let b := fresh "b" in intros b; destruct b; reflexivity.

Section UuidFacts.

Import Uuid.

Lemma hex_of_length (n : nat) (x : N) : List.length (hex_of n x) = n.
Proof.
  revert x. induction n as [|n IH]; intros x; simpl; [reflexivity|].
  rewrite length_app, IH. simpl. lia.
Qed.

(** The sixteen digits, one by one. *)
Lemma small_cases (d : N) :
  (d < 16)%N ->
  In d [0; 1; 2; 3; 4; 5; 6; 7; 8; 9; 10; 11; 12; 13; 14; 15]%N.
Proof.
  intros H. destruct d as [|p]; [simpl; tauto|].
  do 5 (try (destruct p as [p|p|]; try lia; try (simpl; tauto))).
Qed.

Lemma forall_digits (P : N -> bool) :
  forallb P [0; 1; 2; 3; 4; 5; 6; 7; 8; 9; 10; 11; 12; 13; 14; 15]%N = true ->
  forall d, (d < 16)%N -> P d = true.
Proof.
  intros H d Hd. rewrite forallb_forall in H. apply H, small_cases, Hd.
Qed.

Lemma hex_val_digit (d : N) : (d < 16)%N -> hex_val (hex_digit d) = Some d.
Proof.
  intros Hd.
  apply (forall_digits (fun d => match hex_val (hex_digit d) with
                                 | Some e => N.eqb e d
                                 | None => false
                                 end)) in Hd; [|reflexivity].
  destruct (hex_val (hex_digit d)); [|discriminate].
  apply N.eqb_eq in Hd. now subst.
Qed.

Lemma plain_digit (d : N) : (d < 16)%N -> plain (hex_digit d) = true.
Proof. apply (forall_digits (fun d => plain (hex_digit d))). reflexivity. Qed.

Lemma hex_of_plain (n : nat) (x : N) : forallb plain (hex_of n x) = true.
Proof.
  revert x. induction n as [|n IH]; intros x; simpl; [reflexivity|].
  rewrite forallb_app, IH. simpl. rewrite plain_digit; [reflexivity|].
  apply N.mod_lt. discriminate.
Qed.

Lemma hex_value_app (l : list ascii) (c : ascii) (acc : N) :
  hex_value acc (l ++ [c]) =
  match hex_value acc l with
  | Some a => match hex_val c with Some d => Some (a * 16 + d)%N | None => None end
  | None => None
  end.
Proof.
  revert acc. induction l as [|b l IH]; intros acc; simpl.
  - destruct (hex_val c); reflexivity.
  - destruct (hex_val b); [apply IH|reflexivity].
Qed.

Lemma hex_value_hex_of (n : nat) (x : N) :
  hex_value 0 (hex_of n x) = Some (x mod 16 ^ N.of_nat n)%N.
Proof.
  revert x. induction n as [|n IH]; intros x.
  - simpl. now rewrite N.mod_1_r.
  - cbn [hex_of]. rewrite hex_value_app, IH, hex_val_digit
      by (apply N.mod_lt; discriminate).
    f_equal. rewrite Nat2N.inj_succ, N.pow_succ_r'.
    rewrite (N.Div0.mod_mul_r x 16). lia.
Qed.

Lemma hex_of_digits (n : nat) (x : N) :
  Forall (fun c => hex_val c <> None) (hex_of n x).
Proof.
  revert x. induction n as [|n IH]; intros x; cbn [hex_of]; [constructor|].
  apply Forall_app. split; [apply IH|]. constructor; [|constructor].
  rewrite hex_val_digit by (apply N.mod_lt; discriminate). discriminate.
Qed.

(** A hexadecimal digit is none of the characters [int] gives a meaning of
    their own. *)
Lemma digit_is_plain (c : ascii) :
  hex_val c <> None ->
  is_space c = false /\ Ascii.eqb c "_" = false /\ Ascii.eqb c "+" = false /\
  Ascii.eqb c "-" = false /\ Ascii.eqb c "x" = false /\ Ascii.eqb c "X" = false.
Proof.
  destruct c as [b0 b1 b2 b3 b4 b5 b6 b7].
  destruct b0, b1, b2, b3, b4, b5, b6, b7; intros H;
    solve [ repeat split; reflexivity | exfalso; apply H; reflexivity ].
Qed.

Lemma digits16_digits (s : list ascii) (acc : N) :
  Forall (fun c => hex_val c <> None) s ->
  digits16 acc false s = match hex_value acc s with
                         | Some n => Some (n, [])
                         | None => None
                         end.
Proof.
  intros H. revert acc. induction H as [|c s Hc Hs IH]; intros acc; [reflexivity|].
  cbn [digits16 hex_value].
  destruct (digit_is_plain c Hc) as (_ & -> & _).
  destruct (hex_val c) as [d|]; [apply IH|congruence].
Qed.

(** On a run of digits [int(text, 16)] is the value of the digits. *)
Lemma int16_digits (s : list ascii) (n : N) :
  s <> [] -> Forall (fun c => hex_val c <> None) s ->
  hex_value 0 s = Some n -> int16 s = Some (Z.of_N n).
Proof.
  intros Hne H Hn. destruct s as [|c s]; [congruence|].
  inversion H as [|? ? Hc Hs]; subst.
  destruct (digit_is_plain c Hc) as (Hsp & _ & Hplus & Hminus & _ & _).
  unfold int16. cbn [skip_spaces]. rewrite Hsp, Hplus, Hminus.
  assert (E : match c :: s with
              | z :: x :: r =>
                  if Ascii.eqb z "0" && (Ascii.eqb x "x" || Ascii.eqb x "X")
                  then match r with
                       | c0 :: r' => if Ascii.eqb c0 "_" then r' else r
                       | [] => r
                       end
                  else c :: s
              | _ => c :: s
              end = c :: s).
  { destruct s as [|x r]; [reflexivity|].
    inversion Hs as [|? ? Hx _]; subst.
    destruct (digit_is_plain x Hx) as (_ & _ & _ & _ & -> & ->).
    now rewrite andb_false_r. }
  rewrite E. destruct (hex_val c) eqn:Ec; [|congruence].
  rewrite (digits16_digits (c :: s) 0 H), Hn. reflexivity.
Qed.

Lemma forallb_firstn {A} (f : A -> bool) (k : nat) (l : list A) :
  forallb f l = true -> forallb f (firstn k l) = true.
Proof.
  revert k. induction l as [|a l IH]; intros [|k] H; simpl in *; try reflexivity.
  apply andb_true_iff in H as [Ha Hl]. now rewrite Ha, IH.
Qed.

Lemma forallb_skipn {A} (f : A -> bool) (k : nat) (l : list A) :
  forallb f l = true -> forallb f (skipn k l) = true.
Proof.
  revert k. induction l as [|a l IH]; intros [|k] H; simpl in *; try reflexivity.
  - exact H.
  - apply andb_true_iff in H as [_ Hl]. now apply IH.
Qed.

Lemma plain_not_memb (a : ascii) (l : list ascii) :
  plain a = false -> forallb plain l = true -> Str.memb a l = false.
Proof.
  intros Ha. induction l as [|c l IH]; intros H; [reflexivity|].
  simpl in H. apply andb_true_iff in H as [Hc Hl].
  unfold Str.memb. simpl. fold (Str.memb a l). rewrite (IH Hl), orb_false_r.
  destruct (Ascii.eqb_spec a c) as [->|]; [congruence|reflexivity].
Qed.

Lemma memb_app (a : ascii) (l1 l2 : list ascii) :
  Str.memb a (l1 ++ l2) = Str.memb a l1 || Str.memb a l2.
Proof. apply existsb_app. Qed.

Lemma memb_cons (a c : ascii) (l : list ascii) :
  Str.memb a (c :: l) = Ascii.eqb a c || Str.memb a l.
Proof. reflexivity. Qed.

Lemma lstrip_head (set : list ascii) (c : ascii) (s : list ascii) :
  Str.memb c set = false -> Str.lstrip set (c :: s) = c :: s.
Proof. intros H. simpl. now rewrite H. Qed.

Lemma rstrip_last (set : list ascii) (c : ascii) (s : list ascii) :
  Str.memb c set = false -> Str.rstrip set (s ++ [c]) = s ++ [c].
Proof.
  intros H. unfold Str.rstrip. rewrite rev_app_distr. simpl.
  rewrite H. simpl. now rewrite rev_involutive.
Qed.

(** Removing a one-character pattern is a filter. *)
Lemma remove_from_single (d : ascii) (s : list ascii) :
  Str.remove_from [d] 0 s = filter (fun c => negb (Ascii.eqb d c)) s.
Proof.
  induction s as [|c s IH]; [reflexivity|].
  cbn [Str.remove_from Str.prefixb filter List.length Nat.sub].
  rewrite andb_true_r. destruct (Ascii.eqb d c); simpl; now rewrite IH.
Qed.

Lemma filter_plain (l : list ascii) :
  forallb plain l = true ->
  filter (fun c => negb (Ascii.eqb dash c)) l = l.
Proof.
  induction l as [|c l IH]; intros H; [reflexivity|].
  cbn [forallb] in H. apply andb_true_iff in H as [Hc Hl]. cbn [filter].
  rewrite (IH Hl). destruct (Ascii.eqb_spec dash c) as [<-|]; [discriminate|].
  reflexivity.
Qed.

Lemma filter_dash (l : list ascii) :
  filter (fun c => negb (Ascii.eqb dash c)) (dash :: l)
  = filter (fun c => negb (Ascii.eqb dash c)) l.
Proof. reflexivity. Qed.

Lemma plain_brace (c : ascii) :
  plain c = true -> Str.memb c (Str.chars "{}") = false.
Proof.
  unfold plain, Str.memb. simpl. intros H.
  apply negb_true_iff in H. repeat (apply orb_false_elim in H as [? H]).
  repeat (apply orb_false_intro; try assumption).
Qed.

(** The parser's clean-up steps undo the dashes of the canonical form and
    nothing else. *)
Lemma normalize_dashed (c1 c5 : ascii) (h1 h2 h3 h4 h5 : list ascii) :
  forallb plain (c1 :: h1) = true -> forallb plain h2 = true ->
  forallb plain h3 = true -> forallb plain h4 = true ->
  forallb plain (h5 ++ [c5]) = true ->
  normalize ((c1 :: h1) ++ dash :: h2 ++ dash :: h3 ++ dash :: h4 ++ dash :: h5 ++ [c5])
  = (c1 :: h1) ++ h2 ++ h3 ++ h4 ++ h5 ++ [c5].
Proof.
  intros P1 P2 P3 P4 P5. unfold normalize.
  set (s := (c1 :: h1) ++ dash :: h2 ++ dash :: h3 ++ dash :: h4 ++ dash :: h5 ++ [c5]).
  assert (Hu : Str.memb "u"%char s = false).
  { unfold s. set (g1 := c1 :: h1) in *. set (g5 := h5 ++ [c5]) in *.
    repeat (rewrite memb_app || rewrite memb_cons).
    rewrite !(plain_not_memb "u"%char) by (assumption || reflexivity).
    reflexivity. }
  change (Str.chars "urn:") with ("u" :: Str.chars "rn:")%char.
  change (Str.chars "uuid:") with ("u" :: Str.chars "uid:")%char.
  cbn [Str.remove_all]. rewrite !(remove_from_absent _ _ _ Hu).
  assert (Hs : Str.strip (Str.chars "{}") s = s).
  { unfold Str.strip. unfold s at 1. cbn [app].
    rewrite lstrip_head.
    2:{ apply plain_brace. simpl in P1. now apply andb_true_iff in P1 as [? _]. }
    change (c1 :: h1 ++ dash :: h2 ++ dash :: h3 ++ dash :: h4 ++ dash :: h5 ++ [c5]) with s.
    replace s with (((c1 :: h1) ++ dash :: h2 ++ dash :: h3 ++ dash :: h4 ++ dash :: h5) ++ [c5]).
    2:{ unfold s. repeat (rewrite <- app_assoc; cbn [app]). reflexivity. }
    apply rstrip_last, plain_brace.
    rewrite forallb_app in P5. apply andb_true_iff in P5 as [_ P5].
    simpl in P5. now rewrite andb_true_r in P5. }
  rewrite Hs. change (Str.chars "-") with [dash]. cbn [Str.remove_all].
  rewrite remove_from_single. unfold s. clear s Hu Hs.
  set (g1 := c1 :: h1) in *. set (g5 := h5 ++ [c5]) in *.
  repeat (rewrite filter_app || rewrite filter_dash).
  now rewrite !filter_plain by assumption.
Qed.

Lemma split_last {A} (l : list A) :
  l <> [] -> exists l' a, l = l' ++ [a].
Proof.
  intros H. destruct (exists_last H) as (l' & a & ->). now exists l', a.
Qed.

(** [UUID(str(u))] is [u]: the textual form of an identifier parses back to
    the same 128-bit integer. *)
Lemma of_string_str (u : t) : valid u -> of_string (str u) = Some u.
Proof.
  intros Hu. unfold of_string, str, Str.chars, Str.of_chars.
  rewrite list_ascii_of_string_of_list_ascii.
  unfold of_chars, str_chars.
  set (h := hex_of 32 u).
  assert (Hlen : List.length h = 32%nat) by apply hex_of_length.
  assert (Hp : forallb plain h = true) by apply hex_of_plain.
  assert (H1 : firstn 8 h <> []).
  { intros E. apply (f_equal (@List.length _)) in E.
    rewrite length_firstn, Hlen in E. discriminate. }
  assert (H5 : skipn 20 h <> []).
  { intros E. apply (f_equal (@List.length _)) in E.
    rewrite length_skipn, Hlen in E. discriminate. }
  destruct (firstn 8 h) as [|c1 h1] eqn:E1; [congruence|].
  destruct (split_last _ H5) as (h5 & c5 & E5).
  assert (Hjoin : (c1 :: h1) ++ firstn 4 (skipn 8 h) ++ firstn 4 (skipn 12 h)
                  ++ firstn 4 (skipn 16 h) ++ h5 ++ [c5] = h).
  { rewrite <- E1, <- E5.
    assert (St : forall k j, firstn k (skipn j h) ++ skipn (k + j) h = skipn j h).
    { intros k j. rewrite <- skipn_skipn. apply firstn_skipn. }
    change (skipn 20 h) with (skipn (4 + 16) h). rewrite (St 4 16)%nat.
    change (skipn 16 h) with (skipn (4 + 12) h). rewrite (St 4 12)%nat.
    change (skipn 12 h) with (skipn (4 + 8) h). rewrite (St 4 8)%nat.
    apply firstn_skipn. }
  rewrite E5.
  change (?a ++ dash :: ?b ++ dash :: ?c ++ dash :: ?d ++ dash :: h5 ++ [c5])
    with (a ++ dash :: b ++ dash :: c ++ dash :: d ++ dash :: h5 ++ [c5]).
  rewrite normalize_dashed.
  - rewrite Hjoin, Hlen. cbn [Nat.eqb]. unfold h.
    rewrite (int16_digits (hex_of 32 u) u).
    + assert (Hr : ((0 <=? Z.of_N u) && (Z.of_N u <? 2 ^ 128) = true)%Z).
      { unfold valid in Hu. apply andb_true_iff. split; [apply Z.leb_le; lia|].
        apply Z.ltb_lt. change (2 ^ 128)%Z with (Z.of_N (2 ^ 128)). lia. }
      rewrite Hr. now rewrite N2Z.id.
    + intros E. apply (f_equal (@List.length _)) in E.
      rewrite hex_of_length in E. discriminate.
    + apply hex_of_digits.
    + rewrite hex_value_hex_of. f_equal. apply N.mod_small. exact Hu.
  - rewrite <- E1. now apply forallb_firstn.
  - now apply forallb_firstn, forallb_skipn.
  - now apply forallb_firstn, forallb_skipn.
  - now apply forallb_firstn, forallb_skipn.
  - rewrite <- E5. now apply forallb_skipn.
Qed.

(** The canonical text is one of the forms pydantic reads, with the same
    result. *)
Lemma parse_str_str (u : t) : valid u -> parse_str (str u) = Some u.
Proof.
  intros Hu. unfold parse_str, str, Str.chars, Str.of_chars.
  rewrite list_ascii_of_string_of_list_ascii.
  unfold str_chars.
  pose proof (hex_of_length 32 u) as Hlen.
  pose proof (hex_value_hex_of 32 u) as Hval.
  remember (hex_of 32 u) as h eqn:Eh. clear Eh.
  do 32 (destruct h as [|? h]; [discriminate Hlen|]).
  destruct h; [|discriminate Hlen].
  unfold parse_chars, hyphenated.
  cbn [firstn skipn app List.length Nat.eqb nth andb].
  change (Ascii.eqb dash dash) with true. cbn [andb].
  rewrite Hval. f_equal. apply N.mod_small. exact Hu.
Qed.

Lemma const_high (c i : N) :
  (N.log2 c < 128)%N -> (128 <= i)%N -> N.testbit c i = false.
Proof. intros Hc Hi. apply N.bits_above_log2. lia. Qed.

Lemma uuid4_of_random_high (r i : N) :
  (128 <= i)%N -> N.testbit (uuid4_of_random r) i = false.
Proof.
  intros Hi. unfold uuid4_of_random.
  rewrite N.lor_spec, N.ldiff_spec, N.lor_spec, N.ldiff_spec.
  rewrite N.mod_pow2_bits_high by exact Hi.
  rewrite !const_high by (exact Hi || reflexivity). reflexivity.
Qed.

(** What [uuid.uuid4] makes is a 128-bit integer ... *)
Lemma uuid4_of_random_valid (r : N) : valid (uuid4_of_random r).
Proof.
  unfold valid.
  assert (E : (uuid4_of_random r mod 2 ^ 128 = uuid4_of_random r)%N).
  { apply N.bits_inj. intros i.
    destruct (N.lt_ge_cases i 128) as [Hi|Hi].
    - now rewrite N.mod_pow2_bits_low.
    - now rewrite N.mod_pow2_bits_high, uuid4_of_random_high. }
  rewrite <- E. apply N.mod_lt. discriminate.
Qed.

(** ... of the RFC 4122 variant ... *)
Lemma uuid4_variant (r : N) : (N.shiftr (uuid4_of_random r) 62 mod 4 = 2)%N.
Proof.
  apply N.bits_inj. intros i. change 4%N with (2 ^ 2)%N.
  destruct (N.lt_ge_cases i 2) as [Hi|Hi].
  - rewrite N.mod_pow2_bits_low, N.shiftr_spec' by exact Hi.
    assert (Hc : i = 0%N \/ i = 1%N) by lia.
    destruct Hc as [-> | ->]; cbn [N.add]; uuid4_bit.
  - rewrite N.mod_pow2_bits_high by exact Hi. symmetry. apply N.bits_above_log2.
    cbn. lia.
Qed.

(** ... and of version 4. *)
Lemma uuid4_version (r : N) : (N.shiftr (uuid4_of_random r) 76 mod 16 = 4)%N.
Proof.
  apply N.bits_inj. intros i. change 16%N with (2 ^ 4)%N.
  destruct (N.lt_ge_cases i 4) as [Hi|Hi].
  - rewrite N.mod_pow2_bits_low, N.shiftr_spec' by exact Hi.
    assert (Hc : i = 0%N \/ i = 1%N \/ i = 2%N \/ i = 3%N) by lia.
    destruct Hc as [-> | [-> | [-> | ->]]]; cbn [N.add]; uuid4_bit.
  - rewrite N.mod_pow2_bits_high by exact Hi. symmetry. apply N.bits_above_log2.
    cbn. lia.
Qed.

Lemma uuid4_of_random_is_uuid4 (r : N) : is_uuid4 (uuid4_of_random r) = true.
Proof.
  unfold is_uuid4, version, rfc_4122.
  now rewrite uuid4_variant, uuid4_version.
Qed.

End UuidFacts.

Section DictFacts.

Lemma dict_get_absent (k : string) (d : dict) :
  ~ In k (map fst d) -> dict_get k d = None.
Proof.
  induction d as [|[k' v] d IH]; intros H; [reflexivity|].
  simpl in *. destruct (String.eqb_spec k k') as [->|]; [tauto|].
  apply IH. tauto.
Qed.

Lemma dict_get_present (k : string) (v : value) (d : dict) :
  NoDup (map fst d) -> In (k, v) d -> dict_get k d = Some v.
Proof.
  induction d as [|[k' v'] d IH]; intros Hnd Hin; [contradiction|].
  simpl in *. inversion Hnd as [|? ? Hk Hd]; subst.
  destruct Hin as [E|Hin].
  - inversion E; subst. now rewrite String.eqb_refl.
  - destruct (String.eqb_spec k k') as [->|].
    + exfalso. apply Hk. apply (in_map fst) in Hin. exact Hin.
    + now apply IH.
Qed.

Lemma dict_set_absent (k : string) (v : value) (d : dict) :
  ~ In k (map fst d) -> dict_set k v d = d ++ [(k, v)].
Proof.
  induction d as [|[k' v'] d IH]; intros H; [reflexivity|].
  simpl in *. destruct (String.eqb_spec k k') as [->|]; [tauto|].
  f_equal. apply IH. tauto.
Qed.

Lemma dict_get_last (k : string) (v : value) (d : dict) :
  ~ In k (map fst d) -> dict_get k (d ++ [(k, v)]) = Some v.
Proof.
  induction d as [|[k' v'] d IH]; intros H; simpl in *.
  - now rewrite String.eqb_refl.
  - destruct (String.eqb_spec k k') as [->|]; [tauto|]. apply IH. tauto.
Qed.

Lemma dict_del_last (k : string) (v : value) (d : dict) :
  ~ In k (map fst d) -> dict_del k (d ++ [(k, v)]) = d.
Proof.
  induction d as [|[k' v'] d IH]; intros H; simpl in *.
  - now rewrite String.eqb_refl.
  - destruct (String.eqb_spec k k') as [->|]; [tauto|]. f_equal. apply IH. tauto.
Qed.

Lemma dict_get_set_other (k n : string) (v : value) (d : dict) :
  n <> k -> dict_get n (dict_set k v d) = dict_get n d.
Proof.
  intros Hn. induction d as [|[k' v'] d IH]; simpl.
  - destruct (String.eqb_spec n k); [contradiction|reflexivity].
  - destruct (String.eqb_spec k k') as [->|]; simpl.
    + destruct (String.eqb_spec n k'); [contradiction|reflexivity].
    + now rewrite IH.
Qed.

Lemma dict_get_set_same (k : string) (v : value) (d : dict) :
  dict_get k (dict_set k v d) = Some v.
Proof.
  induction d as [|[k' v'] d IH]; simpl.
  - now rewrite String.eqb_refl.
  - destruct (String.eqb_spec k k') as [->|Hne]; simpl.
    + now rewrite String.eqb_refl.
    + apply String.eqb_neq in Hne. now rewrite Hne.
Qed.

Lemma NoDup_snoc (keys : list string) (k : string) :
  NoDup keys -> ~ In k keys -> NoDup (keys ++ [k]).
Proof.
  induction keys as [|a keys IH]; intros Hnd Hk; simpl.
  - repeat constructor. intros [].
  - inversion Hnd as [|? ? Ha Hd]; subst. constructor.
    + intros Hin. apply in_app_or in Hin as [Hin|[<-|[]]]; [tauto|].
      apply Hk. now left.
    + apply IH; [exact Hd|]. intros Hin. apply Hk. now right.
Qed.

End DictFacts.

Section Serialization.

Import NoSQLBaseDocument.

Lemma field_keys (fs : list (string * ftype)) (vals : dict) :
  Forall2 (fun ft kv => fst ft = fst kv /\ has_type (snd ft) (snd kv)) fs vals ->
  map fst vals = map fst fs.
Proof.
  induction 1 as [|ft kv fs vals [Hk _] _ IH]; [reflexivity|].
  simpl. now rewrite IH, Hk.
Qed.

Lemma stringify_keys (d : dict) : map fst (map stringify_uuid d) = map fst d.
Proof.
  induction d as [|[k v] d IH]; [reflexivity|].
  simpl. rewrite IH. f_equal. unfold stringify_uuid. simpl. now destruct v.
Qed.

(** With the default flags a valid instance is dumped as its fields, UUIDs
    as text, followed by the primary key. *)
Lemma to_mongo_default (d : document) :
  valid_document d ->
  to_mongo false d
  = map stringify_uuid (d_fields d) ++ [("_id", VStr (Uuid.str (d_id d)))].
Proof.
  intros ((_ & _ & Hno) & _ & _ & Hf).
  pose proof (field_keys _ _ Hf) as Hkeys.
  unfold to_mongo, model_dump, dict_mem, dict_pop.
  cbn [dict_get String.eqb Ascii.eqb Bool.eqb fst dict_del].
  rewrite dict_get_absent by now rewrite Hkeys.
  cbn [negb andb].
  rewrite dict_set_absent by now rewrite Hkeys.
  now rewrite map_app.
Qed.

(** What a [UUID4] or other field gives back after [to_mongo] turned its
    value into text. *)
Lemma validate_stringified (t : ftype) (k : string) (v : value) :
  has_type t v -> validate t (snd (stringify_uuid (k, v))) = Some v.
Proof.
  unfold stringify_uuid.
  destruct t, v; cbn [has_type validate snd fst]; try contradiction; try reflexivity.
  intros [Hv H4]. now rewrite (parse_str_str _ Hv), H4.
Qed.

Lemma dict_get_stringified (k : string) (v : value) (d : dict) :
  NoDup (map fst d) -> In (k, v) d ->
  dict_get k (map stringify_uuid d) = Some (snd (stringify_uuid (k, v))).
Proof.
  intros Hnd Hin. apply dict_get_present.
  - now rewrite stringify_keys.
  - apply (in_map stringify_uuid) in Hin.
    replace (k, snd (stringify_uuid (k, v))) with (stringify_uuid (k, v)); [exact Hin|].
    unfold stringify_uuid. simpl. now destruct v.
Qed.

Lemma validate_fields_back (fs : list (string * ftype)) (vals kwargs : dict) :
  Forall2 (fun ft kv => fst ft = fst kv /\ has_type (snd ft) (snd kv)) fs vals ->
  (forall k v, In (k, v) vals -> dict_get k kwargs = Some (snd (stringify_uuid (k, v)))) ->
  validate_fields fs kwargs = Some vals.
Proof.
  induction 1 as [|[n t] [k v] fs vals [Hk Ht] _ IH]; intros Hget; [reflexivity|].
  simpl in Hk, Ht. subst k. cbn [validate_fields].
  rewrite (Hget n v) by now left.
  rewrite IH by (intros; apply Hget; now right).
  now rewrite validate_stringified.
Qed.

Lemma construct_given (c : cls) (kwargs fs : dict) (u : Uuid.t) (w : world) :
  dict_get "id" kwargs = Some (VUuid u) ->
  Uuid.is_uuid4 u = true ->
  validate_fields (c_fields c) kwargs = Some fs ->
  construct c kwargs w
  = (Ok (mkDoc c u fs (filter (fun n => dict_mem n kwargs) (field_names c))), w).
Proof.
  intros Hid H4 Hfs. unfold construct, bind. rewrite Hid. cbn [validate].
  rewrite H4. cbn [ret]. now rewrite Hfs.
Qed.

Lemma from_mongo_keyed (c : cls) (data rest : dict) (v : value) :
  dict_pop "_id" data = Some (v, rest) ->
  from_mongo c data
  = (id <- lift (uuid_of_value v) ;; construct c (dict_set "id" (VUuid id) rest))%py.
Proof.
  intros H. unfold from_mongo. destruct data; [discriminate|]. now rewrite H.
Qed.

(** The whole trip on a valid instance. *)
Lemma from_mongo_to_mongo (d : document) (w : world) :
  valid_document d ->
  exists names,
    from_mongo (d_cls d) (to_mongo false d) w
    = (Ok (mkDoc (d_cls d) (d_id d) (d_fields d) names), w).
Proof.
  intros Hd. pose proof Hd as ((Hnd & Hnoid & Hno) & Hv & H4 & Hf).
  pose proof (field_keys _ _ Hf) as Hkeys.
  rewrite (to_mongo_default d Hd).
  set (s := Uuid.str (d_id d)). set (body := map stringify_uuid (d_fields d)).
  assert (Hbody : ~ In "_id" (map fst body)).
  { unfold body. now rewrite stringify_keys, Hkeys. }
  rewrite (from_mongo_keyed _ _ body (VStr s)).
  2:{ unfold dict_pop. now rewrite dict_get_last, dict_del_last. }
  unfold bind, lift, uuid_of_value, s. rewrite (of_string_str _ Hv).
  eexists. apply construct_given.
  - apply dict_get_set_same.
  - exact H4.
  - apply validate_fields_back; [exact Hf|].
    intros k v Hin.
    assert (Hk : k <> "id").
    { intros ->. apply Hnoid. rewrite <- Hkeys. now apply (in_map fst) in Hin. }
    rewrite dict_get_set_other by exact Hk.
    apply dict_get_stringified; [now rewrite Hkeys|exact Hin].
Qed.

End Serialization.

Section Identity.

Import NoSQLBaseDocument.

Lemma isinstance_own_class (d : document) : isinstance d (d_cls d) = true.
Proof. unfold isinstance, issubclass. simpl. now rewrite N.eqb_refl. Qed.

Lemma issubclass_same (a b : cls) : c_id a = c_id b -> issubclass a b = true.
Proof. intros E. unfold issubclass. simpl. now rewrite E, N.eqb_refl. Qed.

(** Between documents of one class [==] is [__eq__] and compares the ids. *)
Lemma equals_same_class (a b : document) :
  c_id (d_cls a) = c_id (d_cls b) ->
  equals a b = N.eqb (d_id a) (d_id b) /\ eq a b = N.eqb (d_id a) (d_id b).
Proof.
  intros E. unfold equals, eq, isinstance.
  rewrite E, N.eqb_refl, (issubclass_same (d_cls b) (d_cls a)) by now symmetry.
  split; reflexivity.
Qed.

(** Between documents of different classes [==] answers false. *)
Lemma equals_other_class (a b : document) :
  acyclic (d_cls a) (d_cls b) ->
  c_id (d_cls a) <> c_id (d_cls b) -> equals a b = false.
Proof.
  intros Hac Hne. unfold equals, eq, isinstance.
  apply N.eqb_neq in Hne as Hneb. rewrite Hneb. cbn [negb andb].
  destruct (issubclass (d_cls b) (d_cls a)) eqn:Hba; [|reflexivity].
  destruct (issubclass (d_cls a) (d_cls b)) eqn:Hab; [|reflexivity].
  exfalso. apply N.eqb_neq in Hneb. now apply Hneb, Hac.
Qed.

(** C2: [a == b] holds exactly when the two documents are of the same class
    and have the same id, and [a == b] and [b == a] always agree, also
    between a class and a class derived from it.  Between two instances of
    one class [__eq__] itself compares the ids, so equal ids compare equal;
    and documents with different ids compare unequal, whatever their
    classes.  The hypothesis is what every class hierarchy satisfies: two
    classes do not derive from each other. *)
Theorem eq_characterization (a b : document) :
  acyclic (d_cls a) (d_cls b) ->
  (equals a b = true <-> c_id (d_cls a) = c_id (d_cls b) /\ d_id a = d_id b) /\
  equals a b = equals b a /\
  (c_id (d_cls a) = c_id (d_cls b) ->
   (eq a b = true <-> d_id a = d_id b) /\ eq a b = eq b a) /\
  (d_id a <> d_id b -> equals a b = false /\ eq a b = false).
Proof.
  intros Hac.
  assert (Hca : acyclic (d_cls b) (d_cls a)).
  { intros H1 H2. symmetry. now apply Hac. }
  destruct (N.eq_dec (c_id (d_cls a)) (c_id (d_cls b))) as [E|Hne].
  - destruct (equals_same_class a b E) as [Hab Heq].
    destruct (equals_same_class b a (eq_sym E)) as [Hba Hqe].
    repeat split.
    + exact E.
    + rewrite Hab in H. now apply N.eqb_eq.
    + intros [_ Hid]. rewrite Hab. now apply N.eqb_eq.
    + rewrite Hab, Hba. apply N.eqb_sym.
    + rewrite Heq. apply N.eqb_eq.
    + rewrite Heq. apply N.eqb_eq.
    + rewrite Heq, Hqe. apply N.eqb_sym.
    + rewrite Hab. now apply N.eqb_neq.
    + rewrite Heq. now apply N.eqb_neq.
  - pose proof (equals_other_class a b Hac Hne) as Hab.
    pose proof (equals_other_class b a Hca (fun E => Hne (eq_sym E))) as Hba.
    repeat split.
    + rewrite Hab in H. discriminate.
    + rewrite Hab in H. discriminate.
    + intros [E _]. contradiction.
    + now rewrite Hab, Hba.
    + contradiction.
    + contradiction.
    + contradiction.
    + exact Hab.
    + unfold eq. destruct (negb (isinstance b (d_cls a))); [reflexivity|].
      now apply N.eqb_neq.
Qed.

(** A document of [ExampleDocument] and one of the class derived from it,
    with one id: unequal both ways.  (Calling the method by hand,
    [a.__eq__(b)], answers true here; the operator asks [b] first.) *)
Lemma eq_characterization_witness :
  let a := mkDoc Documents.ExampleDocument Documents.id_a [("name", VStr "x")] ["name"] in
  let b := mkDoc Documents.SpecialExample Documents.id_a [("name", VStr "x")] ["name"] in
  acyclic (d_cls a) (d_cls b) /\
  equals a b = false /\ equals b a = false /\ eq a b = true /\
  (equals a b = true <-> c_id (d_cls a) = c_id (d_cls b) /\ d_id a = d_id b).
Proof.
  cbv zeta.
  assert (Hac : acyclic Documents.ExampleDocument Documents.SpecialExample).
  { intros H _. discriminate H. }
  split; [exact Hac|].
  split; [reflexivity|]. split; [reflexivity|]. split; [reflexivity|].
  exact (proj1 (eq_characterization
                  (mkDoc Documents.ExampleDocument Documents.id_a [("name", VStr "x")] ["name"])
                  (mkDoc Documents.SpecialExample Documents.id_a [("name", VStr "x")] ["name"])
                  Hac)).
Defined.

(** Two classes of one name are two classes: documents of the two
    [ExampleDocument] classes of the tests are unequal even with one id. *)
Lemma equals_same_name_other_class :
  let a := mkDoc Documents.ExampleDocument Documents.id_a [("name", VStr "x")] ["name"] in
  let b := mkDoc Documents.ExampleDocument_checks Documents.id_a
                 [("name", VStr "x"); ("document", VStr "y")] ["name"; "document"] in
  c_name (d_cls a) = c_name (d_cls b) /\
  equals a b = false /\ equals b a = false /\ eq a b = false /\ eq b a = false.
Proof. cbv zeta. repeat split. Qed.

End Identity.

Section RoundTrip.

Import NoSQLBaseDocument.

(** C1: for a valid instance, [to_mongo] files the id under ["_id"] as its
    text and leaves no ["id"] key, that text parses back to the id, and
    [from_mongo] of the result rebuilds, without touching the world, a
    document of the same class with the same id and the same value in every
    field. *)
Theorem from_mongo_to_mongo_roundtrip (d : document) (w : world) :
  valid_document d ->
  dict_get "_id" (to_mongo false d) = Some (VStr (Uuid.str (d_id d))) /\
  dict_get "id" (to_mongo false d) = None /\
  Uuid.of_string (Uuid.str (d_id d)) = Some (d_id d) /\
  exists d',
    from_mongo (d_cls d) (to_mongo false d) w = (Ok d', w) /\
    d_cls d' = d_cls d /\ d_id d' = d_id d /\ d_fields d' = d_fields d.
Proof.
  intros Hd. pose proof Hd as ((Hnd & Hnoid & Hno) & Hv & H4 & Hf).
  pose proof (field_keys _ _ Hf) as Hkeys.
  repeat split.
  - rewrite (to_mongo_default d Hd). apply dict_get_last.
    now rewrite stringify_keys, Hkeys.
  - rewrite (to_mongo_default d Hd). apply dict_get_absent.
    rewrite map_app, stringify_keys, Hkeys. simpl. intros Hin.
    apply in_app_or in Hin as [Hin|[Hin|[]]]; [tauto|discriminate].
  - now apply of_string_str.
  - destruct (from_mongo_to_mongo d w Hd) as [names E].
    eexists. split; [exact E|]. now simpl.
Qed.

End RoundTrip.

Section SampleFacts.

Lemma sample_article_valid : valid_document Documents.sample_article.
Proof.
  unfold valid_document, well_formed. cbn [d_cls d_id d_fields Documents.sample_article
    Documents.ArticleDocument c_fields Documents.article_fields map fst].
  repeat split.
  - repeat constructor; simpl; intuition discriminate.
  - simpl; intuition discriminate.
  - simpl; intuition discriminate.
  - repeat constructor; cbn [fst snd has_type]; try reflexivity.
Qed.

End SampleFacts.

Section RoundTripWitness.

Import NoSQLBaseDocument.

Lemma from_mongo_to_mongo_roundtrip_witness :
  valid_document Documents.sample_article /\
  (dict_get "_id" (to_mongo false Documents.sample_article)
     = Some (VStr (Uuid.str (d_id Documents.sample_article))) /\
   dict_get "id" (to_mongo false Documents.sample_article) = None /\
   Uuid.of_string (Uuid.str (d_id Documents.sample_article))
     = Some (d_id Documents.sample_article) /\
   exists d',
     from_mongo (d_cls Documents.sample_article)
                (to_mongo false Documents.sample_article) Documents.quiet
     = (Ok d', Documents.quiet) /\
     d_cls d' = d_cls Documents.sample_article /\
     d_id d' = d_id Documents.sample_article /\
     d_fields d' = d_fields Documents.sample_article).
Proof.
  split; [exact sample_article_valid|].
  apply (from_mongo_to_mongo_roundtrip Documents.sample_article Documents.quiet).
  exact sample_article_valid.
Defined.

End RoundTripWitness.

Section TopLevel.

Import NoSQLBaseDocument.

Lemma stringify_uuid_plain (kv : string * value) (u : Uuid.t) :
  snd (stringify_uuid kv) <> VUuid u.
Proof.
  unfold stringify_uuid. destruct kv as [k v]. cbn [snd fst].
  destruct v; cbn [snd]; discriminate.
Qed.

(** A field of a valid instance comes out under its own name: a UUID as
    its text, anything else as it is. *)
Lemma dict_get_to_mongo_field (d : document) (k : string) (v : value) :
  valid_document d -> In (k, v) (d_fields d) ->
  dict_get k (to_mongo false d) = Some (snd (stringify_uuid (k, v))).
Proof.
  intros Hd Hin. pose proof Hd as ((Hnd & Hnoid & Hno) & Hv & H4 & Hf).
  pose proof (field_keys _ _ Hf) as Hkeys.
  rewrite (to_mongo_default d Hd). apply dict_get_present.
  - rewrite map_app, stringify_keys, Hkeys. cbn [map fst]. now apply NoDup_snoc.
  - apply in_or_app. left. apply (in_map stringify_uuid) in Hin.
    replace (k, snd (stringify_uuid (k, v))) with (stringify_uuid (k, v)); [exact Hin|].
    unfold stringify_uuid. simpl. now destruct v.
Qed.

(** A UUID held by a field of a valid instance is a 128-bit integer. *)
Lemma field_uuid_valid (d : document) (k : string) (u : Uuid.t) :
  valid_document d -> In (k, VUuid u) (d_fields d) -> Uuid.valid u.
Proof.
  intros (_ & _ & _ & Hf). revert Hf.
  generalize (c_fields (d_cls d)) as fs, (d_fields d) as vals.
  intros fs vals. revert fs. induction vals as [|kv vals IH]; intros fs Hf Hin.
  - contradiction.
  - inversion Hf as [|ft ? fs' ? [_ Ht] Hrest]; subst.
    destruct Hin as [->|Hin]; [|exact (IH _ Hrest Hin)].
    cbn [snd] in Ht. destruct (snd ft); cbn [has_type] in Ht; try contradiction.
    exact (proj1 Ht).
Qed.

(** C5 (as amended): whatever the flags, no entry of the mapping [to_mongo]
    returns has a UUID object as its value.  For a valid instance and the
    default flags the keys are the declared field names followed by
    ["_id"]; ["_id"] holds the canonical text of the id and there is no
    ["id"] entry; a field that holds a UUID comes out as the canonical text
    of that UUID, which [uuid.UUID] reads back to the same identifier; and
    every other field comes out with the value it has, so what is nested
    inside a mapping-valued field is passed on as it is. *)
Theorem to_mongo_top_level (exclude_unset : bool) (d : document) :
  (forall k v, In (k, v) (to_mongo exclude_unset d) -> forall u, v <> VUuid u) /\
  (valid_document d ->
   map fst (to_mongo false d) = map fst (d_fields d) ++ ["_id"] /\
   dict_get "_id" (to_mongo false d) = Some (VStr (Uuid.str (d_id d))) /\
   Uuid.of_string (Uuid.str (d_id d)) = Some (d_id d) /\
   dict_get "id" (to_mongo false d) = None /\
   (forall k u, In (k, VUuid u) (d_fields d) ->
      dict_get k (to_mongo false d) = Some (VStr (Uuid.str u)) /\
      Uuid.of_string (Uuid.str u) = Some u) /\
   (forall k v, In (k, v) (d_fields d) -> (forall u, v <> VUuid u) ->
      dict_get k (to_mongo false d) = Some v) /\
   (forall k m, In (k, VDict m) (d_fields d) ->
      dict_get k (to_mongo false d) = Some (VDict m))).
Proof.
  split.
  - intros k v Hin u. unfold to_mongo in Hin. apply in_map_iff in Hin as (kv & E & _).
    pose proof (stringify_uuid_plain kv u) as Hp. rewrite E in Hp. exact Hp.
  - intros Hd. pose proof Hd as ((Hnd & Hnoid & Hno) & Hv & H4 & Hf).
    pose proof (field_keys _ _ Hf) as Hkeys.
    split; [|split; [|split; [|split; [|split; [|split]]]]].
    + rewrite (to_mongo_default d Hd), map_app, stringify_keys. reflexivity.
    + rewrite (to_mongo_default d Hd). apply dict_get_last.
      now rewrite stringify_keys, Hkeys.
    + now apply of_string_str.
    + rewrite (to_mongo_default d Hd). apply dict_get_absent.
      rewrite map_app, stringify_keys, Hkeys. simpl. intros Hin.
      apply in_app_or in Hin as [Hin|[Hin|[]]]; [tauto|discriminate].
    + intros k u Hin. split.
      * exact (dict_get_to_mongo_field d k (VUuid u) Hd Hin).
      * apply of_string_str. exact (field_uuid_valid d k u Hd Hin).
    + intros k v Hin Hplain. rewrite (dict_get_to_mongo_field d k v Hd Hin).
      unfold stringify_uuid. cbn [snd fst].
      destruct v; try reflexivity. now contradiction (Hplain u).
    + intros k m Hin. exact (dict_get_to_mongo_field d k (VDict m) Hd Hin).
Qed.

(** On [sample_article]: the author's id comes out as its text, the
    [content] mapping as it is. *)
Lemma to_mongo_top_level_witness :
  valid_document Documents.sample_article /\
  (forall k v, In (k, v) (to_mongo false Documents.sample_article) ->
               forall u, v <> VUuid u) /\
  dict_get "_id" (to_mongo false Documents.sample_article)
  = Some (VStr (Uuid.str Documents.id_a)) /\
  dict_get "id" (to_mongo false Documents.sample_article) = None /\
  dict_get "author_id" (to_mongo false Documents.sample_article)
  = Some (VStr (Uuid.str Documents.id_b)) /\
  dict_get "content" (to_mongo false Documents.sample_article)
  = Some (VDict [("Title", VStr "T"); ("ref", VUuid Documents.id_b)]).
Proof.
  split; [exact sample_article_valid|].
  destruct (to_mongo_top_level false Documents.sample_article) as [H1 H2].
  destruct (H2 sample_article_valid) as (_ & Hid & _ & Hno & Hu & _ & Hm).
  split; [exact H1|]. split; [exact Hid|]. split; [exact Hno|]. split.
  - apply (Hu "author_id" Documents.id_b). simpl. tauto.
  - apply (Hm "content"). simpl. tauto.
Defined.

(** C5 (as stated) fails: the [content] of this valid article holds a UUID
    under ["ref"], and the mapping [to_mongo] returns still holds it. *)
Lemma to_mongo_keeps_nested_uuid :
  valid_document Documents.sample_article /\
  existsb (fun kv => holds_uuid (snd kv)) (to_mongo false Documents.sample_article) = true /\
  dict_get "content" (to_mongo false Documents.sample_article)
  = Some (VDict [("Title", VStr "T"); ("ref", VUuid Documents.id_b)]).
Proof.
  split; [exact sample_article_valid|]. split; reflexivity.
Qed.

End TopLevel.

Section Control.

Lemma bind_ok {A B} (m : M A) (k : A -> M B) (w w' : world) (a : A) :
  m w = (Ok a, w') -> bind m k w = k a w'.
Proof. intros H. unfold bind. now rewrite H. Qed.

Lemma bind_raise {A B} (m : M A) (k : A -> M B) (w w' : world) (e : exn) :
  m w = (Raise e, w') -> bind m k w = (Raise e, w').
Proof. intros H. unfold bind. now rewrite H. Qed.

Lemma try_except_ok {A} (m : M A) (cs : list exn) (h : exn -> M A) (w w' : world) (a : A) :
  m w = (Ok a, w') -> try_except m cs h w = (Ok a, w').
Proof. intros H. unfold try_except. now rewrite H. Qed.

Lemma try_except_caught {A} (m : M A) (cs : list exn) (h : exn -> M A)
  (w w' : world) (e : exn) :
  m w = (Raise e, w') -> existsb (fun c => catches c e) cs = true ->
  try_except m cs h w = h e w'.
Proof. intros H Hc. unfold try_except. now rewrite H, Hc. Qed.

Lemma try_except_passed {A} (m : M A) (cs : list exn) (h : exn -> M A)
  (w w' : world) (e : exn) :
  m w = (Raise e, w') -> existsb (fun c => catches c e) cs = false ->
  try_except m cs h w = (Raise e, w').
Proof. intros H Hc. unfold try_except. now rewrite H, Hc. Qed.

(** [except c: raise] lets every exception through as it came. *)
Lemma try_except_reraise {A} (m : M A) (cs : list exn) (w : world) :
  try_except m cs (fun e => raise e) w = m w.
Proof.
  unfold try_except, raise. destruct (m w) as [[a|e] w']; [reflexivity|].
  now destruct (existsb _ cs).
Qed.

End Control.

Section GetOrCreate.

Import NoSQLBaseDocument.

(** When the lookup finds nothing and the insert of the new instance raises a
    write error, [save] answers [None] and so does [get_or_create]. *)
Lemma get_or_create_none (c : cls) (filter_options : dict) (name : string)
  (w w1 w2 w3 : world) (new_instance : document) (e : exn) :
  c_collection c = Some name ->
  Mongo.find_one name filter_options w = (Ok None, w1) ->
  construct c filter_options w1 = (Ok new_instance, w2) ->
  d_cls new_instance = c ->
  Mongo.insert_one name (to_mongo false new_instance) w2 = (Raise e, w3) ->
  catches WriteError e = true ->
  save false new_instance w2 = (Ok None, w3) /\
  get_or_create c filter_options w = (Ok None, w3).
Proof.
  intros Hc Hfind Hnew Hcls Hins He.
  assert (Hsave : save false new_instance w2 = (Ok None, w3)).
  { unfold save, get_collection_name. rewrite Hcls, Hc.
    rewrite (bind_ok _ _ w2 w2 name) by reflexivity.
    rewrite (try_except_caught _ _ _ w2 w3 e).
    - reflexivity.
    - now rewrite (bind_raise _ _ _ _ _ Hins).
    - cbn [existsb]. now rewrite He. }
  split; [exact Hsave|].
  unfold get_or_create, get_collection_name. rewrite Hc.
  rewrite (bind_ok _ _ w w name) by reflexivity.
  rewrite try_except_reraise, (bind_ok _ _ _ _ _ Hfind), (bind_ok _ _ _ _ _ Hnew).
  exact Hsave.
Qed.

End GetOrCreate.

Section GetOrCreateNone.

Import NoSQLBaseDocument.

(** C9: there is a run of [get_or_create] that returns [None].  In the world
    [failing_write] the collection is empty, so the lookup matches nothing;
    an [ExampleDocument] is built from the filter; the insert raises
    [WriteError]; [save] swallows it and answers [None]; and [None] is what
    [get_or_create] hands to its caller. *)
Theorem get_or_create_may_return_none :
  exists (c : cls) (filter_options : dict) (name : string)
         (w w1 w2 w3 : world) (new_instance : document),
    c_collection c = Some name /\
    Mongo.find_one name filter_options w = (Ok None, w1) /\
    construct c filter_options w1 = (Ok new_instance, w2) /\
    Mongo.insert_one name (to_mongo false new_instance) w2 = (Raise WriteError, w3) /\
    save false new_instance w2 = (Ok None, w3) /\
    get_or_create c filter_options w = (Ok None, w3).
Proof.
  pose (w1 := set_store Documents.failing_write (mkStore [] [Some WriteError] 0)).
  pose (w2 := set_drawn w1 1).
  pose (w3 := set_store w2 (mkStore [] [] 0)).
  exists Documents.ExampleDocument, [("name", VStr "Test Entry")], "test_collection",
         Documents.failing_write, w1, w2, w3,
         (mkDoc Documents.ExampleDocument (Uuid.uuid4_of_random 0)
                [("name", VStr "Test Entry")] ["name"]).
  assert (Hfind : Mongo.find_one "test_collection" [("name", VStr "Test Entry")]
                    Documents.failing_write = (Ok None, w1)) by reflexivity.
  assert (Hnew : construct Documents.ExampleDocument [("name", VStr "Test Entry")] w1
                 = (Ok (mkDoc Documents.ExampleDocument (Uuid.uuid4_of_random 0)
                              [("name", VStr "Test Entry")] ["name"]), w2))
    by reflexivity.
  assert (Hins : Mongo.insert_one "test_collection"
                   (to_mongo false
                      (mkDoc Documents.ExampleDocument (Uuid.uuid4_of_random 0)
                             [("name", VStr "Test Entry")] ["name"])) w2
                 = (Raise WriteError, w3)) by reflexivity.
  destruct (get_or_create_none Documents.ExampleDocument [("name", VStr "Test Entry")]
              "test_collection" Documents.failing_write w1 w2 w3 _ WriteError
              eq_refl Hfind Hnew eq_refl Hins eq_refl) as [Hsave Hgoc].
  repeat split; assumption.
Qed.

End GetOrCreateNone.

Section BulkFind.

Import NoSQLBaseDocument.

(** When the store refuses the query with an operation failure, [bulk_find]
    answers the empty list. *)
Lemma bulk_find_store_failure (c : cls) (filter_options : dict) (name : string)
  (w w' : world) (e : exn) :
  c_collection c = Some name ->
  Mongo.find name filter_options w = (Raise e, w') ->
  catches OperationFailure e = true ->
  bulk_find c filter_options w = (Ok [], w').
Proof.
  intros Hc Hfind He. unfold bulk_find, get_collection_name. rewrite Hc.
  rewrite (bind_ok _ _ w w name) by reflexivity.
  rewrite (try_except_caught _ _ _ w w' e).
  - reflexivity.
  - now rewrite (bind_raise _ _ _ _ _ Hfind).
  - cbn [existsb]. now rewrite He.
Qed.

(** When every matching record can be read, [bulk_find] returns the
    documents of all of them. *)
Lemma bulk_find_all (c : cls) (filter_options : dict) (name : string)
  (w w1 w2 : world) (instances : list dict) (documents : list document) :
  c_collection c = Some name ->
  Mongo.find name filter_options w = (Ok instances, w1) ->
  from_mongo_each c instances w1 = (Ok documents, w2) ->
  bulk_find c filter_options w = (Ok documents, w2).
Proof.
  intros Hc Hfind Hall. unfold bulk_find, get_collection_name. rewrite Hc.
  rewrite (bind_ok _ _ w w name) by reflexivity.
  apply try_except_ok. now rewrite (bind_ok _ _ _ _ _ Hfind).
Qed.

(** A record that [from_mongo] cannot read is not left out: the exception
    leaves [bulk_find] unless it is an operation failure. *)
Lemma bulk_find_unreadable (c : cls) (filter_options : dict) (name : string)
  (w w1 w2 : world) (instances : list dict) (e : exn) :
  c_collection c = Some name ->
  Mongo.find name filter_options w = (Ok instances, w1) ->
  from_mongo_each c instances w1 = (Raise e, w2) ->
  catches OperationFailure e = false ->
  bulk_find c filter_options w = (Raise e, w2).
Proof.
  intros Hc Hfind Hbad He. unfold bulk_find, get_collection_name. rewrite Hc.
  rewrite (bind_ok _ _ w w name) by reflexivity.
  apply try_except_passed.
  - now rewrite (bind_ok _ _ _ _ _ Hfind).
  - cbn [existsb]. now rewrite He.
Qed.

(** C3 (the code at the failing input): the collection holds two records
    matching the filter; the first was written by [save], the second has an
    [ObjectId] as its primary key.  [bulk_find] does not return the one
    readable document: the [AttributeError] of [uuid.UUID] leaves it. *)
Theorem bulk_find_raises_on_unreadable_record :
  Mongo.find "test_collection" [("name", VStr "Entry 0")] Documents.mixed
  = (Ok Documents.mixed_records, Documents.mixed) /\
  (exists d, from_mongo Documents.ExampleDocument
               [("_id", VStr (Uuid.str Documents.id_a)); ("name", VStr "Entry 0")]
               Documents.mixed = (Ok d, Documents.mixed)) /\
  from_mongo Documents.ExampleDocument
    [("_id", VObjectId 1); ("name", VStr "Entry 0")] Documents.mixed
  = (Raise AttributeError, Documents.mixed) /\
  bulk_find Documents.ExampleDocument [("name", VStr "Entry 0")] Documents.mixed
  = (Raise AttributeError, Documents.mixed).
Proof.
  assert (Hfind : Mongo.find "test_collection" [("name", VStr "Entry 0")] Documents.mixed
                  = (Ok Documents.mixed_records, Documents.mixed)) by reflexivity.
  split; [exact Hfind|]. split; [|split].
  - eexists. vm_compute. reflexivity.
  - reflexivity.
  - apply (bulk_find_unreadable Documents.ExampleDocument _ "test_collection"
             _ _ Documents.mixed _ AttributeError eq_refl Hfind); [|reflexivity].
    vm_compute. reflexivity.
Qed.

End BulkFind.

Section Frame.

Context {T : Type} (f : world -> T).

Lemma keeps_ret {A} (a : A) : keeps f (ret a).
Proof. intros w. reflexivity. Qed.

Lemma keeps_raise {A} (e : exn) : keeps f (@raise A e).
Proof. intros w. reflexivity. Qed.

Lemma keeps_lift {A} (r : outcome A) : keeps f (lift r).
Proof. intros w. reflexivity. Qed.

Lemma keeps_bind {A B} (m : M A) (k : A -> M B) :
  keeps f m -> (forall a, keeps f (k a)) -> keeps f (bind m k).
Proof.
  intros Hm Hk w. unfold bind. specialize (Hm w).
  destruct (m w) as [[a|e] w']; cbn [snd] in *; [|exact Hm].
  now rewrite Hk.
Qed.

Lemma keeps_try_except {A} (m : M A) (cs : list exn) (h : exn -> M A) :
  keeps f m -> (forall e, keeps f (h e)) -> keeps f (try_except m cs h).
Proof.
  intros Hm Hh w. unfold try_except. specialize (Hm w).
  destruct (m w) as [[a|e] w']; cbn [snd] in *; [exact Hm|].
  destruct (existsb _ cs); [|exact Hm]. now rewrite Hh.
Qed.

Lemma keeps_try_finally {A} (m : M A) (c : M unit) :
  keeps f m -> keeps f c -> keeps f (try_finally m c).
Proof.
  intros Hm Hc w. unfold try_finally. specialize (Hm w).
  destruct (m w) as [r w']. specialize (Hc w'). cbn [snd] in *.
  destruct (c w') as [[[]|e] w'']; cbn [snd] in *; congruence.
Qed.

End Frame.

Ltac keeps_step :=
  match goal with
  | |- keeps _ (bind _ _) => apply keeps_bind; [|intros ?]
  | |- keeps _ (try_except _ _ _) => apply keeps_try_except; [|intros ?]
  | |- keeps _ (try_finally _ _) => apply keeps_try_finally
  | |- keeps _ (ret _) => apply keeps_ret
  | |- keeps _ (raise _) => apply keeps_raise
  | |- keeps _ (lift _) => apply keeps_lift
  | |- keeps _ (match ?x with _ => _ end) => destruct x
  | |- keeps _ (if ?x then _ else _) => destruct x
  end.

Ltac keeps_prim :=
  let w := fresh "w" in
  intros w;
  repeat match goal with
         | |- context [match ?x with _ => _ end] => destruct x
         | |- context [if ?x then _ else _] => destruct x
         end;
  reflexivity.

Section StoreFrame.

Lemma keeps_proj {A T U} (f : world -> T) (g : world -> U) (p : T -> U) (m : M A) :
  (forall w, g w = p (f w)) -> keeps f m -> keeps g m.
Proof. intros Hp Hm w. now rewrite !Hp, Hm. Qed.

(** Reading the store and building documents changes neither the records
    nor the file system. *)

Lemma next_outcome_reads : keeps persisted Mongo.next_outcome.
Proof. unfold Mongo.next_outcome. keeps_prim. Qed.

Lemma find_one_reads (name : string) (q : dict) : keeps persisted (Mongo.find_one name q).
Proof.
  unfold Mongo.find_one. keeps_step; [apply next_outcome_reads|]. intros w. reflexivity.
Qed.

Lemma uuid4_reads : keeps persisted uuid4.
Proof. intros w. reflexivity. Qed.

Lemma construct_reads (c : cls) (kwargs : dict) : keeps persisted (construct c kwargs).
Proof.
  unfold construct. keeps_step.
  - repeat keeps_step. apply uuid4_reads.
  - repeat keeps_step.
Qed.

Lemma from_mongo_reads (c : cls) (data : dict) :
  keeps persisted (NoSQLBaseDocument.from_mongo c data).
Proof.
  unfold NoSQLBaseDocument.from_mongo. repeat keeps_step. apply construct_reads.
Qed.

Lemma get_collection_name_keeps {T} (f : world -> T) (c : cls) :
  keeps f (NoSQLBaseDocument.get_collection_name c).
Proof. unfold NoSQLBaseDocument.get_collection_name. repeat keeps_step. Qed.

Lemma find_reads (c : cls) (q : dict) : keeps persisted (NoSQLBaseDocument.find c q).
Proof.
  unfold NoSQLBaseDocument.find. keeps_step; [apply get_collection_name_keeps|].
  keeps_step; [|apply keeps_ret].
  keeps_step; [apply find_one_reads|].
  repeat keeps_step. apply from_mongo_reads.
Qed.

(** Writing to the store changes nothing outside it. *)

Lemma construct_outside (c : cls) (kwargs : dict) : keeps outside_store (construct c kwargs).
Proof.
  apply (keeps_proj persisted outside_store (fun x => (snd (fst x), snd x)));
    [reflexivity|apply construct_reads].
Qed.

Lemma find_outside (c : cls) (q : dict) : keeps outside_store (NoSQLBaseDocument.find c q).
Proof.
  apply (keeps_proj persisted outside_store (fun x => (snd (fst x), snd x)));
    [reflexivity|apply find_reads].
Qed.

Lemma insert_one_outside (name : string) (d : dict) :
  keeps outside_store (Mongo.insert_one name d).
Proof.
  unfold Mongo.insert_one. keeps_step.
  - unfold Mongo.next_outcome. keeps_prim.
  - unfold Mongo.store_record. keeps_prim.
Qed.

Lemma save_outside (eu : bool) (d : document) :
  keeps outside_store (NoSQLBaseDocument.save eu d).
Proof.
  unfold NoSQLBaseDocument.save. keeps_step; [apply get_collection_name_keeps|].
  keeps_step; [|apply keeps_ret].
  keeps_step; [apply insert_one_outside|apply keeps_ret].
Qed.

End StoreFrame.

Section FileSystem.

Lemma lookup_removed {A} (p : string) (dirs : list (string * A)) :
  Os.lookup p (filter (fun d => negb (String.eqb p (fst d))) dirs) = None.
Proof.
  induction dirs as [|[q a] dirs IH]; [reflexivity|].
  cbn [filter fst]. destruct (String.eqb p q) eqn:E; cbn [negb]; [exact IH|].
  cbn [Os.lookup]. now rewrite E.
Qed.

(** After [shutil.rmtree(p)] -- whether it removed the directory or found
    none -- there is no directory [p]. *)
Lemma rmtree_removes (p : string) (w : world) :
  Os.exists_dir p (w_fs (snd (Os.rmtree p w))) = false.
Proof.
  unfold Os.rmtree. destruct (Os.exists_dir p (w_fs w)) eqn:E; cbn [snd]; [|exact E].
  unfold Os.exists_dir. cbn [set_fs w_fs fs_dirs]. now rewrite lookup_removed.
Qed.

Lemma try_finally_rmtree {A} (m : M A) (p : string) (w : world) :
  Os.exists_dir p (w_fs (snd (try_finally m (Os.rmtree p) w))) = false.
Proof.
  unfold try_finally. destruct (m w) as [r w'].
  pose proof (rmtree_removes p w') as H.
  destruct (Os.rmtree p w') as [[[]|e] w'']; exact H.
Qed.

Lemma mkdtemp_creates (w w' : world) (p : string) :
  Os.mkdtemp w = (Ok p, w') -> Os.exists_dir p (w_fs w') = true.
Proof.
  unfold Os.mkdtemp. intros H. injection H as <- <-.
  unfold Os.exists_dir. cbn [set_fs w_fs fs_dirs Os.lookup].
  now rewrite String.eqb_refl.
Qed.

Lemma chdir_existing (p : string) (w : world) :
  Os.exists_dir p (w_fs w) = true ->
  Os.chdir p w = (Ok tt, set_fs w (mkFs (fs_dirs (w_fs w)) p (fs_made (w_fs w)))).
Proof. intros H. unfold Os.chdir. now rewrite H. Qed.

(** The calls that follow [os.chdir] leave the working directory alone. *)

Lemma git_clone_cwd (link name : string) : keeps cwd (Os.git_clone link name).
Proof. unfold Os.git_clone. keeps_prim. Qed.

Lemma listdir_cwd (p : string) : keeps cwd (Os.listdir p).
Proof. unfold Os.listdir. keeps_prim. Qed.

Lemma walk_path_cwd (p name : string) : keeps cwd (Os.walk_path p name).
Proof. unfold Os.walk_path. keeps_prim. Qed.

Lemma rmtree_cwd (p : string) : keeps cwd (Os.rmtree p).
Proof. unfold Os.rmtree. keeps_prim. Qed.

Lemma kwargs_user_keeps {T} (f : world -> T) (u : option user) : keeps f (kwargs_user u).
Proof. unfold kwargs_user. repeat keeps_step. Qed.

Lemma construct_cwd (c : cls) (kwargs : dict) : keeps cwd (construct c kwargs).
Proof.
  apply (keeps_proj outside_store cwd (fun x => fs_cwd (fst x)));
    [reflexivity|apply construct_outside].
Qed.

Lemma save_cwd (eu : bool) (d : document) : keeps cwd (NoSQLBaseDocument.save eu d).
Proof.
  apply (keeps_proj outside_store cwd (fun x => fs_cwd (fst x)));
    [reflexivity|apply save_outside].
Qed.

End FileSystem.

Section RepositoryCrawler.

Import GithubCrawler.

Lemma extract_after_check (model : cls) (ignore : list string) (link : string)
  (usr : option user) (w w1 w2 : world) (local_temp : string) :
  NoSQLBaseDocument.find model [("link", VStr link)] w = (Ok None, w1) ->
  Os.mkdtemp w1 = (Ok local_temp, w2) ->
  extract model ignore link usr w
  = try_finally (clone_and_save model ignore link (repo_name link) local_temp usr)
                (Os.rmtree local_temp) w2.
Proof.
  intros Hfind Htmp. unfold extract.
  rewrite (bind_ok _ _ _ _ _ Hfind). cbv beta iota zeta.
  now rewrite (bind_ok _ _ _ _ _ Htmp).
Qed.

(** Once in the temporary directory, the body of the [try] never leaves it. *)
Lemma clone_and_save_cwd (model : cls) (ignore : list string) (link repo : string)
  (usr : option user) (local_temp : string) (w : world) :
  Os.exists_dir local_temp (w_fs w) = true ->
  cwd (snd (clone_and_save model ignore link repo local_temp usr w)) = local_temp.
Proof.
  intros Hdir. unfold clone_and_save.
  rewrite (bind_ok _ _ _ _ _ (chdir_existing local_temp w Hdir)).
  match goal with |- cwd (snd (?m ?w')) = _ =>
    assert (Hk : keeps cwd m); [|rewrite (Hk w'); reflexivity] end.
  repeat first [ apply git_clone_cwd | apply listdir_cwd | apply walk_path_cwd
               | apply kwargs_user_keeps | apply construct_cwd | apply save_cwd
               | keeps_step ].
Qed.

(** C8: once the duplicate check has passed and the temporary directory has
    been made, [extract] is the [try] body followed by [shutil.rmtree], and
    in the world it leaves -- whatever the body returned or raised -- the
    temporary directory does not exist. *)
Theorem temp_dir_removed_on_every_exit (model : cls) (ignore : list string)
  (link : string) (usr : option user) (w w1 w2 : world) (local_temp : string) :
  NoSQLBaseDocument.find model [("link", VStr link)] w = (Ok None, w1) ->
  Os.mkdtemp w1 = (Ok local_temp, w2) ->
  Os.exists_dir local_temp (w_fs w2) = true /\
  extract model ignore link usr w
  = try_finally (clone_and_save model ignore link (repo_name link) local_temp usr)
                (Os.rmtree local_temp) w2 /\
  Os.exists_dir local_temp (w_fs (snd (extract model ignore link usr w))) = false.
Proof.
  intros Hfind Htmp. split; [exact (mkdtemp_creates _ _ _ Htmp)|].
  pose proof (extract_after_check model ignore link usr w w1 w2 local_temp Hfind Htmp) as E.
  split; [exact E|]. rewrite E. apply try_finally_rmtree.
Qed.

(** C10: once the duplicate check has passed, the world [extract] leaves has
    the temporary directory as the process working directory -- on every
    path, nothing sets it back -- and that directory no longer exists. *)
Theorem cwd_left_in_removed_dir (model : cls) (ignore : list string)
  (link : string) (usr : option user) (w w1 w2 : world) (local_temp : string) :
  NoSQLBaseDocument.find model [("link", VStr link)] w = (Ok None, w1) ->
  Os.mkdtemp w1 = (Ok local_temp, w2) ->
  cwd (snd (extract model ignore link usr w)) = local_temp /\
  Os.exists_dir local_temp (w_fs (snd (extract model ignore link usr w))) = false.
Proof.
  intros Hfind Htmp.
  rewrite (extract_after_check model ignore link usr w w1 w2 local_temp Hfind Htmp).
  split; [|apply try_finally_rmtree].
  assert (Hfin : forall A (m : M A) (w0 : world),
             cwd (snd (try_finally m (Os.rmtree local_temp) w0)) = cwd (snd (m w0))).
  { intros A m w0. unfold try_finally. destruct (m w0) as [r w'].
    pose proof (rmtree_cwd local_temp w') as H.
    destruct (Os.rmtree local_temp w') as [[[]|e] w'']; exact H. }
  rewrite Hfin. apply clone_and_save_cwd. exact (mkdtemp_creates _ _ _ Htmp).
Qed.

End RepositoryCrawler.

Section RepositoryCrawlerRuns.

Import GithubCrawler.

(** The three ways out of the [try], run on sample worlds: a clone that is
    read and saved, a clone that brings nothing, and a [git] that cannot be
    started.  Each ends in [/tmp/tmp0], which is gone. *)
Example extract_saves :
  let r := extract Documents.RepositoryDocument default_ignore Documents.engine_link
                   (Some Documents.ada) Documents.online in
  fst r = Ok tt /\
  option_map (dict_get "content")
    (hd_error (Mongo.records_of "repositories" (database (snd r))))
  = Some (Some (VDict [("README.md", VStr "helloworld");
                       ("src/main.py", VStr "print(1)");
                       ("src/sub/b.txt", VStr "bb")])) /\
  w_fs (snd r) = mkFs [("/app", [])] "/tmp/tmp0" 1.
Proof. cbv zeta. repeat split; vm_compute; reflexivity. Qed.

Example extract_empty_clone :
  let r := extract Documents.RepositoryDocument default_ignore "https://github.com/ada/none"
                   (Some Documents.ada) Documents.online in
  fst r = Ok tt /\ database (snd r) = [] /\
  w_fs (snd r) = mkFs [("/app", [])] "/tmp/tmp0" 1.
Proof. cbv zeta. repeat split; vm_compute; reflexivity. Qed.

Example extract_clone_raises :
  let r := extract Documents.RepositoryDocument default_ignore Documents.engine_link
                   (Some Documents.ada) Documents.no_git in
  fst r = Raise FileNotFoundError /\ database (snd r) = [] /\
  w_fs (snd r) = mkFs [("/app", [])] "/tmp/tmp0" 1.
Proof. cbv zeta. repeat split; vm_compute; reflexivity. Qed.

Lemma temp_dir_removed_on_every_exit_witness :
  NoSQLBaseDocument.find Documents.RepositoryDocument
    [("link", VStr Documents.engine_link)] Documents.online
  = (Ok None, Documents.online) /\
  Os.mkdtemp Documents.online = (Ok "/tmp/tmp0", Documents.online_tmp) /\
  Os.exists_dir "/tmp/tmp0" (w_fs Documents.online_tmp) = true /\
  Os.exists_dir "/tmp/tmp0"
    (w_fs (snd (extract Documents.RepositoryDocument default_ignore
                  Documents.engine_link (Some Documents.ada) Documents.online))) = false.
Proof.
  split; [reflexivity|]. split; [reflexivity|].
  destruct (temp_dir_removed_on_every_exit Documents.RepositoryDocument default_ignore
              Documents.engine_link (Some Documents.ada)
              Documents.online Documents.online Documents.online_tmp "/tmp/tmp0"
              eq_refl eq_refl) as (H1 & _ & H3).
  split; [exact H1|exact H3].
Defined.

Lemma cwd_left_in_removed_dir_witness :
  NoSQLBaseDocument.find Documents.RepositoryDocument
    [("link", VStr Documents.engine_link)] Documents.no_git
  = (Ok None, Documents.no_git) /\
  Os.mkdtemp Documents.no_git
  = (Ok "/tmp/tmp0",
     set_fs Documents.no_git (mkFs [("/tmp/tmp0", []); ("/app", [])] "/app" 1)) /\
  cwd Documents.no_git = "/app" /\
  cwd (snd (extract Documents.RepositoryDocument default_ignore
              Documents.engine_link (Some Documents.ada) Documents.no_git)) = "/tmp/tmp0" /\
  Os.exists_dir "/tmp/tmp0"
    (w_fs (snd (extract Documents.RepositoryDocument default_ignore
                  Documents.engine_link (Some Documents.ada) Documents.no_git))) = false.
Proof.
  split; [reflexivity|]. split; [reflexivity|]. split; [reflexivity|].
  exact (cwd_left_in_removed_dir Documents.RepositoryDocument default_ignore
           Documents.engine_link (Some Documents.ada)
           Documents.no_git Documents.no_git
           (set_fs Documents.no_git (mkFs [("/tmp/tmp0", []); ("/app", [])] "/app" 1))
           "/tmp/tmp0" eq_refl eq_refl).
Defined.

End RepositoryCrawlerRuns.

Section Deduplication.

Import NoSQLBaseDocument.

(** The duplicate check: when [find] with the link returns a record, [extract] --
    of the article crawler and of the repository crawler alike -- returns
    without raising in the very world [find] left, and that world has the
    records, the file system and the collaborators of the world before. *)
Lemma extract_found (model : cls) (ignore : list string) (link : string)
  (usr : option user) (w w1 : world) (old_model : document) :
  find model [("link", VStr link)] w = (Ok (Some old_model), w1) ->
  CustomArticleCrawler.extract model link usr w = (Ok tt, w1) /\
  GithubCrawler.extract model ignore link usr w = (Ok tt, w1) /\
  persisted w1 = persisted w.
Proof.
  intros Hfind. repeat split.
  - unfold CustomArticleCrawler.extract. now rewrite (bind_ok _ _ _ _ _ Hfind).
  - unfold GithubCrawler.extract. now rewrite (bind_ok _ _ _ _ _ Hfind).
  - pose proof (find_reads model [("link", VStr link)] w) as H.
    now rewrite Hfind in H.
Qed.

(** The article saved in [crawled] is found by its link, and crawling that
    link again changes nothing. *)
Example extract_known_link :
  CustomArticleCrawler.extract Documents.ArticleDocument "https://example.com/a"
    (Some Documents.ada) Documents.crawled = (Ok tt, Documents.crawled) /\
  GithubCrawler.extract Documents.ArticleDocument GithubCrawler.default_ignore
    "https://example.com/a" (Some Documents.ada) Documents.crawled
  = (Ok tt, Documents.crawled).
Proof. split; vm_compute; reflexivity. Qed.

End Deduplication.

Section StoreRuns.

Import NoSQLBaseDocument.

Lemma next_outcome_quiet (w : world) :
  s_faults (w_store w) = [] -> Mongo.next_outcome w = (Ok tt, w).
Proof. intros H. unfold Mongo.next_outcome. now rewrite H. Qed.

Lemma find_one_quiet (name : string) (q : dict) (w : world) :
  s_faults (w_store w) = [] ->
  Mongo.find_one name q w
  = (Ok (List.find (Mongo.matches q) (Mongo.records_of name (database w))), w).
Proof.
  intros H. unfold Mongo.find_one.
  now rewrite (bind_ok _ _ _ _ _ (next_outcome_quiet w H)).
Qed.

Lemma find_none_of_filter {A} (f : A -> bool) (l : list A) :
  filter f l = [] -> List.find f l = None.
Proof.
  induction l as [|a l IH]; [reflexivity|]. simpl.
  destruct (f a); [discriminate|exact IH].
Qed.

Lemma find_last_of_filter {A} (f : A -> bool) (l : list A) (x : A) :
  filter f l = [] -> f x = true -> List.find f (l ++ [x]) = Some x.
Proof.
  induction l as [|a l IH]; simpl; intros Hl Hx.
  - now rewrite Hx.
  - destruct (f a); [discriminate|now apply IH].
Qed.

Lemma records_of_put (name : string) (rs : list dict) (db : list (string * list dict)) :
  Mongo.records_of name (Mongo.put_records name rs db) = rs.
Proof.
  induction db as [|[n old] db IH]; simpl.
  - now rewrite String.eqb_refl.
  - destruct (String.eqb name n) eqn:E; simpl; rewrite E; [reflexivity|exact IH].
Qed.

(** A lookup that the store answers and that matches nothing. *)
Lemma find_absent (model : cls) (name : string) (q : dict) (w : world) :
  c_collection model = Some name ->
  s_faults (w_store w) = [] ->
  filter (Mongo.matches q) (Mongo.records_of name (database w)) = [] ->
  find model q w = (Ok None, w).
Proof.
  intros Hc Hq Hnone. unfold find, get_collection_name. rewrite Hc.
  rewrite (bind_ok _ _ w w name) by reflexivity.
  apply try_except_ok.
  rewrite (bind_ok _ _ _ _ _ (find_one_quiet name q w Hq)).
  now rewrite (find_none_of_filter _ _ Hnone).
Qed.

(** A lookup by link finds the document that was saved last, when no older
    record carries the link. *)
Lemma find_saved (model : cls) (name link : string) (d : document)
  (rs : list dict) (w : world) :
  c_collection model = Some name ->
  s_faults (w_store w) = [] ->
  Mongo.records_of name (database w) = rs ++ [to_mongo false d] ->
  filter (Mongo.matches [("link", VStr link)]) rs = [] ->
  valid_document d -> d_cls d = model ->
  In ("link", VStr link) (d_fields d) ->
  exists d', find model [("link", VStr link)] w = (Ok (Some d'), w).
Proof.
  intros Hc Hq Hrs Hnone Hd Hcls Hlink.
  pose proof Hd as ((Hnd & Hnoid & Hno) & Hv & H4 & Hf).
  pose proof (field_keys _ _ Hf) as Hkeys.
  destruct (from_mongo_to_mongo d w Hd) as [names Hback]. rewrite Hcls in Hback.
  assert (Hmatch : Mongo.matches [("link", VStr link)] (to_mongo false d) = true).
  { unfold Mongo.matches. cbn [forallb fst snd]. rewrite andb_true_r.
    assert (Hget : dict_get "link" (to_mongo false d) = Some (VStr link)).
    { apply dict_get_present.
      - rewrite (to_mongo_default d Hd), map_app, stringify_keys, Hkeys. cbn [map fst].
        apply NoDup_snoc; assumption.
      - rewrite (to_mongo_default d Hd). apply in_or_app. left.
        apply (in_map stringify_uuid) in Hlink. exact Hlink. }
    rewrite Hget. cbn [value_eqb]. apply String.eqb_refl. }
  exists (mkDoc model (d_id d) (d_fields d) names).
  unfold find, get_collection_name. rewrite Hc.
  rewrite (bind_ok _ _ w w name) by reflexivity.
  apply try_except_ok.
  rewrite (bind_ok _ _ _ _ _ (find_one_quiet name _ w Hq)), Hrs.
  rewrite (find_last_of_filter _ _ _ Hnone Hmatch).
  destruct (to_mongo false d) as [|r data] eqn:E.
  - rewrite (to_mongo_default d Hd) in E. now destruct (map stringify_uuid (d_fields d)).
  - now rewrite (bind_ok _ _ _ _ _ Hback).
Qed.

End StoreRuns.

Section FirstCrawl.

Import NoSQLBaseDocument.

(** Saving a valid document whose id is not yet a primary key, on a store
    that answers: the record is appended and the document is returned. *)
Lemma save_fresh (d : document) (name : string) (w : world) :
  c_collection (d_cls d) = Some name ->
  s_faults (w_store w) = [] ->
  valid_document d ->
  existsb (Mongo.same_key (VStr (Uuid.str (d_id d))))
          (Mongo.records_of name (database w)) = false ->
  save false d w = (Ok (Some d), set_store w (with_record name (to_mongo false d) w)).
Proof.
  intros Hc Hq Hd Hfresh.
  pose proof Hd as ((Hnd & Hnoid & Hno) & Hv & H4 & Hf).
  pose proof (field_keys _ _ Hf) as Hkeys.
  assert (Hid : dict_get "_id" (to_mongo false d) = Some (VStr (Uuid.str (d_id d)))).
  { rewrite (to_mongo_default d Hd). apply dict_get_last.
    now rewrite stringify_keys, Hkeys. }
  unfold save, get_collection_name. rewrite Hc.
  rewrite (bind_ok _ _ w w name) by reflexivity.
  apply try_except_ok.
  assert (Hins : Mongo.insert_one name (to_mongo false d) w
                 = (Ok tt, set_store w (with_record name (to_mongo false d) w))).
  { unfold Mongo.insert_one.
    rewrite (bind_ok _ _ _ _ _ (next_outcome_quiet w Hq)).
    unfold Mongo.store_record. fold (database w). now rewrite Hid, Hfresh. }
  now rewrite (bind_ok _ _ _ _ _ Hins).
Qed.

(** The instance the constructor makes of the article crawler's keyword
    arguments. *)
Lemma construct_article (model : cls) (link platform : string) (pg : page) (u : user)
  (w : world) :
  c_fields model = Documents.article_fields ->
  Uuid.is_uuid4 (u_id u) = true ->
  construct model (article_kwargs link platform pg u) w
  = (Ok (mkDoc model (next_uuid w) (article_kwargs link platform pg u)
               (map fst Documents.article_fields)),
     set_drawn w (S (w_drawn w))).
Proof.
  intros Hf H4. unfold construct, field_names. rewrite Hf.
  unfold article_kwargs, Documents.article_fields.
  cbn [validate_fields dict_get dict_mem String.eqb Ascii.eqb Bool.eqb validate
       filter map fst].
  rewrite H4. reflexivity.
Qed.

Lemma article_document_valid (model : cls) (link platform : string) (pg : page) (u : user)
  (id : Uuid.t) (names : list string) :
  c_fields model = Documents.article_fields ->
  Uuid.valid id -> Uuid.is_uuid4 id = true ->
  Uuid.valid (u_id u) -> Uuid.is_uuid4 (u_id u) = true ->
  valid_document (mkDoc model id (article_kwargs link platform pg u) names).
Proof.
  intros Hf Hv H4 Huv Hu4. unfold valid_document, well_formed.
  cbn [d_cls d_id d_fields]. rewrite Hf. repeat split; try assumption.
  - repeat constructor; simpl; intuition discriminate.
  - simpl; intuition discriminate.
  - simpl; intuition discriminate.
  - repeat constructor; cbn [fst snd has_type]; try reflexivity; assumption.
Qed.

(** The state of the store after a crawl that saved [d]. *)
Lemma count_after_save (name link : string) (d : document) (w w1 : world) :
  valid_document d ->
  In ("link", VStr link) (d_fields d) ->
  count_link name link w = 0 ->
  s_faults (w_store w1) = s_faults (w_store w) ->
  database w1
  = Mongo.put_records name (Mongo.records_of name (database w) ++ [to_mongo false d])
                      (database w) ->
  Mongo.records_of name (database w1)
  = Mongo.records_of name (database w) ++ [to_mongo false d] /\
  filter (Mongo.matches [("link", VStr link)]) (Mongo.records_of name (database w)) = [] /\
  count_link name link w1 = 1.
Proof.
  intros Hd Hlink H0 Hq Hdb.
  assert (Hnone : filter (Mongo.matches [("link", VStr link)])
                         (Mongo.records_of name (database w)) = []).
  { unfold count_link in H0. now apply length_zero_iff_nil. }
  assert (Hrs : Mongo.records_of name (database w1)
                = Mongo.records_of name (database w) ++ [to_mongo false d]).
  { rewrite Hdb. apply records_of_put. }
  repeat split; try assumption.
  unfold count_link. rewrite Hrs, filter_app, Hnone. cbn [app filter].
  pose proof Hd as ((Hnd & Hnoid & Hno) & Hv & H4 & Hf).
  pose proof (field_keys _ _ Hf) as Hkeys.
  assert (Hget : dict_get "link" (to_mongo false d) = Some (VStr link)).
  { apply dict_get_present.
    - rewrite (to_mongo_default d Hd), map_app, stringify_keys, Hkeys. cbn [map fst].
      apply NoDup_snoc; assumption.
    - rewrite (to_mongo_default d Hd). apply in_or_app. left.
      apply (in_map stringify_uuid) in Hlink. exact Hlink. }
  unfold Mongo.matches. cbn [forallb fst snd]. rewrite Hget. cbn [value_eqb].
  now rewrite String.eqb_refl.
Qed.

(** The first crawl of a link by the article crawler, on a store that
    answers and holds no record for the link. *)
Lemma article_first_crawl (model : cls) (name link platform : string) (pg : page)
  (u : user) (w : world) :
  c_collection model = Some name ->
  c_fields model = Documents.article_fields ->
  s_faults (w_store w) = [] ->
  count_link name link w = 0 ->
  e_web (w_env w) link = Ok pg ->
  Url.netloc link = Ok platform ->
  Uuid.is_uuid4 (u_id u) = true ->
  Uuid.valid (u_id u) ->
  existsb (Mongo.same_key (VStr (Uuid.str (next_uuid w))))
          (Mongo.records_of name (database w)) = false ->
  let d := mkDoc model (next_uuid w) (article_kwargs link platform pg u)
                 (map fst Documents.article_fields) in
  let w' := set_drawn w (S (w_drawn w)) in
  valid_document d /\
  CustomArticleCrawler.extract model link (Some u) w
  = (Ok tt, set_store w' (with_record name (to_mongo false d) w')).
Proof.
  intros Hc Hf Hq H0 Hweb Hloc Hu4 Huv Hfresh d w'.
  assert (Hd : valid_document d).
  { apply article_document_valid; try assumption.
    - apply uuid4_of_random_valid.
    - apply uuid4_of_random_is_uuid4. }
  split; [exact Hd|].
  assert (Hnone : filter (Mongo.matches [("link", VStr link)])
                         (Mongo.records_of name (database w)) = []).
  { unfold count_link in H0. now apply length_zero_iff_nil. }
  unfold CustomArticleCrawler.extract.
  rewrite (bind_ok _ _ _ _ _ (find_absent model name _ w Hc Hq Hnone)).
  cbv beta iota.
  assert (Hload : CustomArticleCrawler.load link w = (Ok pg, w)).
  { unfold CustomArticleCrawler.load. now rewrite Hweb. }
  rewrite (bind_ok _ _ _ _ _ Hload). cbv zeta.
  rewrite (bind_ok _ _ w w platform) by (unfold lift; now rewrite Hloc).
  rewrite (bind_ok _ _ w w u) by reflexivity.
  fold (article_kwargs link platform pg u).
  rewrite (bind_ok _ _ _ _ _ (construct_article model link platform pg u w Hf Hu4)).
  fold d. fold w'.
  rewrite (bind_ok _ _ _ _ _ (save_fresh d name w' Hc Hq Hd Hfresh)).
  reflexivity.
Qed.

Lemma construct_repository (model : cls) (link : string) (tree : dict) (u : user) (w : world) :
  c_fields model = Documents.repository_fields ->
  Uuid.is_uuid4 (u_id u) = true ->
  construct model (repository_kwargs link tree u) w
  = (Ok (mkDoc model (next_uuid w) (repository_kwargs link tree u)
               (map fst Documents.repository_fields)),
     set_drawn w (S (w_drawn w))).
Proof.
  intros Hf H4. unfold construct, field_names. rewrite Hf.
  unfold repository_kwargs, Documents.repository_fields.
  cbn [validate_fields dict_get dict_mem String.eqb Ascii.eqb Bool.eqb validate
       filter map fst].
  rewrite H4. reflexivity.
Qed.

Lemma repository_document_valid (model : cls) (link : string) (tree : dict) (u : user)
  (id : Uuid.t) (names : list string) :
  c_fields model = Documents.repository_fields ->
  Uuid.valid id -> Uuid.is_uuid4 id = true ->
  Uuid.valid (u_id u) -> Uuid.is_uuid4 (u_id u) = true ->
  valid_document (mkDoc model id (repository_kwargs link tree u) names).
Proof.
  intros Hf Hv H4 Huv Hu4. unfold valid_document, well_formed.
  cbn [d_cls d_id d_fields]. rewrite Hf. repeat split; try assumption.
  - repeat constructor; simpl; intuition discriminate.
  - simpl; intuition discriminate.
  - simpl; intuition discriminate.
  - repeat constructor; cbn [fst snd has_type]; try reflexivity; assumption.
Qed.

(** The first crawl of a link by the repository crawler, on a store that
    answers and holds no record for the link, when the clone works and its
    files can be read. *)
Lemma repository_first_crawl (model : cls) (ignore : list string) (name link : string)
  (tree : list (string * node)) (content : dict) (u : user) (w : world) :
  c_collection model = Some name ->
  c_fields model = Documents.repository_fields ->
  s_faults (w_store w) = [] ->
  count_link name link w = 0 ->
  e_git (w_env w) = true ->
  e_remote (w_env w) link = Some tree ->
  read_clone ignore link tree w = Ok content ->
  Uuid.is_uuid4 (u_id u) = true ->
  Uuid.valid (u_id u) ->
  existsb (Mongo.same_key (VStr (Uuid.str (next_uuid w))))
          (Mongo.records_of name (database w)) = false ->
  let d := mkDoc model (next_uuid w) (repository_kwargs link content u)
                 (map fst Documents.repository_fields) in
  valid_document d /\
  exists w1,
    GithubCrawler.extract model ignore link (Some u) w = (Ok tt, w1) /\
    s_faults (w_store w1) = [] /\
    database w1
    = Mongo.put_records name (Mongo.records_of name (database w) ++ [to_mongo false d])
                        (database w).
Proof.
  intros Hc Hf Hq H0 Hgit Hremote Hread Hu4 Huv Hfresh d.
  assert (Hd : valid_document d).
  { apply repository_document_valid; try assumption.
    - apply uuid4_of_random_valid.
    - apply uuid4_of_random_is_uuid4. }
  split; [exact Hd|].
  assert (Hnone : filter (Mongo.matches [("link", VStr link)])
                         (Mongo.records_of name (database w)) = []).
  { unfold count_link in H0. now apply length_zero_iff_nil. }
  set (p := next_tmp w). set (repo := GithubCrawler.repo_name link).
  set (dirs := fs_dirs (w_fs w)).
  set (n := Os.fresh_from (w_fs w) (fs_made (w_fs w)) (List.length dirs)).
  (* the worlds the run goes through *)
  set (wa := set_fs w (mkFs ((p, []) :: dirs) (fs_cwd (w_fs w)) (S n))).
  set (wb := set_fs wa (mkFs ((p, []) :: dirs) p (S n))).
  set (wc := set_fs wb (mkFs ((p, [(repo, Dir tree)]) :: dirs) p (S n))).
  set (wd := set_drawn wc (S (w_drawn w))).
  set (we := set_store wd (with_record name (to_mongo false d) wd)).
  set (wf := set_fs we (mkFs (filter (fun x => negb (String.eqb p (fst x)))
                                     ((p, [(repo, Dir tree)]) :: dirs)) p (S n))).
  exists wf. split; [|split; [exact Hq|reflexivity]].
  unfold GithubCrawler.extract.
  rewrite (bind_ok _ _ _ _ _ (find_absent model name _ w Hc Hq Hnone)).
  cbv beta iota zeta.
  rewrite (bind_ok _ _ w wa p) by reflexivity.
  assert (Hbody : GithubCrawler.clone_and_save model ignore link repo p (Some u) wa
                  = (Ok tt, we)).
  { unfold GithubCrawler.clone_and_save.
    assert (Hcd : Os.chdir p wa = (Ok tt, wb)).
    { unfold Os.chdir, Os.exists_dir. cbn [wa set_fs w_fs fs_dirs Os.lookup].
      now rewrite String.eqb_refl. }
    rewrite (bind_ok _ _ _ _ _ Hcd).
    assert (Hclone : Os.git_clone link repo wb = (Ok tt, wc)).
    { unfold Os.git_clone. cbn [wb wa set_fs w_fs w_env fs_dirs fs_cwd Os.lookup].
      rewrite Hgit, Hremote, String.eqb_refl. cbn [negb app Os.put_dir].
      now rewrite String.eqb_refl. }
    rewrite (bind_ok _ _ _ _ _ Hclone).
    assert (Hls : Os.listdir p wc = (Ok [repo], wc)).
    { unfold Os.listdir. cbn [wc set_fs w_fs fs_dirs Os.lookup].
      now rewrite String.eqb_refl. }
    rewrite (bind_ok _ _ _ _ _ Hls). cbv beta iota zeta.
    assert (Hwalk : Os.walk_path p repo wc
                    = (Ok (Os.walk (Os.path_join p repo) (Dir tree)), wc)).
    { unfold Os.walk_path. cbn [wc set_fs w_fs fs_dirs Os.lookup].
      rewrite String.eqb_refl. cbn [Os.lookup]. now rewrite String.eqb_refl. }
    rewrite (bind_ok _ _ _ _ _ Hwalk).
    unfold read_clone in Hread. fold p repo in Hread.
    rewrite (bind_ok _ _ wc wc content) by (unfold lift; now rewrite Hread).
    rewrite (bind_ok _ _ wc wc u) by reflexivity.
    fold (repository_kwargs link content u).
    rewrite (bind_ok _ _ _ _ _ (construct_repository model link content u wc Hf Hu4)).
    change (next_uuid wc) with (next_uuid w). fold d.
    change (set_drawn wc (S (w_drawn wc))) with wd.
    rewrite (bind_ok _ _ _ _ _ (save_fresh d name wd Hc Hq Hd Hfresh)).
    reflexivity. }
  cbv beta. fold repo. unfold try_finally. rewrite Hbody.
  unfold Os.rmtree, Os.exists_dir. cbn [we wd wc set_store set_drawn set_fs w_fs fs_dirs Os.lookup].
  now rewrite String.eqb_refl.
Qed.

End FirstCrawl.

Section CrawlTwice.

Import NoSQLBaseDocument.

(** A second crawl after a crawl that saved [d]: the lookup finds the record
    and both crawlers return at once. *)
Lemma second_crawl (model : cls) (ignore : list string) (name link : string)
  (usr : option user) (d : document) (w w1 : world) :
  c_collection model = Some name ->
  valid_document d -> d_cls d = model ->
  In ("link", VStr link) (d_fields d) ->
  count_link name link w = 0 ->
  s_faults (w_store w) = [] ->
  s_faults (w_store w1) = [] ->
  database w1
  = Mongo.put_records name (Mongo.records_of name (database w) ++ [to_mongo false d])
                      (database w) ->
  CustomArticleCrawler.extract model link usr w1 = (Ok tt, w1) /\
  GithubCrawler.extract model ignore link usr w1 = (Ok tt, w1) /\
  count_link name link w1 = 1.
Proof.
  intros Hc Hd Hcls Hlink H0 Hq Hq1 Hdb.
  destruct (count_after_save name link d w w1 Hd Hlink H0) as (Hrs & Hnone & Hcount);
    [congruence|exact Hdb|].
  destruct (find_saved model name link d _ w1 Hc Hq1 Hrs Hnone Hd Hcls Hlink) as [d' Hfind].
  destruct (extract_found model ignore link usr w1 w1 d' Hfind) as (Ha & Hg & _).
  now repeat split.
Qed.

(** C7 (as amended): when [find] with the link returns a record, [extract] of
    either crawler returns without raising and leaves the records, the file
    system and the collaborators as they were.  Consequently, on a store
    that answers every operation and holds no record for the link, when the
    content is acquired (the page loads and [urlparse] accepts the link;
    the clone works and can be read), the user's id is a version-4 UUID and
    the generated id is not yet a primary key, crawling the link twice in a row leaves exactly one record
    for it: the first crawl saves it, the second changes nothing. *)
Theorem crawl_deduplicates :
  (forall model ignore link usr w w1 old_model,
     find model [("link", VStr link)] w = (Ok (Some old_model), w1) ->
     CustomArticleCrawler.extract model link usr w = (Ok tt, w1) /\
     GithubCrawler.extract model ignore link usr w = (Ok tt, w1) /\
     persisted w1 = persisted w) /\
  (forall model name link platform pg u w,
     c_collection model = Some name ->
     c_fields model = Documents.article_fields ->
     s_faults (w_store w) = [] ->
     count_link name link w = 0 ->
     e_web (w_env w) link = Ok pg ->
     Url.netloc link = Ok platform ->
     Uuid.is_uuid4 (u_id u) = true -> Uuid.valid (u_id u) ->
     existsb (Mongo.same_key (VStr (Uuid.str (next_uuid w))))
             (Mongo.records_of name (database w)) = false ->
     let r1 := CustomArticleCrawler.extract model link (Some u) w in
     let r2 := CustomArticleCrawler.extract model link (Some u) (snd r1) in
     fst r1 = Ok tt /\ r2 = (Ok tt, snd r1) /\
     count_link name link (snd r1) = 1 /\ count_link name link (snd r2) = 1) /\
  (forall model ignore name link tree content u w,
     c_collection model = Some name ->
     c_fields model = Documents.repository_fields ->
     s_faults (w_store w) = [] ->
     count_link name link w = 0 ->
     e_git (w_env w) = true ->
     e_remote (w_env w) link = Some tree ->
     read_clone ignore link tree w = Ok content ->
     Uuid.is_uuid4 (u_id u) = true -> Uuid.valid (u_id u) ->
     existsb (Mongo.same_key (VStr (Uuid.str (next_uuid w))))
             (Mongo.records_of name (database w)) = false ->
     let r1 := GithubCrawler.extract model ignore link (Some u) w in
     let r2 := GithubCrawler.extract model ignore link (Some u) (snd r1) in
     fst r1 = Ok tt /\ r2 = (Ok tt, snd r1) /\
     count_link name link (snd r1) = 1 /\ count_link name link (snd r2) = 1).
Proof.
  split; [|split].
  - intros model ignore link usr w w1 old_model Hfind.
    exact (extract_found model ignore link usr w w1 old_model Hfind).
  - intros model name link platform pg u w Hc Hf Hq H0 Hweb Hloc Hu4 Huv Hfresh r1 r2.
    destruct (article_first_crawl model name link platform pg u w
                Hc Hf Hq H0 Hweb Hloc Hu4 Huv Hfresh)
      as [Hd Hrun].
    set (d := mkDoc model (next_uuid w) (article_kwargs link platform pg u)
                    (map fst Documents.article_fields)) in *.
    assert (Hlink : In ("link", VStr link) (d_fields d)) by (simpl; tauto).
    subst r2 r1. rewrite Hrun. cbn [fst snd].
    match goal with |- _ /\ CustomArticleCrawler.extract _ _ _ ?w1 = _ /\ _ =>
      destruct (second_crawl model [] name link (Some u) d w w1 Hc Hd eq_refl Hlink H0 Hq Hq eq_refl)
        as (Ha & _ & Hcount)
    end.
    rewrite Ha. cbn [snd]. now repeat split.
  - intros model ignore name link tree content u w Hc Hf Hq H0 Hgit Hremote Hread
           Hu4 Huv Hfresh r1 r2.
    destruct (repository_first_crawl model ignore name link tree content u w
                Hc Hf Hq H0 Hgit Hremote Hread Hu4 Huv Hfresh)
      as (Hd & w1 & Hrun & Hq1 & Hdb).
    set (d := mkDoc model (next_uuid w) (repository_kwargs link content u)
                    (map fst Documents.repository_fields)) in *.
    assert (Hlink : In ("link", VStr link) (d_fields d)) by (simpl; tauto).
    subst r2 r1. rewrite Hrun. cbn [fst snd].
    destruct (second_crawl model ignore name link (Some u) d w w1 Hc Hd eq_refl Hlink H0 Hq Hq1 Hdb)
      as (_ & Hg & Hcount).
    rewrite Hg. cbn [snd]. now repeat split.
Qed.

(** C7 (as stated) fails: in the world [flaky] nothing runs concurrently, the
    first crawl of the link saves a document, the lookup of the second crawl
    is refused by the store, [find] turns that into "no record", and the
    second crawl saves again: two records for one link. *)
Lemma crawl_twice_two_records :
  let link := "https://example.com/a" in
  let r1 := CustomArticleCrawler.extract Documents.ArticleDocument link
              (Some Documents.ada) Documents.flaky in
  let r2 := CustomArticleCrawler.extract Documents.ArticleDocument link
              (Some Documents.ada) (snd r1) in
  count_link "articles" link Documents.flaky = 0 /\
  fst r1 = Ok tt /\ count_link "articles" link (snd r1) = 1 /\
  find Documents.ArticleDocument [("link", VStr link)] (snd r1)
  = (Ok None, set_store (snd r1) (mkStore (database (snd r1)) [] 0)) /\
  fst r2 = Ok tt /\ count_link "articles" link (snd r2) = 2.
Proof. cbv zeta. repeat split; vm_compute; reflexivity. Qed.

Lemma crawl_deduplicates_witness :
  let link := "https://example.com/a" in
  let r1 := CustomArticleCrawler.extract Documents.ArticleDocument link
              (Some Documents.ada) Documents.online in
  let r2 := CustomArticleCrawler.extract Documents.ArticleDocument link
              (Some Documents.ada) (snd r1) in
  fst r1 = Ok tt /\ r2 = (Ok tt, snd r1) /\
  count_link "articles" link (snd r1) = 1 /\ count_link "articles" link (snd r2) = 1.
Proof.
  exact (proj1 (proj2 crawl_deduplicates)
           Documents.ArticleDocument "articles" "https://example.com/a" "example.com"
           (mkPage (Some "T") None (Some "en") "Body text") Documents.ada Documents.online
           eq_refl eq_refl eq_refl eq_refl eq_refl eq_refl eq_refl eq_refl eq_refl).
Defined.

End CrawlTwice.

Section Dispatch.

Import CrawlerDispatcher.

Lemma chars_append (a b : string) : Str.chars (a ++ b) = Str.chars a ++ Str.chars b.
Proof.
  unfold Str.chars. induction a as [|c a IH]; [reflexivity|].
  simpl. now rewrite IH.
Qed.

Lemma chars_inj (a b : string) : Str.chars a = Str.chars b -> a = b.
Proof.
  unfold Str.chars. intros H.
  rewrite <- (string_of_list_ascii_of_string a), <- (string_of_list_ascii_of_string b).
  now rewrite H.
Qed.

Lemma chars_of_chars (l : list ascii) : Str.chars (Str.of_chars l) = l.
Proof. apply list_ascii_of_string_of_list_ascii. Qed.

(** [re.escape] loses nothing: the backslash it adds is itself a character
    it escapes. *)
Lemma escape_chars_inj (s1 s2 : list ascii) :
  Re.escape_chars s1 = Re.escape_chars s2 -> s1 = s2.
Proof.
  revert s2. induction s1 as [|c1 s1 IH]; intros [|c2 s2] H; cbn [Re.escape_chars] in H.
  - reflexivity.
  - destruct (Str.memb c2 Re.special); discriminate.
  - destruct (Str.memb c1 Re.special); discriminate.
  - destruct (Str.memb c1 Re.special) eqn:E1, (Str.memb c2 Re.special) eqn:E2.
    + injection H as -> H. f_equal. now apply IH.
    + injection H as <- _. discriminate E2.
    + injection H as -> _. discriminate E1.
    + injection H as -> H. f_equal. now apply IH.
Qed.

Lemma pattern_inj (d1 d2 : string) : pattern d1 = pattern d2 -> d1 = d2.
Proof.
  unfold pattern, Re.escape. intros H.
  apply (f_equal Str.chars) in H. rewrite !chars_append, !chars_of_chars in H.
  apply app_inv_head, app_inv_tail in H.
  now apply escape_chars_inj, chars_inj in H.
Qed.

Lemma lookup_put_same (k : string) (c : crawler_class) (d : t) :
  Os.lookup k (put k c d) = Some c.
Proof.
  induction d as [|[k' c'] d IH]; simpl.
  - now rewrite String.eqb_refl.
  - destruct (String.eqb k k') eqn:E; simpl.
    + now rewrite String.eqb_refl.
    + now rewrite E.
Qed.

Lemma lookup_put_other (k k' : string) (c : crawler_class) (d : t) :
  k' <> k -> Os.lookup k' (put k c d) = Os.lookup k' d.
Proof.
  intros Hne. induction d as [|[k0 c0] d IH]; simpl.
  - destruct (String.eqb_spec k' k); [contradiction|reflexivity].
  - destruct (String.eqb_spec k k0) as [->|]; simpl.
    + destruct (String.eqb_spec k' k0); [contradiction|reflexivity].
    + now rewrite IH.
Qed.

Lemma without_www_www (d : string) : without_www ("www." ++ d)%string = Some d.
Proof.
  unfold without_www. rewrite chars_append. cbn.
  f_equal. apply string_of_list_ascii_of_string.
Qed.

Lemma www_differs (d : string) : ("www." ++ d)%string <> d.
Proof.
  intros H. apply (f_equal String.length) in H. simpl in H. lia.
Qed.

Lemma register_ok (self : t) (domain d : string) (X : crawler_class) :
  Url.netloc domain = Ok d -> register self domain X = Ok (put (pattern d) X self).
Proof. intros H. unfold register. now rewrite H. Qed.

(** A domain no registration was made for has no entry. *)
Lemma lookup_unregistered (regs : list (string * crawler_class)) (self self' : t)
  (d : string) :
  register_all self regs = Ok self' ->
  ~ In (Ok d) (domains regs) ->
  Os.lookup (pattern d) self' = Os.lookup (pattern d) self.
Proof.
  revert self. induction regs as [|[p k] regs IH]; intros self Hall Hd.
  - injection Hall as <-. reflexivity.
  - cbn [register_all] in Hall. unfold register in Hall.
    destruct (Url.netloc p) as [n|e] eqn:E; [|discriminate].
    rewrite (IH _ Hall) by (intros Hin; apply Hd; now right).
    apply lookup_put_other.
    intros Ep. apply pattern_inj in Ep. apply Hd. left. cbn [fst]. now rewrite E, Ep.
Qed.

(** C6: after [register(domain_pattern, X)], asking for the crawler of a URL
    whose domain is that of the pattern -- whatever the scheme, path or
    earlier registrations -- gives an instance of [X]; so does a URL on that
    domain behind [www.], unless the [www.] domain has a registration of its
    own.  On a dispatcher built by registrations alone, a URL whose domain
    (with or without [www.]) was never registered gets an error, not a
    crawler.  The domains are those [urlparse] reads from the pattern and
    from the URL. *)
Theorem get_crawler_registered :
  (forall self domain_pattern X url d,
     Url.netloc domain_pattern = Ok d ->
     Url.netloc url = Ok d ->
     exists self',
       register self domain_pattern X = Ok self' /\
       get_crawler self' url = Ok (instantiate X) /\
       class_of (instantiate X) = X) /\
  (forall self domain_pattern X url d,
     Url.netloc domain_pattern = Ok d ->
     Url.netloc url = Ok ("www." ++ d)%string ->
     Os.lookup (pattern ("www." ++ d)) self = None ->
     exists self',
       register self domain_pattern X = Ok self' /\
       get_crawler self' url = Ok (instantiate X)) /\
  (forall regs self url d,
     register_all build regs = Ok self ->
     Url.netloc url = Ok d ->
     ~ In (Ok d) (domains regs) ->
     (forall bare, without_www d = Some bare -> ~ In (Ok bare) (domains regs)) ->
     get_crawler self url = Raise KeyError).
Proof.
  split; [|split].
  - intros self domain_pattern X url d Hpat Hurl.
    exists (put (pattern d) X self).
    split; [now apply register_ok|]. split; [|now destruct X].
    unfold get_crawler. now rewrite Hurl, lookup_put_same.
  - intros self domain_pattern X url d Hpat Hurl Hown.
    exists (put (pattern d) X self).
    split; [now apply register_ok|].
    unfold get_crawler. rewrite Hurl.
    rewrite lookup_put_other.
    + rewrite Hown, without_www_www. now rewrite lookup_put_same.
    + intros E. apply pattern_inj in E. exact (www_differs _ E).
  - intros regs self url d Hall Hurl Hdom Hbare. unfold get_crawler. rewrite Hurl.
    rewrite (lookup_unregistered regs build self d Hall Hdom). cbn [build Os.lookup].
    destruct (without_www d) as [bare|] eqn:E; [|reflexivity].
    now rewrite (lookup_unregistered regs build self bare Hall (Hbare bare eq_refl)).
Qed.

Lemma get_crawler_registered_witness :
  (exists self',
     register build "https://example.com" CustomArticleCrawlerClass = Ok self' /\
     get_crawler self' "https://example.com/anything" = Ok ACustomArticleCrawler) /\
  (exists self',
     register_github build = Ok self' /\
     get_crawler self' "http://www.github.com/ada/engine"
     = Ok (AGithubCrawler GithubCrawler.default_ignore)) /\
  (exists self',
     register_all build [("https://github.com", GithubCrawlerClass)] = Ok self' /\
     get_crawler self' "https://example.com/anything" = Raise KeyError).
Proof.
  destruct get_crawler_registered as (H1 & H2 & H3).
  split; [|split].
  - destruct (H1 build "https://example.com" CustomArticleCrawlerClass
                 "https://example.com/anything" "example.com" eq_refl eq_refl)
      as (self' & Hreg & Hget & _).
    now exists self'.
  - exact (H2 build "https://github.com" GithubCrawlerClass
              "http://www.github.com/ada/engine" "github.com" eq_refl eq_refl eq_refl).
  - eexists. split; [reflexivity|].
    apply (H3 [("https://github.com", GithubCrawlerClass)] _
              "https://example.com/anything" "example.com" eq_refl eq_refl).
    + simpl. intros [E|[]]. discriminate E.
    + intros bare E. discriminate E.
Defined.

End Dispatch.

Section GetOrCreatePaths.

Import NoSQLBaseDocument.

(** With the id given, the constructor draws nothing. *)
Lemma construct_with_id (c : cls) (kwargs : dict) (v : value) (w : world) :
  dict_get "id" kwargs = Some v -> snd (construct c kwargs w) = w.
Proof.
  intros H. unfold construct, bind. rewrite H.
  destruct (validate TUuid4 v) as [[]|]; cbn [ret];
    destruct (validate_fields (c_fields c) kwargs); reflexivity.
Qed.

Lemma construct_class (c : cls) (kwargs : dict) (w w' : world) (d : document) :
  construct c kwargs w = (Ok d, w') -> d_cls d = c.
Proof.
  unfold construct, bind.
  destruct (dict_get "id" kwargs) as [v|].
  - destruct (validate TUuid4 v) as [[]|]; cbn [ret];
      destruct (validate_fields (c_fields c) kwargs); cbn [ret raise]; intros [= <- _];
      reflexivity.
  - cbn [uuid4]. destruct (validate_fields (c_fields c) kwargs); cbn [ret raise];
      intros [= <- _]; reflexivity.
Qed.

Lemma construct_id (c : cls) (kwargs : dict) (u : Uuid.t) (w w' : world) (d : document) :
  dict_get "id" kwargs = Some (VUuid u) ->
  construct c kwargs w = (Ok d, w') -> d_id d = u.
Proof.
  intros Hid. unfold construct, bind. rewrite Hid. cbn [validate].
  destruct (Uuid.is_uuid4 u); cbn [ret];
    destruct (validate_fields (c_fields c) kwargs); cbn [ret raise]; intros [= <- _];
    reflexivity.
Qed.

(** [from_mongo] leaves the world alone, and a document it returns has the
    class asked for and the id written in the record. *)
Lemma from_mongo_returns (c : cls) (data : dict) (w w' : world) (d : document) :
  from_mongo c data w = (Ok d, w') ->
  w' = w /\ d_cls d = c /\
  exists s, dict_get "_id" data = Some (VStr s) /\ Uuid.of_string s = Some (d_id d).
Proof.
  unfold from_mongo. destruct data as [|r data]; [discriminate|].
  unfold dict_pop. set (rec := r :: data).
  destruct (dict_get "_id" rec) as [v|] eqn:Hid; [|discriminate].
  unfold bind, lift, uuid_of_value.
  destruct v as [| | |s| | | |]; try discriminate.
  destruct (Uuid.of_string s) as [u|] eqn:Hu; [|discriminate].
  intros E.
  pose proof (construct_with_id c _ (VUuid u) w
                (dict_get_set_same "id" (VUuid u) (dict_del "_id" rec))) as Hw.
  rewrite E in Hw. cbn [snd] in Hw.
  split; [exact Hw|]. split; [exact (construct_class _ _ _ _ _ E)|].
  exists s. split; [reflexivity|].
  rewrite (construct_id c _ u w w' d (dict_get_set_same "id" (VUuid u) _) E). exact Hu.
Qed.

Lemma from_mongo_raises (c : cls) (data : dict) (w w' : world) (e : exn) :
  from_mongo c data w = (Raise e, w') -> w' = w.
Proof.
  intros E. pose proof (from_mongo_reads c data w) as H. rewrite E in H. cbn [snd] in H.
  unfold from_mongo in E. destruct data as [|r data]; [now injection E|].
  unfold dict_pop in E. set (rec := r :: data) in *.
  destruct (dict_get "_id" rec) as [v|]; [|now injection E].
  unfold bind, lift in E.
  destruct (uuid_of_value v) as [u|e0]; [|now injection E].
  pose proof (construct_with_id c _ (VUuid u) w
                (dict_get_set_same "id" (VUuid u) (dict_del "_id" rec))) as Hw.
  rewrite E in Hw. exact Hw.
Qed.

(** The fields the constructor takes from the keyword arguments are the
    declared ones, in order. *)
Lemma validate_fields_keys (fs : list (string * ftype)) (kwargs vals : dict) :
  validate_fields fs kwargs = Some vals -> map fst vals = map fst fs.
Proof.
  revert vals. induction fs as [|[n t] fs IH]; intros vals H.
  - now injection H as <-.
  - cbn [validate_fields] in H.
    destruct (dict_get n kwargs) as [v|]; [|discriminate].
    destruct (validate_fields fs kwargs) as [rest|]; [|discriminate].
    destruct (validate t v) as [v'|]; [|discriminate].
    injection H as <-. cbn [map fst]. now rewrite (IH rest eq_refl).
Qed.

Lemma construct_fields (c : cls) (kwargs : dict) (w w' : world) (d : document) :
  construct c kwargs w = (Ok d, w') ->
  validate_fields (c_fields c) kwargs = Some (d_fields d).
Proof.
  unfold construct, bind.
  destruct (dict_get "id" kwargs) as [v|].
  - destruct (validate TUuid4 v) as [[]|]; cbn [ret];
      destruct (validate_fields (c_fields c) kwargs); cbn [ret raise]; intros [= <- _];
      reflexivity.
  - cbn [uuid4]. destruct (validate_fields (c_fields c) kwargs); cbn [ret raise];
      intros [= <- _]; reflexivity.
Qed.

(** With the default flags, an instance without a field called ["_id"] is
    dumped as its fields, UUIDs as text, followed by the primary key. *)
Lemma to_mongo_shape (d : document) :
  ~ In "_id" (map fst (d_fields d)) ->
  to_mongo false d
  = map stringify_uuid (d_fields d) ++ [("_id", VStr (Uuid.str (d_id d)))].
Proof.
  intros Hno. unfold to_mongo, model_dump, dict_mem, dict_pop.
  cbn [dict_get String.eqb Ascii.eqb Bool.eqb fst dict_del].
  rewrite dict_get_absent by exact Hno.
  cbn [negb andb].
  rewrite dict_set_absent by exact Hno.
  now rewrite map_app.
Qed.

(** What [insert_one] does to the records when the record has a primary
    key: it goes last, or nothing changes and an exception leaves. *)
Lemma insert_one_effect (name : string) (r : dict) (k : value) (w : world) :
  dict_get "_id" r = Some k ->
  match Mongo.insert_one name r w with
  | (Ok _, w') =>
      Mongo.records_of name (database w') = Mongo.records_of name (database w) ++ [r]
  | (Raise e, w') => database w' = database w
  end.
Proof.
  intros Hk. unfold Mongo.insert_one, bind, Mongo.next_outcome, Mongo.store_record.
  destruct (s_faults (w_store w)) as [|[e0|] rest];
    cbn [set_store w_store s_db s_faults s_oid]; rewrite ?Hk.
  - destruct (existsb _ _); [reflexivity|].
    unfold database. cbn [set_store w_store Mongo.set_db s_db]. apply records_of_put.
  - reflexivity.
  - destruct (existsb _ _); [reflexivity|].
    unfold database. cbn [set_store w_store Mongo.set_db s_db]. apply records_of_put.
Qed.

Lemma reads_database {A} (m : M A) (w : world) :
  keeps persisted m -> database (snd (m w)) = database w.
Proof.
  intros H. specialize (H w). unfold persisted in H. now injection H.
Qed.

(** The creating path of [get_or_create]: build from the filter, save. *)
Lemma construct_and_save (c : cls) (filter_options : dict) (name : string) (w : world) :
  c_collection c = Some name ->
  well_formed c ->
  match construct c filter_options w with
  | (Ok new_instance, w2) =>
      d_cls new_instance = c /\
      validate_fields (c_fields c) filter_options = Some (d_fields new_instance) /\
      match Mongo.insert_one name (to_mongo false new_instance) w2 with
      | (Ok _, w3) =>
          (new_instance <- construct c filter_options ;; save false new_instance)%py w
          = (Ok (Some new_instance), w3) /\
          Mongo.records_of name (database w3)
          = Mongo.records_of name (database w) ++ [to_mongo false new_instance]
      | (Raise e, w3) =>
          database w3 = database w /\
          (new_instance <- construct c filter_options ;; save false new_instance)%py w
          = if catches WriteError e then (Ok None, w3) else (Raise e, w3)
      end
  | (Raise e, w2) =>
      database w2 = database w /\
      (new_instance <- construct c filter_options ;; save false new_instance)%py w
      = (Raise e, w2)
  end.
Proof.
  intros Hc (_ & _ & Hno).
  pose proof (reads_database _ w (construct_reads c filter_options)) as Hdb.
  unfold bind at 1 2 3.
  destruct (construct c filter_options w) as [[d|e] w2] eqn:E; cbn [snd] in Hdb;
    [|now split].
  pose proof (construct_class _ _ _ _ _ E) as Hcls.
  pose proof (construct_fields _ _ _ _ _ E) as Hfs.
  split; [exact Hcls|]. split; [exact Hfs|].
  assert (Hshape : to_mongo false d
                   = map stringify_uuid (d_fields d) ++ [("_id", VStr (Uuid.str (d_id d)))]).
  { apply to_mongo_shape. now rewrite (validate_fields_keys _ _ _ Hfs). }
  assert (Hkey : dict_get "_id" (to_mongo false d) = Some (VStr (Uuid.str (d_id d)))).
  { rewrite Hshape. apply dict_get_last.
    now rewrite stringify_keys, (validate_fields_keys _ _ _ Hfs). }
  pose proof (insert_one_effect name _ _ w2 Hkey) as Hins.
  unfold save, get_collection_name. rewrite Hcls, Hc.
  rewrite (bind_ok _ _ w2 w2 name) by reflexivity.
  unfold try_except, bind at 1 2.
  destruct (Mongo.insert_one name (to_mongo false d) w2) as [[[]|e] w3].
  - split; [reflexivity|]. now rewrite Hins, Hdb.
  - split; [now rewrite Hins|]. cbn [existsb]. rewrite orb_false_r.
    now destruct (catches WriteError e).
Qed.

(** C4: with the collection named, [get_or_create] first asks the store for
    one record matching the filter.  If the lookup raises -- an
    [OperationFailure] included -- the same exception leaves
    [get_or_create].  If a non-empty record comes back, nothing is stored
    and the result is the document [from_mongo] reads from it, of the class
    asked for and with the id the record holds (or the exception
    [from_mongo] raises).  If none comes back, an instance is built from
    the filter; when that succeeds and the insert goes through, the
    result is the new instance and its record is the last of the
    collection; when the insert raises, nothing is stored, and the result
    is [None] for a write error and the exception for anything else. *)
Theorem get_or_create_paths (c : cls) (filter_options : dict) (name : string) (w : world) :
  c_collection c = Some name ->
  well_formed c ->
  match Mongo.find_one name filter_options w with
  | (Raise e, w1) =>
      get_or_create c filter_options w = (Raise e, w1)
  | (Ok (Some (r :: data)), w1) =>
      database w1 = database w /\
      match from_mongo c (r :: data) w1 with
      | (Ok found, _) =>
          get_or_create c filter_options w = (Ok (Some found), w1) /\
          d_cls found = c /\
          exists s, dict_get "_id" (r :: data) = Some (VStr s) /\
                    Uuid.of_string s = Some (d_id found)
      | (Raise e, _) => get_or_create c filter_options w = (Raise e, w1)
      end
  | (Ok _, w1) =>
      match construct c filter_options w1 with
      | (Ok new_instance, w2) =>
          d_cls new_instance = c /\
          validate_fields (c_fields c) filter_options = Some (d_fields new_instance) /\
          match Mongo.insert_one name (to_mongo false new_instance) w2 with
          | (Ok _, w3) =>
              get_or_create c filter_options w = (Ok (Some new_instance), w3) /\
              Mongo.records_of name (database w3)
              = Mongo.records_of name (database w) ++ [to_mongo false new_instance]
          | (Raise e, w3) =>
              database w3 = database w /\
              get_or_create c filter_options w
              = if catches WriteError e then (Ok None, w3) else (Raise e, w3)
          end
      | (Raise e, w2) =>
          database w2 = database w /\
          get_or_create c filter_options w = (Raise e, w2)
      end
  end.
Proof.
  intros Hc Hwf.
  pose proof (reads_database _ w (find_one_reads name filter_options)) as Hdb.
  assert (Hcreate : forall o w1,
            Mongo.find_one name filter_options w = (Ok o, w1) ->
            match o with Some (_ :: _) => False | _ => True end ->
            get_or_create c filter_options w
            = (new_instance <- construct c filter_options ;;
               save false new_instance)%py w1).
  { intros o w1 E Ho. unfold get_or_create, get_collection_name. rewrite Hc.
    rewrite (bind_ok _ _ w w name) by reflexivity.
    rewrite try_except_reraise, (bind_ok _ _ _ _ _ E).
    destruct o as [[|r data]|]; [reflexivity|contradiction|reflexivity]. }
  destruct (Mongo.find_one name filter_options w) as [[[[|r data]|]|e] w1] eqn:E;
    cbn [snd] in Hdb.
  - rewrite (Hcreate _ _ eq_refl I), <- Hdb.
    exact (construct_and_save c filter_options name w1 Hc Hwf).
  - split; [exact Hdb|].
    assert (Hgoc : get_or_create c filter_options w
                   = (found <- from_mongo c (r :: data) ;; ret (Some found))%py w1).
    { unfold get_or_create, get_collection_name. rewrite Hc.
      rewrite (bind_ok _ _ w w name) by reflexivity.
      now rewrite try_except_reraise, (bind_ok _ _ _ _ _ E). }
    rewrite Hgoc. unfold bind.
    destruct (from_mongo c (r :: data) w1) as [[found|e] w2] eqn:F.
    + destruct (from_mongo_returns _ _ _ _ _ F) as (-> & Hcls & Hid).
      now repeat split.
    + now rewrite (from_mongo_raises _ _ _ _ _ F).
  - rewrite (Hcreate _ _ eq_refl I), <- Hdb.
    exact (construct_and_save c filter_options name w1 Hc Hwf).
  - unfold get_or_create, get_collection_name. rewrite Hc.
    rewrite (bind_ok _ _ w w name) by reflexivity.
    now rewrite try_except_reraise, (bind_raise _ _ _ _ _ E).
Qed.

(** The three paths on sample worlds: the lookup is refused; the lookup
    finds the first record of [mixed]; the lookup finds nothing in [quiet]
    and a new document is saved, whose record is then the only one. *)
Lemma get_or_create_paths_witness :
  c_collection Documents.ExampleDocument = Some "test_collection" /\
  well_formed Documents.ExampleDocument /\
  get_or_create Documents.ExampleDocument [("name", VStr "Entry 0")] Documents.failing_read
  = (Raise OperationFailure,
     set_store Documents.failing_read
       (mkStore [("test_collection", Documents.mixed_records)] [] 2)) /\
  get_or_create Documents.ExampleDocument [("name", VStr "Entry 0")] Documents.mixed
  = (Ok (Some (mkDoc Documents.ExampleDocument Documents.id_a
                     [("name", VStr "Entry 0")] ["id"; "name"])),
     Documents.mixed) /\
  exists new_instance w3,
    get_or_create Documents.ExampleDocument [("name", VStr "Entry 0")] Documents.quiet
    = (Ok (Some new_instance), w3) /\
    d_fields new_instance = [("name", VStr "Entry 0")] /\
    Mongo.records_of "test_collection" (database w3) = [to_mongo false new_instance].
Proof.
  assert (Hwf : well_formed Documents.ExampleDocument).
  { repeat split; [repeat constructor| |]; simpl; intuition discriminate. }
  split; [reflexivity|]. split; [exact Hwf|]. split; [|split].
  - pose proof (get_or_create_paths Documents.ExampleDocument [("name", VStr "Entry 0")]
                  "test_collection" Documents.failing_read eq_refl Hwf) as H.
    destruct (Mongo.find_one "test_collection" [("name", VStr "Entry 0")]
                Documents.failing_read) as [[o|e] w1] eqn:E;
      vm_compute in E; [discriminate E|].
    injection E as <- <-. exact H.
  - pose proof (get_or_create_paths Documents.ExampleDocument [("name", VStr "Entry 0")]
                  "test_collection" Documents.mixed eq_refl Hwf) as H.
    destruct (Mongo.find_one "test_collection" [("name", VStr "Entry 0")]
                Documents.mixed) as [[[[|r data]|]|e] w1] eqn:E;
      vm_compute in E; try discriminate E.
    injection E as <- <- <-. destruct H as [_ H].
    match type of H with
    | match ?m with _ => _ end => destruct m as [[found|e] w2] eqn:F
    end; vm_compute in F; [|discriminate F].
    injection F as <- _. exact (proj1 H).
  - pose proof (get_or_create_paths Documents.ExampleDocument [("name", VStr "Entry 0")]
                  "test_collection" Documents.quiet eq_refl Hwf) as H.
    destruct (Mongo.find_one "test_collection" [("name", VStr "Entry 0")]
                Documents.quiet) as [[[[|r data]|]|e] w1] eqn:E;
      vm_compute in E; try discriminate E.
    injection E as <-.
    match type of H with
    | match ?m with _ => _ end => destruct m as [[new_instance|e] w2] eqn:F
    end; vm_compute in F; [|discriminate F].
    injection F as <- <-. destruct H as (_ & _ & H).
    match type of H with
    | match ?m with _ => _ end => destruct m as [[[]|e] w3] eqn:G
    end; [|vm_compute in G; discriminate G].
    eexists. exists w3. split; [exact (proj1 H)|]. split; [reflexivity|exact (proj2 H)].
Defined.

End GetOrCreatePaths.

(* ================================================================== *)
(** * Part III: further properties of the persistence layer *)
(* ================================================================== *)

Section Handlers.

Import NoSQLBaseDocument.

(** What leaves a [try] whose handler returns a value was not caught. *)
Lemma try_except_leak {A} (m : M A) (cs : list exn) (a : A) (w : world) (e : exn) :
  fst (try_except m cs (fun _ => ret a) w) = Raise e ->
  existsb (fun c => catches c e) cs = false.
Proof.
  unfold try_except. destruct (m w) as [[x|e'] w']; cbn [fst]; [discriminate|].
  destruct (existsb (fun c => catches c e') cs) eqn:E; cbn [fst ret].
  - discriminate.
  - intros H. injection H as <-. exact E.
Qed.

Lemma with_collection_leak {A} (c : cls) (k : string -> M A) (w : world) (e : exn)
  (P : exn -> Prop) :
  P ValueError ->
  (forall name, fst (k name w) = Raise e -> P e) ->
  fst ((collection <- get_collection_name c ;; k collection)%py w) = Raise e -> P e.
Proof.
  intros Hv Hk. unfold bind, get_collection_name.
  destruct (c_collection c) as [name|]; cbn [ret raise fst].
  - apply Hk.
  - intros H. injection H as <-. exact Hv.
Qed.

(** The read methods never let an operation failure out, and the write
    methods never let a write error out: whatever [find] or [bulk_find]
    raises is not an [OperationFailure] (nor one of its subclasses), whatever
    [save] raises is not a [WriteError], and whatever [bulk_insert] raises is
    neither a [WriteError] nor a [BulkWriteError]. *)
Theorem handlers_never_leak (c : cls) (q : dict) (d : document) (ds : list document)
  (eu : bool) (w : world) (e : exn) :
  (fst (find c q w) = Raise e -> catches OperationFailure e = false) /\
  (fst (bulk_find c q w) = Raise e -> catches OperationFailure e = false) /\
  (fst (save eu d w) = Raise e -> catches WriteError e = false) /\
  (fst (bulk_insert c eu ds w) = Raise e ->
   catches WriteError e = false /\ catches BulkWriteError e = false).
Proof.
  repeat split.
  - apply (with_collection_leak c _ w e (fun e => catches OperationFailure e = false));
      [reflexivity|].
    intros name H. apply try_except_leak in H. cbn [existsb] in H.
    now rewrite orb_false_r in H.
  - apply (with_collection_leak c _ w e (fun e => catches OperationFailure e = false));
      [reflexivity|].
    intros name H. apply try_except_leak in H. cbn [existsb] in H.
    now rewrite orb_false_r in H.
  - apply (with_collection_leak (d_cls d) _ w e (fun e => catches WriteError e = false));
      [reflexivity|].
    intros name H. apply try_except_leak in H. cbn [existsb] in H.
    now rewrite orb_false_r in H.
  - revert H. apply (with_collection_leak c _ w e (fun e => catches WriteError e = false));
      [reflexivity|].
    intros name H. apply try_except_leak in H. cbn [existsb] in H.
    rewrite orb_false_r in H. now apply orb_false_elim in H.
  - revert H. apply (with_collection_leak c _ w e (fun e => catches BulkWriteError e = false));
      [reflexivity|].
    intros name H. apply try_except_leak in H. cbn [existsb] in H.
    rewrite orb_false_r in H. now apply orb_false_elim in H.
Qed.

(** A class without [Settings.name] is refused by every method before the
    store is asked anything: [ValueError], and the world is as it was. *)
Theorem no_collection_name (c : cls) (q : dict) (d : document) (ds : list document)
  (eu : bool) (w : world) :
  c_collection c = None -> d_cls d = c ->
  get_collection_name c w = (Raise ValueError, w) /\
  find c q w = (Raise ValueError, w) /\
  bulk_find c q w = (Raise ValueError, w) /\
  get_or_create c q w = (Raise ValueError, w) /\
  bulk_insert c eu ds w = (Raise ValueError, w) /\
  save eu d w = (Raise ValueError, w).
Proof.
  intros Hc Hd.
  assert (Hn : get_collection_name c w = (Raise ValueError, w)).
  { unfold get_collection_name. now rewrite Hc. }
  repeat split; try exact Hn.
  - unfold find. now rewrite (bind_raise _ _ _ _ _ Hn).
  - unfold bulk_find. now rewrite (bind_raise _ _ _ _ _ Hn).
  - unfold get_or_create. now rewrite (bind_raise _ _ _ _ _ Hn).
  - unfold bulk_insert. now rewrite (bind_raise _ _ _ _ _ Hn).
  - unfold save. rewrite Hd. now rewrite (bind_raise _ _ _ _ _ Hn).
Qed.

Lemma no_collection_name_witness :
  c_collection Documents.Unbound = None /\
  find Documents.Unbound [("name", VStr "x")] Documents.failing_read
  = (Raise ValueError, Documents.failing_read) /\
  save false (mkDoc Documents.Unbound Documents.id_a [("name", VStr "x")] ["name"])
       Documents.failing_read
  = (Raise ValueError, Documents.failing_read).
Proof.
  split; [reflexivity|].
  destruct (no_collection_name Documents.Unbound [("name", VStr "x")]
              (mkDoc Documents.Unbound Documents.id_a [("name", VStr "x")] ["name"])
              [] false Documents.failing_read eq_refl eq_refl)
    as (_ & Hf & _ & _ & _ & Hs).
  split; [exact Hf|exact Hs].
Defined.

End Handlers.

Section SaveOutcomes.

Import NoSQLBaseDocument.

(** An insert that raises has stored nothing. *)
Lemma insert_one_raise (name : string) (r : dict) (w w' : world) (e : exn) :
  Mongo.insert_one name r w = (Raise e, w') -> database w' = database w.
Proof.
  unfold Mongo.insert_one, bind, Mongo.next_outcome, Mongo.store_record.
  destruct (s_faults (w_store w)) as [|[e0|] rest]; cbn [set_store w_store s_db s_faults s_oid].
  - destruct (dict_get "_id" r); [|discriminate].
    destruct (existsb _ _); [|discriminate]. now intros [= _ <-].
  - now intros [= _ <-].
  - destruct (dict_get "_id" r); [|discriminate].
    destruct (existsb _ _); [|discriminate]. now intros [= _ <-].
Qed.

(** [save] by the outcome of the insert: the document itself when the insert
    went through; [None] when it raised a write error (a duplicate key
    included); the exception itself when it raised anything else.  In the
    last two cases the records are as they were. *)
Theorem save_outcomes (eu : bool) (d : document) (name : string) (w : world) :
  c_collection (d_cls d) = Some name ->
  match Mongo.insert_one name (to_mongo eu d) w with
  | (Ok _, w1) => save eu d w = (Ok (Some d), w1)
  | (Raise e, w1) =>
      database w1 = database w /\
      save eu d w = if catches WriteError e then (Ok None, w1) else (Raise e, w1)
  end.
Proof.
  intros Hc. unfold save, get_collection_name. rewrite Hc.
  rewrite (bind_ok _ _ w w name) by reflexivity.
  destruct (Mongo.insert_one name (to_mongo eu d) w) as [[[]|e] w1] eqn:E.
  - apply try_except_ok. now rewrite (bind_ok _ _ _ _ _ E).
  - split; [exact (insert_one_raise _ _ _ _ _ E)|].
    destruct (catches WriteError e) eqn:He.
    + rewrite (try_except_caught _ _ _ w w1 e); [reflexivity| |].
      * now rewrite (bind_raise _ _ _ _ _ E).
      * cbn [existsb]. now rewrite He.
    + apply try_except_passed.
      * now rewrite (bind_raise _ _ _ _ _ E).
      * cbn [existsb]. now rewrite He.
Qed.

(** Saving [sample_article] into the store that already holds it: the store
    refuses the duplicate key, and [save] answers [None]. *)
Lemma save_outcomes_witness :
  c_collection (d_cls Documents.sample_article) = Some "articles" /\
  save false Documents.sample_article Documents.crawled = (Ok None, Documents.crawled).
Proof.
  split; [reflexivity|].
  exact (proj2 (save_outcomes false Documents.sample_article "articles"
                  Documents.crawled eq_refl)).
Defined.

End SaveOutcomes.

(** Closes the cases of a statement about [from_mongo] that the record at
    hand rules out. *)
Ltac from_mongo_cases :=
  repeat split; intros;
  try discriminate; try congruence;
  try match goal with
      | Hv : Some ?x = Some ?v, Hs : forall s, ?v <> VStr s |- _ =>
          injection Hv as <-; exfalso; eapply Hs; reflexivity
      | Hv : Some ?x = Some ?v, Hn : ?v <> VNone |- _ =>
          injection Hv as <-; congruence
      end.

Section ReadingRecords.

Import NoSQLBaseDocument.

(** [from_mongo] on records it cannot read, and what it never does.  An
    empty record gives [ValueError]; a record without ["_id"] gives
    [KeyError]; an ["_id"] that is not text gives [TypeError] (for [None]) or
    [AttributeError]; text that is not a UUID gives [ValueError].  Whatever
    the record, the world is left as it was -- no id is ever generated --
    and a document that is returned has the class asked for and the id
    written in the record. *)
Theorem from_mongo_reads_only (c : cls) (data : dict) (w : world) :
  snd (from_mongo c data w) = w /\
  (data = [] -> fst (from_mongo c data w) = Raise ValueError) /\
  (data <> [] -> dict_get "_id" data = None ->
   fst (from_mongo c data w) = Raise KeyError) /\
  (dict_get "_id" data = Some VNone -> fst (from_mongo c data w) = Raise TypeError) /\
  (forall v, dict_get "_id" data = Some v -> v <> VNone -> (forall s, v <> VStr s) ->
   fst (from_mongo c data w) = Raise AttributeError) /\
  (forall s, dict_get "_id" data = Some (VStr s) -> Uuid.of_string s = None ->
   fst (from_mongo c data w) = Raise ValueError) /\
  (forall d, fst (from_mongo c data w) = Ok d ->
   d_cls d = c /\
   exists s, dict_get "_id" data = Some (VStr s) /\ Uuid.of_string s = Some (d_id d)).
Proof.
  unfold from_mongo. destruct data as [|r data]; cbn [raise fst snd];
    [from_mongo_cases|].
  unfold dict_pop. set (rec := r :: data).
  destruct (dict_get "_id" rec) as [v|] eqn:Hid; cbn [raise fst snd];
    [|from_mongo_cases].
  unfold bind, lift, uuid_of_value.
  assert (Hw : forall u, snd (construct c (dict_set "id" (VUuid u) (dict_del "_id" rec)) w) = w).
  { intros u. apply (construct_with_id _ _ (VUuid u)). apply dict_get_set_same. }
  destruct v as [| | |s| | | |]; try solve [cbn [fst snd]; from_mongo_cases].
  destruct (Uuid.of_string s) as [u|] eqn:Hu; cbn [fst snd]; [|from_mongo_cases].
  specialize (Hw u).
  destruct (construct c (dict_set "id" (VUuid u) (dict_del "_id" rec)) w) as [[d|e] w'] eqn:E;
    cbn [fst snd] in *; [|from_mongo_cases].
  assert (Hc : d_cls d = c) by exact (construct_class _ _ _ _ _ E).
  assert (Hi : d_id d = u).
  { exact (construct_id c _ u w w' d (dict_get_set_same "id" (VUuid u) _) E). }
  from_mongo_cases. exists s. split; [reflexivity|congruence].
Qed.

End ReadingRecords.

Section UnsetFields.

Import NoSQLBaseDocument.

Lemma filter_keys (f : string * value -> bool) (k : string) (d : dict) :
  In k (map fst (filter f d)) -> In k (map fst d).
Proof.
  induction d as [|[k' v] d IH]; [intros []|].
  cbn [filter]. destruct (f (k', v)); cbn [map fst In]; tauto.
Qed.

Lemma from_mongo_without_key (c : cls) (data : dict) (w : world) :
  dict_get "_id" data = None ->
  from_mongo c data w = (Raise (match data with [] => ValueError | _ => KeyError end), w).
Proof.
  intros H. unfold from_mongo, dict_pop. destruct data; [reflexivity|]. now rewrite H.
Qed.

(** [to_mongo(exclude_unset=True)] on a valid instance.  When the id was
    given to the constructor the record carries it under ["_id"] as text.
    When the id was drawn by the default factory it is not among the fields
    set, and the record has neither ["_id"] nor ["id"]: [from_mongo] cannot
    read such a record back ([ValueError] if it is empty, [KeyError]
    otherwise). *)
Theorem to_mongo_exclude_unset (d : document) (w : world) :
  valid_document d ->
  (existsb (String.eqb "id") (d_set d) = true ->
   dict_get "_id" (to_mongo true d) = Some (VStr (Uuid.str (d_id d))) /\
   dict_get "id" (to_mongo true d) = None) /\
  (existsb (String.eqb "id") (d_set d) = false ->
   dict_get "_id" (to_mongo true d) = None /\
   dict_get "id" (to_mongo true d) = None /\
   (fst (from_mongo (d_cls d) (to_mongo true d) w) = Raise ValueError \/
    fst (from_mongo (d_cls d) (to_mongo true d) w) = Raise KeyError)).
Proof.
  intros ((Hnd & Hnoid & Hno) & Hv & H4 & Hf).
  pose proof (field_keys _ _ Hf) as Hkeys.
  set (keep := fun kv : string * value => existsb (String.eqb (fst kv)) (d_set d)).
  assert (Hsub : forall k, ~ In k (map fst (d_fields d)) ->
                           ~ In k (map fst (filter keep (d_fields d)))).
  { intros k Hk Hin. apply Hk. exact (filter_keys _ _ _ Hin). }
  assert (Hno' : ~ In "_id" (map fst (d_fields d))) by now rewrite Hkeys.
  assert (Hnoid' : ~ In "id" (map fst (d_fields d))) by now rewrite Hkeys.
  split; intros Hset.
  - assert (E : to_mongo true d
                = map stringify_uuid (filter keep (d_fields d))
                  ++ [("_id", VStr (Uuid.str (d_id d)))]).
    { unfold to_mongo, model_dump. cbn [filter fst]. fold keep. rewrite Hset.
      unfold dict_mem, dict_pop.
      cbn [dict_get String.eqb Ascii.eqb Bool.eqb dict_del].
      rewrite (dict_get_absent "_id") by (apply Hsub; exact Hno').
      cbn [negb andb].
      rewrite dict_set_absent by (apply Hsub; exact Hno').
      now rewrite map_app. }
    rewrite E. split.
    + apply dict_get_last. rewrite stringify_keys. apply Hsub. exact Hno'.
    + apply dict_get_absent. rewrite map_app, stringify_keys. cbn [map fst].
      intros Hin. apply in_app_or in Hin as [Hin|[Hin|[]]]; [|discriminate].
      exact (Hsub _ Hnoid' Hin).
  - assert (E : to_mongo true d = map stringify_uuid (filter keep (d_fields d))).
    { unfold to_mongo, model_dump. cbn [filter fst]. fold keep. rewrite Hset.
      unfold dict_mem.
      rewrite (dict_get_absent "_id") by (apply Hsub; exact Hno').
      rewrite (dict_get_absent "id") by (apply Hsub; exact Hnoid').
      reflexivity. }
    assert (Hk : dict_get "_id" (to_mongo true d) = None).
    { rewrite E. apply dict_get_absent. rewrite stringify_keys. apply Hsub. exact Hno'. }
    split; [exact Hk|]. split.
    + rewrite E. apply dict_get_absent. rewrite stringify_keys. apply Hsub. exact Hnoid'.
    + rewrite (from_mongo_without_key _ _ w Hk). cbn [fst].
      destruct (to_mongo true d); [now left|now right].
Qed.

Lemma to_mongo_exclude_unset_witness :
  valid_document Documents.defaulted_example /\
  to_mongo true Documents.defaulted_example = [("name", VStr "Test Entry")] /\
  fst (from_mongo Documents.ExampleDocument (to_mongo true Documents.defaulted_example)
         Documents.quiet) = Raise KeyError.
Proof.
  assert (Hd : valid_document Documents.defaulted_example).
  { unfold valid_document, well_formed. cbn.
    repeat split; try reflexivity.
    - repeat constructor; simpl; intuition discriminate.
    - intuition discriminate.
    - intuition discriminate.
    - repeat constructor. }
  split; [exact Hd|]. split; [reflexivity|].
  destruct (proj2 (to_mongo_exclude_unset Documents.defaulted_example Documents.quiet Hd)
              eq_refl) as (_ & _ & [H|H]).
  - discriminate H.
  - exact H.
Defined.

End UnsetFields.

Section Hashing.

Import NoSQLBaseDocument.

(** [__hash__] agrees with [__eq__]: documents that compare equal have the
    same hash, so they meet in a set or as dictionary keys.  The converse
    does not hold: documents of unrelated classes with one id hash alike and
    are unequal. *)
Theorem hash_respects_eq :
  (forall a b : document, eq a b = true -> hash a = hash b) /\
  (exists a b : document, hash a = hash b /\ eq a b = false /\ eq b a = false).
Proof.
  split.
  - intros a b H. unfold eq in H.
    destruct (negb (isinstance b (d_cls a))); [discriminate|].
    apply N.eqb_eq in H. unfold hash. now rewrite H.
  - exists (mkDoc Documents.ExampleDocument Documents.id_a [("name", VStr "x")] ["name"]),
           Documents.sample_article.
    repeat split.
Qed.

End Hashing.

Section SaveAndFind.

Import NoSQLBaseDocument.

(** A text field of a valid instance is stored as it is. *)
Lemma dict_get_to_mongo_text (d : document) (k s : string) :
  valid_document d -> In (k, VStr s) (d_fields d) ->
  dict_get k (to_mongo false d) = Some (VStr s).
Proof.
  intros Hd Hin. pose proof Hd as ((Hnd & Hnoid & Hno) & Hv & H4 & Hf).
  pose proof (field_keys _ _ Hf) as Hkeys.
  rewrite (to_mongo_default d Hd). apply dict_get_present.
  - rewrite map_app, stringify_keys, Hkeys. cbn [map fst]. now apply NoDup_snoc.
  - apply in_or_app. left. apply (in_map stringify_uuid) in Hin. exact Hin.
Qed.

(** A filter made of text fields of a valid instance matches its record. *)
Lemma matches_own_record (q : dict) (d : document) :
  valid_document d ->
  (forall k v, In (k, v) q -> exists s, v = VStr s /\ In (k, v) (d_fields d)) ->
  Mongo.matches q (to_mongo false d) = true.
Proof.
  intros Hd Hq. unfold Mongo.matches. apply forallb_forall. intros [k v] Hin.
  destruct (Hq k v Hin) as (s & -> & Hf). cbn [fst snd].
  rewrite (dict_get_to_mongo_text d k s Hd Hf). cbn [value_eqb]. apply String.eqb_refl.
Qed.

(** A lookup finds the record saved last when no older record matches. *)
Lemma find_last_saved (q : dict) (d : document) (name : string) (rs : list dict) (w : world) :
  c_collection (d_cls d) = Some name ->
  s_faults (w_store w) = [] ->
  Mongo.records_of name (database w) = rs ++ [to_mongo false d] ->
  filter (Mongo.matches q) rs = [] ->
  Mongo.matches q (to_mongo false d) = true ->
  valid_document d ->
  exists names,
    find (d_cls d) q w = (Ok (Some (mkDoc (d_cls d) (d_id d) (d_fields d) names)), w).
Proof.
  intros Hc Hq Hrs Hnone Hmatch Hd.
  destruct (from_mongo_to_mongo d w Hd) as [names Hback]. exists names.
  unfold find, get_collection_name. rewrite Hc.
  rewrite (bind_ok _ _ w w name) by reflexivity.
  apply try_except_ok.
  rewrite (bind_ok _ _ _ _ _ (find_one_quiet name _ w Hq)), Hrs.
  rewrite (find_last_of_filter _ _ _ Hnone Hmatch).
  destruct (to_mongo false d) as [|r data] eqn:E.
  - rewrite (to_mongo_default d Hd) in E. now destruct (map stringify_uuid (d_fields d)).
  - now rewrite (bind_ok _ _ _ _ _ Hback).
Qed.

(** [save] followed by [find]: on a store that answers, a valid document
    with an unused id is saved, and a lookup by text fields of the document
    that no older record matches returns a document of the same class with
    the same id and the same fields, equal to the one saved. *)
Theorem save_then_find (d : document) (q : dict) (name : string) (w : world) :
  c_collection (d_cls d) = Some name ->
  s_faults (w_store w) = [] ->
  valid_document d ->
  existsb (Mongo.same_key (VStr (Uuid.str (d_id d))))
          (Mongo.records_of name (database w)) = false ->
  (forall k v, In (k, v) q -> exists s, v = VStr s /\ In (k, v) (d_fields d)) ->
  filter (Mongo.matches q) (Mongo.records_of name (database w)) = [] ->
  exists w1 d',
    save false d w = (Ok (Some d), w1) /\
    find (d_cls d) q w1 = (Ok (Some d'), w1) /\
    d_cls d' = d_cls d /\ d_id d' = d_id d /\ d_fields d' = d_fields d /\
    eq d d' = true /\ eq d' d = true.
Proof.
  intros Hc Hq Hd Hfresh Hfilter Hnone.
  set (w1 := set_store w (with_record name (to_mongo false d) w)).
  assert (Hrs : Mongo.records_of name (database w1)
                = Mongo.records_of name (database w) ++ [to_mongo false d]).
  { unfold w1, with_record, database. cbn [set_store w_store Mongo.set_db s_db].
    apply records_of_put. }
  destruct (find_last_saved q d name _ w1 Hc Hq Hrs Hnone
              (matches_own_record q d Hd Hfilter) Hd) as [names Hfind].
  exists w1, (mkDoc (d_cls d) (d_id d) (d_fields d) names).
  split; [exact (save_fresh d name w Hc Hq Hd Hfresh)|].
  split; [exact Hfind|].
  cbn [d_cls d_id d_fields]. repeat split.
  - unfold eq. cbn [d_cls d_id]. unfold isinstance, issubclass. cbn [d_cls existsb].
    rewrite N.eqb_refl. cbn [orb negb]. apply N.eqb_refl.
  - unfold eq. cbn [d_cls d_id]. rewrite isinstance_own_class. cbn [negb]. apply N.eqb_refl.
Qed.

Lemma save_then_find_witness :
  exists w1 d',
    save false Documents.defaulted_example Documents.quiet
    = (Ok (Some Documents.defaulted_example), w1) /\
    find Documents.ExampleDocument [("name", VStr "Test Entry")] w1 = (Ok (Some d'), w1) /\
    d_id d' = Documents.id_a /\ d_fields d' = [("name", VStr "Test Entry")].
Proof.
  assert (Hd : valid_document Documents.defaulted_example).
  { unfold valid_document, well_formed. cbn.
    repeat split; try reflexivity.
    - repeat constructor; simpl; intuition discriminate.
    - intuition discriminate.
    - intuition discriminate.
    - repeat constructor. }
  destruct (save_then_find Documents.defaulted_example [("name", VStr "Test Entry")]
              "test_collection" Documents.quiet eq_refl eq_refl Hd eq_refl)
    as (w1 & d' & Hs & Hf & _ & Hi & Hfs & _).
  - intros k v [E|[]]. injection E as <- <-. exists "Test Entry".
    split; [reflexivity|now left].
  - reflexivity.
  - exists w1, d'. now repeat split.
Defined.

End SaveAndFind.

Section GetOrCreateTwice.

Import NoSQLBaseDocument.

(** Text fields taken from the keyword arguments are the arguments'
    values, and they are well typed. *)
Lemma validate_text_fields (fs : list (string * ftype)) (kwargs vals : dict) :
  Forall (fun f => snd f = TStr) fs ->
  validate_fields fs kwargs = Some vals ->
  Forall2 (fun ft kv => fst ft = fst kv /\ has_type (snd ft) (snd kv)) fs vals /\
  (forall k v, In k (map fst fs) -> dict_get k kwargs = Some v -> In (k, v) vals).
Proof.
  revert vals. induction fs as [|[n t] fs IH]; intros vals Hall Hval.
  - injection Hval as <-. split; [constructor|intros k v []].
  - inversion Hall as [|? ? Ht Hall']; subst. cbn [snd] in Ht. subst t.
    cbn [validate_fields] in Hval.
    destruct (dict_get n kwargs) as [v0|] eqn:Hn; [|discriminate].
    destruct (validate_fields fs kwargs) as [rest|] eqn:Hrest; [|discriminate].
    destruct v0; cbn [validate] in Hval; try discriminate.
    injection Hval as <-.
    destruct (IH rest Hall' eq_refl) as [IH1 IH2]. split.
    + constructor; [split; [reflexivity|exact I]|exact IH1].
    + intros k v Hk Hget. cbn [map fst In] in Hk. destruct Hk as [<-|Hk].
      * left. congruence.
      * right. now apply IH2.
Qed.

(** [get_or_create] twice with one filter.  The class declares text fields
    only, and the filter gives a value for each of them and names nothing
    else.  On a store that answers and holds no matching record, the first
    call saves a new document and returns it; the second call returns a
    document with the same id and fields, and adds no record. *)
Theorem get_or_create_twice (c : cls) (q fs : dict) (name : string) (w : world) :
  c_collection c = Some name ->
  well_formed c ->
  Forall (fun f => snd f = TStr) (c_fields c) ->
  NoDup (map fst q) ->
  (forall k, In k (map fst q) -> In k (map fst (c_fields c))) ->
  validate_fields (c_fields c) q = Some fs ->
  s_faults (w_store w) = [] ->
  filter (Mongo.matches q) (Mongo.records_of name (database w)) = [] ->
  existsb (Mongo.same_key (VStr (Uuid.str (next_uuid w))))
          (Mongo.records_of name (database w)) = false ->
  exists d d' w1,
    get_or_create c q w = (Ok (Some d), w1) /\
    get_or_create c q w1 = (Ok (Some d'), w1) /\
    d_id d = next_uuid w /\ d_fields d = fs /\
    d_id d' = d_id d /\ d_fields d' = d_fields d /\
    Mongo.records_of name (database w1)
    = Mongo.records_of name (database w) ++ [to_mongo false d].
Proof.
  intros Hc Hwf Htext Hnd Hkeys Hfs Hq Hnone Hfresh.
  destruct (validate_text_fields _ _ _ Htext Hfs) as [Htyped Hin].
  assert (Hnoid : dict_get "id" q = None).
  { apply dict_get_absent. intros H. apply Hkeys in H. now destruct Hwf as (_ & Hno & _). }
  set (d := mkDoc c (next_uuid w) fs (filter (fun n => dict_mem n q) (field_names c))).
  set (w' := set_drawn w (S (w_drawn w))).
  assert (Hd : valid_document d).
  { repeat split; try exact Htyped; try apply Hwf.
    - apply uuid4_of_random_valid.
    - apply uuid4_of_random_is_uuid4. }
  assert (Hnew : construct c q w = (Ok d, w')).
  { unfold construct, bind. rewrite Hnoid. cbn [uuid4 ret]. now rewrite Hfs. }
  set (w1 := set_store w' (with_record name (to_mongo false d) w')).
  assert (Hsave : save false d w' = (Ok (Some d), w1))
    by exact (save_fresh d name w' Hc Hq Hd Hfresh).
  assert (Hrs : Mongo.records_of name (database w1)
                = Mongo.records_of name (database w) ++ [to_mongo false d]).
  { unfold w1, with_record, database. cbn [set_store w_store Mongo.set_db s_db].
    apply records_of_put. }
  assert (Hmatch : Mongo.matches q (to_mongo false d) = true).
  { apply matches_own_record; [exact Hd|]. intros k v Hkv.
    assert (Hget : dict_get k q = Some v) by now apply dict_get_present.
    assert (Hfield : In (k, v) fs).
    { apply Hin; [|exact Hget]. apply Hkeys. now apply (in_map fst) in Hkv. }
    split with (x := match v with VStr s => s | _ => "" end).
    split; [|exact Hfield].
    clear - Htyped Htext Hfield.
    induction Htyped as [|[n t] [k0 v0] fs0 vals [Hk Ht] _ IH]; [contradiction|].
    inversion Htext as [|? ? Hstr Htext']; subst. cbn [snd fst] in *. subst t.
    destruct Hfield as [E|Hfield].
    - injection E as -> ->. now destruct v.
    - now apply IH. }
  destruct (from_mongo_to_mongo d w1 Hd) as [names Hback].
  exists d, (mkDoc c (next_uuid w) fs names), w1.
  split; [|split; [|now repeat split]].
  - unfold get_or_create, get_collection_name. rewrite Hc.
    rewrite (bind_ok _ _ w w name) by reflexivity.
    rewrite try_except_reraise, (bind_ok _ _ _ _ _ (find_one_quiet name q w Hq)).
    rewrite (find_none_of_filter _ _ Hnone).
    now rewrite (bind_ok _ _ _ _ _ Hnew).
  - unfold get_or_create, get_collection_name. rewrite Hc.
    rewrite (bind_ok _ _ w1 w1 name) by reflexivity.
    rewrite try_except_reraise, (bind_ok _ _ _ _ _ (find_one_quiet name q w1 Hq)), Hrs.
    rewrite (find_last_of_filter _ _ _ Hnone Hmatch).
    destruct (to_mongo false d) as [|r data] eqn:E.
    + rewrite (to_mongo_default d Hd) in E. now destruct (map stringify_uuid (d_fields d)).
    + now rewrite (bind_ok _ _ _ _ _ Hback).
Qed.

Lemma get_or_create_twice_witness :
  exists d d' w1,
    get_or_create Documents.ExampleDocument [("name", VStr "Test Entry")] Documents.quiet
    = (Ok (Some d), w1) /\
    get_or_create Documents.ExampleDocument [("name", VStr "Test Entry")] w1
    = (Ok (Some d'), w1) /\
    d_id d' = d_id d /\
    List.length (Mongo.records_of "test_collection" (database w1)) = 1.
Proof.
  destruct (get_or_create_twice Documents.ExampleDocument [("name", VStr "Test Entry")]
              [("name", VStr "Test Entry")] "test_collection" Documents.quiet)
    as (d & d' & w1 & H1 & H2 & _ & _ & Hid & _ & Hrs); try reflexivity.
  - repeat split; [repeat constructor| |]; simpl; intuition discriminate.
  - repeat constructor.
  - repeat constructor. simpl. tauto.
  - simpl. tauto.
  - exists d, d', w1. repeat split; try assumption. now rewrite Hrs.
Defined.

End GetOrCreateTwice.

Section BulkRoundTrip.

Import NoSQLBaseDocument.

(** The text of an identifier determines it. *)
Lemma str_determines (u1 u2 : Uuid.t) :
  Uuid.valid u1 -> Uuid.valid u2 -> Uuid.str u1 = Uuid.str u2 -> u1 = u2.
Proof.
  intros H1 H2 E. pose proof (of_string_str u1 H1) as P1.
  rewrite E, (of_string_str u2 H2) in P1. congruence.
Qed.

Lemma primary_key (d : document) :
  valid_document d ->
  dict_get "_id" (to_mongo false d) = Some (VStr (Uuid.str (d_id d))).
Proof.
  intros Hd. pose proof Hd as ((Hnd & Hnoid & Hno) & Hv & H4 & Hf).
  rewrite (to_mongo_default d Hd). apply dict_get_last.
  now rewrite stringify_keys, (field_keys _ _ Hf).
Qed.

Lemma same_key_other (d e : document) :
  valid_document d -> valid_document e -> d_id d <> d_id e ->
  Mongo.same_key (VStr (Uuid.str (d_id d))) (to_mongo false e) = false.
Proof.
  intros Hd He Hne. unfold Mongo.same_key. rewrite (primary_key e He). cbn [value_eqb].
  apply String.eqb_neq. intros E. apply Hne.
  apply str_determines; [apply Hd|apply He|exact E].
Qed.

(** Storing documents with distinct, unused ids appends their records in
    order. *)
Lemma store_records_fresh (name : string) (ds : list document) (w : world) :
  Forall valid_document ds ->
  NoDup (map d_id ds) ->
  (forall d, In d ds ->
     existsb (Mongo.same_key (VStr (Uuid.str (d_id d))))
             (Mongo.records_of name (database w)) = false) ->
  exists w1,
    Mongo.store_records name (map (to_mongo false) ds) w = (Ok tt, w1) /\
    Mongo.records_of name (database w1)
    = Mongo.records_of name (database w) ++ map (to_mongo false) ds /\
    s_faults (w_store w1) = s_faults (w_store w).
Proof.
  revert w. induction ds as [|d ds IH]; intros w Hall Hnd Hfresh.
  - exists w. cbn [map Mongo.store_records ret]. now rewrite app_nil_r.
  - inversion Hall as [|? ? Hd Hall']; subst.
    inversion Hnd as [|? ? Hout Hnd']; subst.
    set (w' := set_store w (with_record name (to_mongo false d) w)).
    assert (Hone : Mongo.store_record name (to_mongo false d) BulkWriteError w = (Ok tt, w')).
    { unfold Mongo.store_record. fold (database w).
      now rewrite (primary_key d Hd), (Hfresh d (or_introl eq_refl)). }
    assert (Hrs : Mongo.records_of name (database w')
                  = Mongo.records_of name (database w) ++ [to_mongo false d]).
    { unfold w', with_record, database. cbn [set_store w_store Mongo.set_db s_db].
      apply records_of_put. }
    destruct (IH w' Hall' Hnd') as (w1 & Hrun & Hrs1 & Hq1).
    { intros e He. rewrite Hrs, existsb_app, (Hfresh e (or_intror He)). cbn [existsb orb].
      rewrite orb_false_r. apply same_key_other.
      - rewrite Forall_forall in Hall'. now apply Hall'.
      - exact Hd.
      - intros E. apply Hout. rewrite <- E. now apply in_map. }
    exists w1. cbn [map Mongo.store_records].
    rewrite (bind_ok _ _ _ _ _ Hone). split; [exact Hrun|]. split.
    + rewrite Hrs1, Hrs, <- app_assoc. reflexivity.
    + exact Hq1.
Qed.

(** Records written by [to_mongo] are all read back. *)
Lemma from_mongo_each_back (c : cls) (ds : list document) (w : world) :
  Forall valid_document ds ->
  Forall (fun d => d_cls d = c) ds ->
  exists ds',
    from_mongo_each c (map (to_mongo false) ds) w = (Ok ds', w) /\
    map d_id ds' = map d_id ds /\ map d_fields ds' = map d_fields ds.
Proof.
  induction ds as [|d ds IH]; intros Hall Hcls.
  - now exists [].
  - inversion Hall as [|? ? Hd Hall']; subst. inversion Hcls as [|? ? Hc Hcls']; subst.
    destruct (IH Hall' Hcls') as (ds' & Hrun & Hids & Hfs).
    destruct (from_mongo_to_mongo d w Hd) as [names Hback].
    exists (mkDoc (d_cls d) (d_id d) (d_fields d) names :: ds').
    cbn [map from_mongo_each].
    rewrite (bind_ok _ _ _ _ _ Hback), (bind_ok _ _ _ _ _ Hrun).
    cbn [ret map d_id d_fields]. now rewrite Hids, Hfs.
Qed.

Lemma filter_all {A} (f : A -> bool) (l : list A) :
  (forall a, In a l -> f a = true) -> filter f l = l.
Proof.
  induction l as [|a l IH]; intros H; [reflexivity|].
  cbn [filter]. rewrite (H a (or_introl eq_refl)). f_equal. apply IH.
  intros b Hb. apply H. now right.
Qed.

(** [bulk_insert] followed by [bulk_find].  On a store that answers, valid
    documents of one class with distinct ids that are not yet primary keys
    are all inserted; a query by text fields they share, which no older
    record matches, then returns exactly these documents -- same ids, same
    fields, in insertion order. *)
Theorem bulk_insert_then_bulk_find (c : cls) (ds : list document) (q : dict)
  (name : string) (w : world) :
  c_collection c = Some name ->
  s_faults (w_store w) = [] ->
  Forall valid_document ds ->
  Forall (fun d => d_cls d = c) ds ->
  NoDup (map d_id ds) ->
  (forall d, In d ds ->
     existsb (Mongo.same_key (VStr (Uuid.str (d_id d))))
             (Mongo.records_of name (database w)) = false) ->
  (forall d k v, In d ds -> In (k, v) q -> exists s, v = VStr s /\ In (k, v) (d_fields d)) ->
  filter (Mongo.matches q) (Mongo.records_of name (database w)) = [] ->
  exists w1 ds',
    bulk_insert c false ds w = (Ok true, w1) /\
    bulk_find c q w1 = (Ok ds', w1) /\
    map d_id ds' = map d_id ds /\ map d_fields ds' = map d_fields ds /\
    List.length ds' = List.length ds.
Proof.
  intros Hc Hq Hall Hcls Hnd Hfresh Hshared Hnone.
  destruct (store_records_fresh name ds w Hall Hnd Hfresh) as (w1 & Hrun & Hrs & Hq1).
  destruct (from_mongo_each_back c ds w1 Hall Hcls) as (ds' & Hback & Hids & Hfs).
  exists w1, ds'. split; [|split; [|split; [exact Hids|split; [exact Hfs|]]]].
  - unfold bulk_insert, get_collection_name. rewrite Hc.
    rewrite (bind_ok _ _ w w name) by reflexivity.
    apply try_except_ok.
    assert (Hins : Mongo.insert_many name (map (to_mongo false) ds) w = (Ok tt, w1)).
    { unfold Mongo.insert_many.
      now rewrite (bind_ok _ _ _ _ _ (next_outcome_quiet w Hq)). }
    now rewrite (bind_ok _ _ _ _ _ Hins).
  - unfold bulk_find, get_collection_name. rewrite Hc.
    rewrite (bind_ok _ _ w1 w1 name) by reflexivity.
    apply try_except_ok.
    assert (Hfind : Mongo.find name q w1 = (Ok (map (to_mongo false) ds), w1)).
    { unfold Mongo.find.
      rewrite (bind_ok _ _ _ _ _ (next_outcome_quiet w1 (eq_trans Hq1 Hq))).
      fold (database w1). rewrite Hrs, filter_app, Hnone. cbn [app].
      rewrite filter_all; [reflexivity|].
      intros r Hr. apply in_map_iff in Hr as (d & <- & Hd).
      apply matches_own_record.
      - rewrite Forall_forall in Hall. now apply Hall.
      - intros k v Hkv. exact (Hshared d k v Hd Hkv). }
    now rewrite (bind_ok _ _ _ _ _ Hfind).
  - rewrite <- (length_map d_id ds'), Hids. apply length_map.
Qed.

Lemma example_valid (id : Uuid.t) (name : string) (names : list string) :
  Uuid.valid id -> Uuid.is_uuid4 id = true ->
  valid_document (mkDoc Documents.ExampleDocument id [("name", VStr name)] names).
Proof.
  intros Hv H4. unfold valid_document, well_formed. cbn.
  repeat split; try assumption.
  - repeat constructor; simpl; intuition discriminate.
  - intuition discriminate.
  - intuition discriminate.
  - repeat constructor.
Qed.

Lemma entries_valid : Forall valid_document Documents.entries.
Proof.
  unfold Documents.entries.
  constructor; [apply example_valid; reflexivity|].
  constructor; [apply example_valid; reflexivity|constructor].
Qed.

Lemma bulk_insert_then_bulk_find_witness :
  exists w1 ds',
    bulk_insert Documents.ExampleDocument false Documents.entries Documents.quiet
    = (Ok true, w1) /\
    bulk_find Documents.ExampleDocument [("name", VStr "Entry")] w1 = (Ok ds', w1) /\
    map d_id ds' = [Documents.id_a; Documents.id_b] /\ List.length ds' = 2.
Proof.
  destruct (bulk_insert_then_bulk_find Documents.ExampleDocument Documents.entries
              [("name", VStr "Entry")] "test_collection" Documents.quiet
              eq_refl eq_refl entries_valid)
    as (w1 & ds' & H1 & H2 & Hids & _ & Hlen).
  - repeat constructor.
  - constructor; [|constructor; [intros []|constructor]].
    intros [E|[]]. vm_compute in E. discriminate E.
  - intros d _. reflexivity.
  - intros d k v Hd [E|[]]. injection E as <- <-. exists "Entry". split; [reflexivity|].
    destruct Hd as [<-|[<-|[]]]; now left.
  - reflexivity.
  - exists w1, ds'. now repeat split.
Defined.

Lemma store_records_prefix (name : string) (l1 l2 : list dict) (w w1 : world) :
  Mongo.store_records name l1 w = (Ok tt, w1) ->
  Mongo.store_records name (l1 ++ l2) w = Mongo.store_records name l2 w1.
Proof.
  revert w. induction l1 as [|r l1 IH]; intros w H.
  - cbn [Mongo.store_records ret] in H. now injection H as <-.
  - cbn [app Mongo.store_records] in *. unfold bind in *.
    destruct (Mongo.store_record name r BulkWriteError w) as [[[]|e] w'];
      [now apply IH|discriminate].
Qed.

(** [bulk_insert] is not all or nothing.  When the documents [ds] go in and
    the next one has a primary key that is already there -- in the collection
    or among [ds] -- the answer is [False], nothing after it is stored, and
    the records of [ds] stay. *)
Theorem bulk_insert_stops_at_duplicate (c : cls) (ds : list document) (d : document)
  (rest : list document) (name : string) (w : world) :
  c_collection c = Some name ->
  s_faults (w_store w) = [] ->
  Forall valid_document ds ->
  NoDup (map d_id ds) ->
  (forall e, In e ds ->
     existsb (Mongo.same_key (VStr (Uuid.str (d_id e))))
             (Mongo.records_of name (database w)) = false) ->
  valid_document d ->
  existsb (Mongo.same_key (VStr (Uuid.str (d_id d))))
          (Mongo.records_of name (database w) ++ map (to_mongo false) ds) = true ->
  exists w1,
    bulk_insert c false (ds ++ d :: rest) w = (Ok false, w1) /\
    Mongo.records_of name (database w1)
    = Mongo.records_of name (database w) ++ map (to_mongo false) ds.
Proof.
  intros Hc Hq Hall Hnd Hfresh Hd Hdup.
  destruct (store_records_fresh name ds w Hall Hnd Hfresh) as (w1 & Hrun & Hrs & _).
  exists w1. split; [|exact Hrs].
  assert (Hins : Mongo.insert_many name (map (to_mongo false) (ds ++ d :: rest)) w
                 = (Raise BulkWriteError, w1)).
  { unfold Mongo.insert_many.
    rewrite (bind_ok _ _ _ _ _ (next_outcome_quiet w Hq)).
    rewrite map_app, (store_records_prefix _ _ _ _ _ Hrun).
    cbn [map Mongo.store_records]. unfold bind, Mongo.store_record.
    fold (database w1). now rewrite (primary_key d Hd), Hrs, Hdup. }
  unfold bulk_insert, get_collection_name. rewrite Hc.
  rewrite (bind_ok _ _ w w name) by reflexivity.
  rewrite (try_except_caught _ _ _ w w1 BulkWriteError); [reflexivity| |reflexivity].
  now rewrite (bind_raise _ _ _ _ _ Hins).
Qed.

(** The same document twice in one batch: [False], and one record. *)
Lemma bulk_insert_stops_at_duplicate_witness :
  exists w1,
    bulk_insert Documents.ExampleDocument false
      ([Documents.defaulted_example] ++ Documents.defaulted_example :: Documents.entries)
      Documents.quiet = (Ok false, w1) /\
    Mongo.records_of "test_collection" (database w1)
    = [NoSQLBaseDocument.to_mongo false Documents.defaulted_example].
Proof.
  assert (Hd : valid_document Documents.defaulted_example)
    by (apply example_valid; reflexivity).
  destruct (bulk_insert_stops_at_duplicate Documents.ExampleDocument
              [Documents.defaulted_example] Documents.defaulted_example Documents.entries
              "test_collection" Documents.quiet eq_refl eq_refl)
    as (w1 & H1 & H2).
  - constructor; [exact Hd|constructor].
  - constructor; [intros []|constructor].
  - intros e _. reflexivity.
  - exact Hd.
  - reflexivity.
  - exists w1. split; [exact H1|exact H2].
Defined.

End BulkRoundTrip.

(* ================================================================== *)
(** * Part IV: further properties of the crawlers *)
(* ================================================================== *)

Section FailedCrawl.

Import NoSQLBaseDocument.

Lemma raises_clean_bind {A B} (m : M A) (k : A -> M B) :
  keeps database m -> (forall a, raises_clean (k a)) -> raises_clean (bind m k).
Proof.
  intros Hm Hk w e w'. unfold bind. specialize (Hm w).
  destruct (m w) as [[a|e0] w1]; cbn [snd] in Hm.
  - intros H. rewrite <- Hm. exact (Hk a w1 e w' H).
  - intros [= _ <-]. exact Hm.
Qed.

Lemma raises_clean_ret {A} (a : A) : raises_clean (ret a).
Proof. intros w e w' H. discriminate H. Qed.

Lemma keeps_database {A} (m : M A) : keeps persisted m -> keeps database m.
Proof.
  apply (keeps_proj persisted database (fun x => fst (fst x))). reflexivity.
Qed.

Lemma save_raises_clean (eu : bool) (d : document) : raises_clean (save eu d).
Proof.
  intros w e w'. unfold save, get_collection_name, bind.
  destruct (c_collection (d_cls d)) as [name|]; cbn [ret raise];
    [|now intros [= _ <-]].
  unfold try_except, bind.
  destruct (Mongo.insert_one name (to_mongo eu d) w) as [[[]|e0] w1] eqn:E;
    cbn [ret]; [discriminate|].
  destruct (existsb _ _); [discriminate|].
  intros [= _ <-]. exact (insert_one_raise _ _ _ _ _ E).
Qed.

Lemma save_then_return_clean (d : document) :
  raises_clean (save false d ;;; ret tt)%py.
Proof.
  intros w e w'. unfold bind.
  destruct (save false d w) as [[o|e0] w1] eqn:E; cbn [ret]; [discriminate|].
  intros [= _ <-]. exact (save_raises_clean false d w e0 w1 E).
Qed.

Lemma article_extract_clean (model : cls) (link : string) (usr : option user) :
  raises_clean (CustomArticleCrawler.extract model link usr).
Proof.
  unfold CustomArticleCrawler.extract.
  apply raises_clean_bind; [apply keeps_database, find_reads|].
  intros [old|]; [apply raises_clean_ret|].
  apply raises_clean_bind; [intros w; reflexivity|]. intros pg. cbv zeta.
  apply raises_clean_bind; [intros w; reflexivity|]. intros platform.
  apply raises_clean_bind; [apply kwargs_user_keeps|]. intros u.
  apply raises_clean_bind; [apply keeps_database, construct_reads|]. intros instance.
  apply save_then_return_clean.
Qed.

(** The temporary directory is there as long as the body of the [try]
    runs. *)
Lemma lookup_put_dir (p q : string) (entries : list (string * node))
  (dirs : list (string * list (string * node))) :
  (match Os.lookup p (Os.put_dir q entries dirs) with Some _ => true | None => false end)
  = (match Os.lookup p dirs with Some _ => true | None => false end).
Proof.
  induction dirs as [|[k old] dirs IH]; [reflexivity|].
  cbn [Os.put_dir]. destruct (String.eqb q k) eqn:E; cbn [Os.lookup].
  - now destruct (String.eqb p k).
  - destruct (String.eqb p k); [reflexivity|exact IH].
Qed.

Lemma git_clone_dirs (link name p : string) :
  keeps (fun w => Os.exists_dir p (w_fs w)) (Os.git_clone link name).
Proof.
  intros w. unfold Os.git_clone.
  destruct (negb (e_git (w_env w))); [reflexivity|].
  destruct (e_remote (w_env w) link); [|reflexivity].
  destruct (Os.lookup (fs_cwd (w_fs w)) (fs_dirs (w_fs w))); [|reflexivity].
  unfold Os.exists_dir. cbn [snd set_fs w_fs fs_dirs].
  apply lookup_put_dir.
Qed.

Lemma clone_and_save_dirs (model : cls) (ignore : list string) (link repo : string)
  (usr : option user) (local_temp p : string) :
  keeps (fun w => Os.exists_dir p (w_fs w))
        (GithubCrawler.clone_and_save model ignore link repo local_temp usr).
Proof.
  unfold GithubCrawler.clone_and_save.
  repeat first
    [ apply git_clone_dirs
    | apply kwargs_user_keeps
    | apply (keeps_proj outside_store (fun w => Os.exists_dir p (w_fs w))
               (fun x => Os.exists_dir p (fst x))); [reflexivity|apply construct_outside]
    | apply (keeps_proj outside_store (fun w => Os.exists_dir p (w_fs w))
               (fun x => Os.exists_dir p (fst x))); [reflexivity|apply save_outside]
    | keeps_step
    | (intros w; unfold Os.chdir, Os.listdir, Os.walk_path;
       repeat match goal with
              | |- context [match ?x with _ => _ end] => destruct x
              | |- context [if ?x then _ else _] => destruct x
              end; reflexivity) ].
Qed.

Lemma clone_and_save_clean (model : cls) (ignore : list string) (link repo : string)
  (usr : option user) (local_temp : string) :
  raises_clean (GithubCrawler.clone_and_save model ignore link repo local_temp usr).
Proof.
  unfold GithubCrawler.clone_and_save.
  apply raises_clean_bind; [unfold Os.chdir; keeps_prim|]. intros _.
  apply raises_clean_bind; [unfold Os.git_clone; keeps_prim|]. intros _.
  apply raises_clean_bind; [unfold Os.listdir; keeps_prim|]. intros [|first rest];
    [apply raises_clean_ret|]. cbv zeta.
  apply raises_clean_bind; [unfold Os.walk_path; keeps_prim|]. intros steps.
  apply raises_clean_bind; [apply keeps_lift|]. intros tree.
  apply raises_clean_bind; [apply kwargs_user_keeps|]. intros u.
  apply raises_clean_bind; [apply keeps_database, construct_reads|]. intros instance.
  apply save_then_return_clean.
Qed.

Lemma github_extract_clean (model : cls) (ignore : list string) (link : string)
  (usr : option user) :
  raises_clean (GithubCrawler.extract model ignore link usr).
Proof.
  unfold GithubCrawler.extract.
  apply raises_clean_bind; [apply keeps_database, find_reads|].
  intros [old|]; [apply raises_clean_ret|]. cbv zeta.
  intros w e w'. unfold bind at 1.
  destruct (Os.mkdtemp w) as [[p|e0] w1] eqn:Etmp; [|discriminate Etmp].
  assert (Hdb1 : database w1 = database w).
  { unfold Os.mkdtemp in Etmp. now injection Etmp as _ <-. }
  pose proof (mkdtemp_creates _ _ _ Etmp) as Hdir.
  unfold try_finally.
  destruct (GithubCrawler.clone_and_save model ignore link (GithubCrawler.repo_name link)
              p usr w1) as [r w2] eqn:Ebody.
  pose proof (clone_and_save_dirs model ignore link (GithubCrawler.repo_name link)
                usr p p w1) as Hkeep.
  rewrite Ebody in Hkeep. cbn [snd] in Hkeep. rewrite Hdir in Hkeep.
  unfold Os.rmtree. rewrite Hkeep.
  destruct r as [[]|e1]; [discriminate|].
  intros [= _ <-]. cbn [database set_fs w_store]. fold (database w2).
  rewrite <- Hdb1. exact (clone_and_save_clean _ _ _ _ _ _ w1 e1 w2 Ebody).
Qed.

(** A crawl that raises has stored nothing: whenever [extract] of either
    crawler ends in an exception -- from the lookup, the acquisition, the
    constructor or the insert -- the records of every collection are those
    from before the call. *)
Theorem failed_crawl_stores_nothing (model : cls) (ignore : list string) (link : string)
  (usr : option user) (w : world) (e : exn) :
  (fst (CustomArticleCrawler.extract model link usr w) = Raise e ->
   database (snd (CustomArticleCrawler.extract model link usr w)) = database w) /\
  (fst (GithubCrawler.extract model ignore link usr w) = Raise e ->
   database (snd (GithubCrawler.extract model ignore link usr w)) = database w).
Proof.
  split; intros H.
  - destruct (CustomArticleCrawler.extract model link usr w) as [r w'] eqn:E.
    cbn [fst snd] in *. subst r. exact (article_extract_clean model link usr w e w' E).
  - destruct (GithubCrawler.extract model ignore link usr w) as [r w'] eqn:E.
    cbn [fst snd] in *. subst r. exact (github_extract_clean model ignore link usr w e w' E).
Qed.

End FailedCrawl.

Section RepoName.

Import GithubCrawler.

Lemma memb_rev (c : ascii) (l : list ascii) : Str.memb c (rev l) = Str.memb c l.
Proof.
  induction l as [|a l IH]; [reflexivity|].
  cbn [rev]. rewrite memb_app, IH, !memb_cons. cbn [Str.memb existsb].
  rewrite orb_false_r. apply orb_comm.
Qed.

Lemma split_on_pieces (sep : ascii) (cur s : list ascii) :
  Str.memb sep cur = false ->
  Forall (fun piece => Str.memb sep piece = false) (Str.split_on sep cur s).
Proof.
  revert cur. induction s as [|c s IH]; intros cur Hcur; cbn [Str.split_on].
  - constructor; [|constructor]. now rewrite memb_rev.
  - destruct (Ascii.eqb c sep) eqn:E.
    + constructor; [now rewrite memb_rev|]. now apply IH.
    + apply IH. rewrite memb_cons, Hcur, orb_false_r.
      rewrite Ascii.eqb_sym. exact E.
Qed.

Lemma split_on_nonempty (sep : ascii) (cur s : list ascii) : Str.split_on sep cur s <> [].
Proof.
  revert cur. induction s as [|c s IH]; intros cur; cbn [Str.split_on]; [discriminate|].
  destruct (Ascii.eqb c sep); [discriminate|apply IH].
Qed.

Lemma last_in {A} (l : list A) (a : A) : l <> [] -> In (last l a) l.
Proof.
  induction l as [|x l IH]; [congruence|]. intros _.
  destruct l as [|y l]; [now left|]. right. apply IH. discriminate.
Qed.

Lemma rstrip_snoc (set : list ascii) (c : ascii) (s : list ascii) :
  Str.memb c set = true -> Str.rstrip set (s ++ [c]) = Str.rstrip set s.
Proof.
  intros H. unfold Str.rstrip. rewrite rev_app_distr. cbn [rev app Str.lstrip].
  now rewrite H.
Qed.

(** The repository name taken from a link holds no slash, and a slash at
    the end of the link does not change it. *)
Theorem repo_name_shape (link : string) :
  Str.memb "/"%char (Str.chars (repo_name link)) = false /\
  repo_name (link ++ "/")%string = repo_name link.
Proof.
  split.
  - unfold repo_name, Str.split.
    set (pieces := Str.split_on "/"%char [] _).
    assert (Hin : In (last (map Str.of_chars pieces) "") (map Str.of_chars pieces)).
    { apply last_in. intros E. apply map_eq_nil in E.
      exact (split_on_nonempty _ _ _ E). }
    apply in_map_iff in Hin as (piece & <- & Hp).
    rewrite chars_of_chars.
    unfold pieces in Hp.
    match type of Hp with In _ (Str.split_on _ _ ?s) =>
      pose proof (split_on_pieces "/"%char [] s eq_refl) as Hall end.
    rewrite Forall_forall in Hall. exact (Hall piece Hp).
  - unfold repo_name. f_equal. f_equal. f_equal.
    rewrite chars_append. change (Str.chars "/") with ["/"%char].
    now apply rstrip_snoc.
Qed.

End RepoName.

Section ReadTree.

Import GithubCrawler.

Lemma dict_set_forall (P : value -> Prop) (k : string) (v : value) (d : dict) :
  P v -> Forall (fun kv => P (snd kv)) d -> Forall (fun kv => P (snd kv)) (dict_set k v d).
Proof.
  intros Hv. induction 1 as [|[k' v'] d Hkv Hd IH]; cbn [dict_set].
  - now repeat constructor.
  - destruct (String.eqb k k'); constructor; assumption.
Qed.

Lemma replace_blank_spaceless (t : string) : spaceless (VStr (Str.replace_empty " " t)).
Proof.
  exists (Str.replace_empty " " t). split; [reflexivity|].
  unfold Str.replace_empty. rewrite chars_of_chars.
  change (Str.chars " ") with [" "%char]. cbn [Str.remove_all].
  rewrite remove_from_single. unfold Str.memb.
  induction (Str.chars t) as [|c l IH]; [reflexivity|].
  cbn [filter]. destruct (Ascii.eqb " " c) eqn:E; cbn [negb]; [exact IH|].
  cbn [existsb]. now rewrite E, IH.
Qed.

Lemma read_files_spaceless (ignore : list string) (dir : string)
  (files : list (string * option string)) (tree tree' : dict) :
  read_files ignore dir files tree = Ok tree' ->
  Forall (fun kv => spaceless (snd kv)) tree ->
  Forall (fun kv => spaceless (snd kv)) tree'.
Proof.
  revert tree. induction files as [|[file text] files IH]; intros tree H Ht;
    cbn [read_files] in H.
  - now injection H as <-.
  - destruct (Str.endswith_any file ignore); [now apply (IH tree)|].
    destruct text as [t|]; [|discriminate].
    apply (IH _ H). apply dict_set_forall; [apply replace_blank_spaceless|exact Ht].
Qed.

Lemma read_files_ignored (ignore : list string) (dir : string)
  (files : list (string * option string)) (tree : dict) :
  (forall f, In f files -> Str.endswith_any (fst f) ignore = true) ->
  read_files ignore dir files tree = Ok tree.
Proof.
  induction files as [|[file text] files IH]; intros H; [reflexivity|].
  cbn [read_files]. pose proof (H (file, text) (or_introl eq_refl)) as Hf0.
  cbn [fst] in Hf0. rewrite Hf0.
  apply IH. intros f Hf. apply H. now right.
Qed.

(** What the walk over a clone puts into [content].  Every value is the text
    of a file with all blanks removed.  A file whose name ends in an ignored
    suffix is skipped without being opened, so a directory holding only such
    files adds nothing and cannot fail; and a file that is not ignored and
    cannot be read ends the walk with [PermissionError]. *)
Theorem read_tree_content (ignore : list string) (repo_path : string) :
  (forall steps tree,
     read_tree ignore repo_path steps [] = Ok tree ->
     Forall (fun kv => spaceless (snd kv)) tree) /\
  (forall dir files tree,
     (forall f, In f files -> Str.endswith_any (fst f) ignore = true) ->
     read_files ignore dir files tree = Ok tree) /\
  (forall dir file files tree,
     Str.endswith_any file ignore = false ->
     read_files ignore dir ((file, None) :: files) tree = Raise PermissionError).
Proof.
  split; [|split].
  - intros steps.
    assert (H : forall tree0 tree,
               read_tree ignore repo_path steps tree0 = Ok tree ->
               Forall (fun kv => spaceless (snd kv)) tree0 ->
               Forall (fun kv => spaceless (snd kv)) tree).
    { induction steps as [|[root files] steps IH]; intros tree0 tree H Ht;
        cbn [read_tree] in H.
      - now injection H as <-.
      - cbv zeta in H.
        destruct (Str.startswith_any _ ignore); [now apply (IH tree0)|].
        destruct (read_files ignore _ files tree0) as [tree1|e] eqn:E; [|discriminate].
        apply (IH tree1 tree H). exact (read_files_spaceless _ _ _ _ _ E Ht). }
    intros tree Hrun. exact (H [] tree Hrun (Forall_nil _)).
  - intros dir files tree. apply read_files_ignored.
  - intros dir file files tree H. cbn [read_files]. now rewrite H.
Qed.

End ReadTree.

Section Registry.

Import CrawlerDispatcher.

Lemma put_keys (k : string) (c : crawler_class) (d : t) :
  NoDup (map fst d) -> NoDup (map fst (put k c d)).
Proof.
  induction d as [|[k' c'] d IH]; intros Hnd; cbn [put].
  - repeat constructor. intros [].
  - inversion Hnd as [|? ? Hout Hnd']; subst.
    destruct (String.eqb_spec k k') as [->|Hne]; cbn [map fst].
    + now constructor.
    + constructor; [|now apply IH].
      intros Hin. apply Hout. clear - Hin Hne.
      induction d as [|[k0 c0] d IH]; cbn [put map fst In] in *.
      * destruct Hin as [E|[]]. now subst.
      * destruct (String.eqb k k0); cbn [map fst In] in Hin; destruct Hin as [E|Hin];
          try (now left); right; try assumption. now apply IH.
Qed.

Lemma put_put (k : string) (c c' : crawler_class) (d : t) :
  put k c' (put k c d) = put k c' d.
Proof.
  induction d as [|[k0 c0] d IH]; cbn [put].
  - now rewrite String.eqb_refl.
  - destruct (String.eqb k k0) eqn:E; cbn [put].
    + now rewrite String.eqb_refl.
    + now rewrite E, IH.
Qed.

(** [register] as a table.  The crawler is filed under the pattern of the
    pattern URL's domain; registering a domain again replaces its crawler
    and adds no entry; the entries of all other domains are untouched,
    because [re.escape] gives different domains different patterns; and the
    keys stay distinct.  When [urlparse] refuses the pattern URL, [register]
    raises what it raised and there is no dispatcher to speak of. *)
Theorem register_table (self : t) (domain : string) (X : crawler_class) :
  match Url.netloc domain with
  | Ok n =>
      exists self',
        register self domain X = Ok self' /\
        Os.lookup (pattern n) self' = Some X /\
        (forall Y selfY, register self domain Y = Ok selfY ->
                         register selfY domain X = Ok self') /\
        (forall d, d <> n -> Os.lookup (pattern d) self' = Os.lookup (pattern d) self) /\
        (NoDup (map fst self) -> NoDup (map fst self'))
  | Raise e => register self domain X = Raise e
  end.
Proof.
  unfold register. destruct (Url.netloc domain) as [n|e]; [|reflexivity].
  exists (put (pattern n) X self). repeat split.
  - apply lookup_put_same.
  - intros Y selfY [= <-]. now rewrite put_put.
  - intros d Hd. apply lookup_put_other. intros E. apply Hd. exact (pattern_inj _ _ E).
  - apply put_keys.
Qed.

End Registry.

Section GeneratedIds.

(** Every document the constructor returns has a version-4 id: one given as
    a UUID or as text is checked, one left out is drawn by [uuid.uuid4];
    and only in the last case is the random source used, once. *)
Theorem construct_id_is_uuid4 (c : cls) (kwargs : dict) (w w' : world) (d : document) :
  construct c kwargs w = (Ok d, w') ->
  Uuid.is_uuid4 (d_id d) = true /\
  d_cls d = c /\
  (dict_get "id" kwargs = None ->
   d_id d = next_uuid w /\ Uuid.valid (d_id d) /\ w_drawn w' = S (w_drawn w)) /\
  (dict_get "id" kwargs <> None -> w' = w).
Proof.
  intros H. pose proof (construct_class c kwargs w w' d H) as Hc.
  unfold construct, bind in H.
  destruct (dict_get "id" kwargs) as [v|] eqn:Hid.
  - assert (Hv : exists u, validate TUuid4 v = Some (VUuid u) /\ Uuid.is_uuid4 u = true
                           /\ d_id d = u /\ w' = w).
    { destruct v; cbn [validate] in *; try discriminate.
      - destruct (Uuid.parse_str s) as [u|]; [|discriminate].
        destruct (Uuid.is_uuid4 u) eqn:E; [|discriminate]. cbn [ret] in H.
        destruct (validate_fields (c_fields c) kwargs); [|discriminate].
        injection H as <- <-. now exists u.
      - destruct (Uuid.is_uuid4 u) eqn:E; [|discriminate]. cbn [ret] in H.
        destruct (validate_fields (c_fields c) kwargs); [|discriminate].
        injection H as <- <-. now exists u. }
    destruct Hv as (u & _ & H4 & -> & ->).
    repeat split; try assumption; try discriminate.
  - cbn [uuid4] in H.
    destruct (validate_fields (c_fields c) kwargs); [|discriminate].
    injection H as <- <-. cbn [d_id w_drawn set_drawn]. repeat split; try assumption.
    + apply uuid4_of_random_is_uuid4.
    + apply uuid4_of_random_valid.
    + intros E. now contradiction E.
Qed.

Lemma construct_id_is_uuid4_witness :
  Uuid.is_uuid4 (Uuid.uuid4_of_random 0) = true /\
  d_cls (mkDoc Documents.ExampleDocument (Uuid.uuid4_of_random 0)
               [("name", VStr "Test Entry")] ["name"]) = Documents.ExampleDocument.
Proof.
  destruct (construct_id_is_uuid4 Documents.ExampleDocument [("name", VStr "Test Entry")]
              Documents.quiet (set_drawn Documents.quiet 1)
              (mkDoc Documents.ExampleDocument (Uuid.uuid4_of_random 0)
                     [("name", VStr "Test Entry")] ["name"]) eq_refl) as (H4 & Hc & _).
  split; [exact H4|exact Hc].
Defined.

End GeneratedIds.

(* ================================================================== *)
(** * Part V: the connection singleton and the batch summary *)
(* ================================================================== *)

Section Singleton.

Import MongoDatabaseConnector.

Lemma repeat_new_connected (settings : app_settings) (n : nat) (p : process) (c : client) :
  instance p = Some c ->
  repeat_new settings n p = (List.repeat (Returned c) n, p).
Proof.
  intros H. induction n as [|n IH]; [reflexivity|].
  cbn [repeat_new List.repeat]. unfold new. rewrite H. now rewrite IH.
Qed.

(** The class keeps one client.  A call that returns a client leaves the
    process in a state where every further call returns that same client
    and makes no [MongoClient]; a call that raises [ConnectionError] leaves
    [_instance] empty, so the next call tries again; and over any number of
    calls from a process without a client, all the clients returned are one
    and the same. *)
Theorem one_client (settings : app_settings) (p : process) :
  (forall c p', new settings p = (Returned c, p') ->
     instance p' = Some c /\
     forall n, repeat_new settings n p' = (List.repeat (Returned c) n, p')) /\
  (forall p', new settings p = (ConnectionError, p') ->
     instance p = None /\ instance p' = None /\ calls p' = S (calls p)) /\
  (forall n c1 c2,
     In (Returned c1) (fst (repeat_new settings n p)) ->
     In (Returned c2) (fst (repeat_new settings n p)) -> c1 = c2).
Proof.
  split; [|split].
  - intros c p' H.
    assert (Hi : instance p' = Some c).
    { unfold new in H. destruct (instance p) as [c0|] eqn:E.
      - injection H as <- <-. exact E.
      - destruct (refused p (calls p)); [discriminate|]. now injection H as <- <-. }
    split; [exact Hi|]. intros n. now apply repeat_new_connected.
  - intros p' H. unfold new in H. destruct (instance p) as [c0|]; [discriminate|].
    destruct (refused p (calls p)); [|discriminate]. injection H as <-. now repeat split.
  - intros n. revert p. induction n as [|n IH]; intros p c1 c2 H1 H2; [contradiction|].
    cbn [repeat_new] in H1, H2.
    destruct (new settings p) as [a p1] eqn:E.
    destruct a as [c|].
    + assert (Hi : instance p1 = Some c).
      { unfold new in E. destruct (instance p) as [c0|] eqn:E0.
        - injection E as <- <-. exact E0.
        - destruct (refused p (calls p)); [discriminate|]. now injection E as <- <-. }
      rewrite (repeat_new_connected settings n p1 c Hi) in H1, H2.
      cbn [fst] in H1, H2.
      assert (Hall : forall x, In (Returned x) (Returned c :: List.repeat (Returned c) n) -> x = c).
      { intros x [Hx|Hx]; [congruence|]. apply repeat_spec in Hx. congruence. }
      now rewrite (Hall c1 H1), (Hall c2 H2).
    + destruct (repeat_new settings n p1) as [rest p2] eqn:Er. cbn [fst] in H1, H2.
      destruct H1 as [H1|H1]; [discriminate|]. destruct H2 as [H2|H2]; [discriminate|].
      apply (IH p1); rewrite Er; assumption.
Qed.

End Singleton.

Section Tally.

Import DocumentRetriever.
Local Open Scope Z_scope.

Lemma lookup_assoc_set_same {A} (k : string) (a : A) (l : list (string * A)) :
  Os.lookup k (assoc_set k a l) = Some a.
Proof.
  induction l as [|[k' a'] l IH]; cbn [assoc_set Os.lookup].
  - now rewrite String.eqb_refl.
  - destruct (String.eqb k k') eqn:E; cbn [Os.lookup].
    + now rewrite String.eqb_refl.
    + now rewrite E.
Qed.

Lemma lookup_assoc_set_other {A} (k k' : string) (a : A) (l : list (string * A)) :
  k' <> k -> Os.lookup k' (assoc_set k a l) = Os.lookup k' l.
Proof.
  intros Hne. induction l as [|[k0 a0] l IH]; cbn [assoc_set Os.lookup].
  - destruct (String.eqb_spec k' k); [contradiction|reflexivity].
  - destruct (String.eqb_spec k k0) as [->|]; cbn [Os.lookup].
    + destruct (String.eqb_spec k' k0); [contradiction|reflexivity].
    + now rewrite IH.
Qed.

(** Replacing the counters of a domain changes a sum by the difference. *)
Lemma sum_of_assoc_set (k d : string) (c : counts) (m : tally) :
  sum_of k (assoc_set d c m)
  = sum_of k m - match Os.lookup d m with Some old => get0 k old | None => 0 end
    + get0 k c.
Proof.
  induction m as [|[d' c'] m IH]; cbn [assoc_set sum_of Os.lookup].
  - lia.
  - destruct (String.eqb d d'); cbn [sum_of]; [lia|]. rewrite IH. lia.
Qed.

Lemma sound_assoc_set (d : string) (c : counts) (m : tally) :
  sound (d, c) -> Forall sound m -> Forall sound (assoc_set d c m).
Proof.
  intros Hc. induction 1 as [|[d' c'] m Hd Hm IH]; cbn [assoc_set].
  - constructor; [exact Hc|constructor].
  - destruct (String.eqb d d'); constructor; assumption.
Qed.

Lemma sound_lookup (d : string) (c : counts) (m : tally) :
  Forall sound m -> Os.lookup d m = Some c -> sound (d, c).
Proof.
  induction 1 as [|[d' c'] m Hd Hm IH]; cbn [Os.lookup]; [discriminate|].
  destruct (String.eqb d d'); [|exact IH]. intros [= <-]. exact Hd.
Qed.

Lemma get0_set_same (k : string) (v : Z) (c : counts) : get0 k (assoc_set k v c) = v.
Proof. unfold get0. now rewrite lookup_assoc_set_same. Qed.

Lemma get0_set_other (k k' : string) (v : Z) (c : counts) :
  k' <> k -> get0 k' (assoc_set k v c) = get0 k' c.
Proof. intros H. unfold get0. now rewrite lookup_assoc_set_other. Qed.

(** The counters of a domain after one more crawl. *)
Lemma counters_step (c : counts) (b : bool) :
  let c1 := assoc_set "successful" (get0 "successful" c + int_of_bool b) c in
  let c2 := assoc_set "total" (get0 "total" c1 + 1) c1 in
  get0 "successful" c2 = get0 "successful" c + int_of_bool b /\
  get0 "total" c2 = get0 "total" c + 1.
Proof.
  cbv zeta. split.
  - rewrite (get0_set_other "total" "successful") by discriminate.
    apply get0_set_same.
  - rewrite get0_set_same.
    now rewrite (get0_set_other "successful" "total") by discriminate.
Qed.

(** One call of [_add_to_metadata]: the domain's total goes up by one and
    its successes by the outcome, the sums over all domains likewise, and
    sound counters stay sound. *)
Lemma add_to_metadata_step (m : tally) (domain : string) (b : bool) :
  Forall sound m ->
  sum_of "total" (add_to_metadata m domain b) = sum_of "total" m + 1 /\
  sum_of "successful" (add_to_metadata m domain b)
  = sum_of "successful" m + int_of_bool b /\
  Forall sound (add_to_metadata m domain b) /\
  Os.lookup domain (add_to_metadata m domain b) <> None.
Proof.
  intros Hm. unfold add_to_metadata.
  set (m1 := match Os.lookup domain m with Some _ => m | None => assoc_set domain [] m end).
  assert (H1 : exists old, Os.lookup domain m1 = Some old /\ sound (domain, old) /\
                           Forall sound m1 /\
                           sum_of "total" m1 = sum_of "total" m /\
                           sum_of "successful" m1 = sum_of "successful" m).
  { unfold m1. destruct (Os.lookup domain m) as [old|] eqn:E.
    - exists old. repeat split; try assumption; try reflexivity;
        apply (sound_lookup domain old m Hm E).
    - exists []. rewrite lookup_assoc_set_same, !sum_of_assoc_set, E.
      repeat split; try reflexivity; try (cbn; lia).
      apply sound_assoc_set; [|exact Hm]. unfold sound. cbn. lia. }
  destruct H1 as (old & Hl & Hold & Hm1 & Ht & Hs). rewrite Hl.
  destruct (counters_step old b) as [Hcs Hct]. cbv zeta in Hcs, Hct.
  set (c2 := assoc_set "total" _ _) in *.
  rewrite !sum_of_assoc_set, Hl, Hcs, Hct, Ht, Hs.
  repeat split; try lia.
  - apply sound_assoc_set; [|exact Hm1]. unfold sound in *. cbn [snd] in *.
    rewrite Hcs, Hct. destruct b; cbn [int_of_bool]; lia.
  - rewrite lookup_assoc_set_same. discriminate.
Qed.

End Tally.

Section Batch.

Import DocumentRetriever.
Local Open Scope Z_scope.

Variable get_crawler : string -> outcome crawler.
Variable extract : crawler -> string -> user -> M unit.

(** [_crawler_link] raises exactly when the lookup of the crawler or
    [urlparse] does; once both have answered, an [extract] that raises
    becomes [(False, domain)]. *)
Lemma crawler_link_outcome (link : string) (u : user) (w : world) :
  match get_crawler link, Url.netloc link with
  | Ok k, Ok d =>
      exists b w', crawler_link get_crawler extract link u w = (Ok (b, d), w') /\
                   (b = false <-> exists e, fst (extract k link u w) = Raise e)
  | Ok _, Raise e => crawler_link get_crawler extract link u w = (Raise e, w)
  | Raise e, _ => crawler_link get_crawler extract link u w = (Raise e, w)
  end.
Proof.
  unfold crawler_link, bind, lift. destruct (get_crawler link) as [k|e]; [|reflexivity].
  destruct (Url.netloc link) as [d|e]; [|reflexivity].
  unfold try_except_exception.
  destruct (extract k link u w) as [[[]|e] w'] eqn:E; cbn [ret fst].
  - exists true, w'. split; [reflexivity|]. split; [discriminate|]. intros [e He]. discriminate He.
  - exists false, w'. split; [reflexivity|]. split; [now exists e|reflexivity].
Qed.

(** An entry of the dictionary is never taken out. *)
Lemma add_to_metadata_keeps (m : tally) (d d0 : string) (b : bool) :
  Os.lookup d m <> None -> Os.lookup d (add_to_metadata m d0 b) <> None.
Proof.
  intros Hentry. unfold add_to_metadata.
  destruct (String.eqb_spec d0 d) as [->|Hne].
  - rewrite lookup_assoc_set_same. discriminate.
  - assert (Hne' : d <> d0) by congruence.
    rewrite lookup_assoc_set_other by exact Hne'.
    destruct (Os.lookup d0 m); [exact Hentry|].
    now rewrite lookup_assoc_set_other by exact Hne'.
Qed.

Lemma crawl_links_keeps (u : user) (links : list string) (m m' : tally)
  (n n' : Z) (w w' : world) (d : string) :
  crawl_links get_crawler extract u links m n w = (Ok (m', n'), w') ->
  Os.lookup d m <> None -> Os.lookup d m' <> None.
Proof.
  revert m n w. induction links as [|l0 links IH]; intros m n w H Hentry.
  - cbn [crawl_links ret] in H. now injection H as <- _ _.
  - cbn [crawl_links] in H. unfold bind in H.
    destruct (crawler_link get_crawler extract l0 u w) as [[[b0 d0]|e0] w2]; [|discriminate].
    cbn [fst snd] in H. apply (IH _ _ _ H). now apply add_to_metadata_keeps.
Qed.

Lemma crawl_links_invariant (u : user) (links : list string) (m m' : tally)
  (n n' : Z) (w w' : world) :
  crawl_links get_crawler extract u links m n w = (Ok (m', n'), w') ->
  Forall sound m ->
  Forall sound m' /\
  sum_of "total" m' = sum_of "total" m + Z.of_nat (List.length links) /\
  sum_of "successful" m' - sum_of "successful" m = n' - n /\
  n <= n' <= n + Z.of_nat (List.length links) /\
  (forall link, In link links ->
     exists d, Url.netloc link = Ok d /\ Os.lookup d m' <> None).
Proof.
  revert m n w. induction links as [|link links IH]; intros m n w H Hm.
  - cbn [crawl_links ret] in H. injection H as <- <- _. cbn [List.length Z.of_nat].
    repeat split; try assumption; try lia. intros link [].
  - cbn [crawl_links] in H. unfold bind in H.
    pose proof (crawler_link_outcome link u w) as Hone.
    destruct (get_crawler link) as [k|e].
    2:{ rewrite Hone in H. discriminate H. }
    destruct (Url.netloc link) as [d|e] eqn:Ed.
    2:{ rewrite Hone in H. discriminate H. }
    destruct Hone as (b & w1 & Hone & _). rewrite Hone in H. cbn [fst snd] in H.
    destruct (add_to_metadata_step m d b Hm) as (Ht & Hs & Hsound & Hentry).
    destruct (IH _ _ _ H Hsound) as (Hm' & Ht' & Hs' & Hn' & Hin).
    rewrite Ht in Ht'. rewrite Hs in Hs'.
    assert (Hb : 0 <= int_of_bool b <= 1) by (destruct b; cbn; lia).
    cbn [List.length]. rewrite Nat2Z.inj_succ.
    repeat split; try assumption; try lia.
    intros l [<-|Hl]; [|now apply Hin].
    exists d. split; [exact Ed|].
    exact (crawl_links_keeps u links _ m' _ n' w1 w' d H Hentry).
Qed.

(** The loop runs to the end exactly when every link has a crawler and a
    network location. *)
Lemma crawl_links_returns (u : user) (links : list string) (m : tally) (n : Z)
  (w : world) :
  (exists r w', crawl_links get_crawler extract u links m n w = (Ok r, w')) <->
  (forall link, In link links ->
     (exists k, get_crawler link = Ok k) /\ (exists d, Url.netloc link = Ok d)).
Proof.
  revert m n w. induction links as [|link links IH]; intros m n w.
  - split; [intros _ l []|]. intros _. now exists (m, n), w.
  - cbn [crawl_links]. unfold bind.
    pose proof (crawler_link_outcome link u w) as Hone.
    destruct (get_crawler link) as [k|e] eqn:Ek.
    2:{ rewrite Hone. split.
        - intros (r & w' & H). discriminate H.
        - intros H. destruct (H link (or_introl eq_refl)) as [[k Hk] _].
          rewrite Ek in Hk. discriminate Hk. }
    destruct (Url.netloc link) as [d|e] eqn:Ed.
    2:{ rewrite Hone. split.
        - intros (r & w' & H). discriminate H.
        - intros H. destruct (H link (or_introl eq_refl)) as [_ [d Hd]].
          rewrite Ed in Hd. discriminate Hd. }
    destruct Hone as (b & w1 & -> & _). cbn [fst snd]. rewrite IH. split.
    + intros H l [<-|Hl]; [|now apply H]. rewrite Ek, Ed. split; [now exists k|now exists d].
    + intros H l Hl. apply H. now right.
Qed.

(** The summary of a batch that ran to the end.  [total] is the number of
    links, [successful] and [failed] add up to it and neither is negative;
    the per-domain totals add up to [total] and the per-domain successes to
    [successful]; in every domain the successes lie between zero and the
    domain's total; and every link has a domain, which has an entry. *)
Theorem batch_summary (u : user) (links : list string) (w w' : world) (s : summary) :
  test_crawler_dispatcher get_crawler extract u links w = (Ok s, w') ->
  total s = Z.of_nat (List.length links) /\
  successful s + failed s = total s /\
  0 <= successful s /\ 0 <= failed s /\
  sum_of "total" (metadata s) = total s /\
  sum_of "successful" (metadata s) = successful s /\
  Forall sound (metadata s) /\
  (forall link, In link links ->
     exists d, Url.netloc link = Ok d /\ Os.lookup d (metadata s) <> None).
Proof.
  unfold test_crawler_dispatcher, bind. intros H.
  destruct (crawl_links get_crawler extract u links [] 0 w) as [[[m n]|e] w1] eqn:E;
    [|discriminate].
  cbv zeta in H. cbn [ret fst snd] in H. injection H as <- _.
  cbn [total successful failed metadata].
  destruct (crawl_links_invariant u links [] m 0 n w w1 E (Forall_nil _))
    as (Hsound & Ht & Hs & Hn & Hin).
  cbn [sum_of] in Ht, Hs. repeat split; try assumption; lia.
Qed.

(** What stops the batch is what [_crawler_link] does outside its [try]: the
    lookup of the crawler and [urlparse(link)].  An [extract] that raises
    never stops it.  The batch returns a summary exactly when every link
    has a crawler and a network location, whatever the crawlers do; when the
    lookup raises for the first link the batch raises the same exception,
    and so it does when the lookup answers and [urlparse] raises. *)
Theorem batch_aborts_outside_try (u : user) (links : list string) (w : world) :
  ((exists s w', test_crawler_dispatcher get_crawler extract u links w = (Ok s, w')) <->
   (forall link, In link links ->
      (exists k, get_crawler link = Ok k) /\ (exists d, Url.netloc link = Ok d))) /\
  (forall link rest e, links = link :: rest -> get_crawler link = Raise e ->
   test_crawler_dispatcher get_crawler extract u links w = (Raise e, w)) /\
  (forall link rest k e, links = link :: rest ->
   get_crawler link = Ok k -> Url.netloc link = Raise e ->
   test_crawler_dispatcher get_crawler extract u links w = (Raise e, w)).
Proof.
  split; [|split].
  - rewrite <- (crawl_links_returns u links [] 0 w).
    unfold test_crawler_dispatcher, bind. split.
    + intros (s & w' & H).
      destruct (crawl_links get_crawler extract u links [] 0 w) as [[r|e] w1];
        [|discriminate].
      now exists r, w1.
    + intros (r & w1 & ->). unfold ret. eauto.
  - intros link rest e -> Hk.
    unfold test_crawler_dispatcher, bind. cbn [crawl_links]. unfold bind.
    pose proof (crawler_link_outcome link u w) as Hone. rewrite Hk in Hone.
    now rewrite Hone.
  - intros link rest k e -> Hk Hd.
    unfold test_crawler_dispatcher, bind. cbn [crawl_links]. unfold bind.
    pose proof (crawler_link_outcome link u w) as Hone. rewrite Hk, Hd in Hone.
    now rewrite Hone.
Qed.

End Batch.

Section BatchRun.

Import DocumentRetriever.
Local Open Scope Z_scope.

Lemma batch_summary_witness :
  exists s,
    fst (test_crawler_dispatcher Documents.sample_get_crawler
           Documents.sample_extract Documents.ada Documents.sample_links Documents.online)
    = Ok s /\
    total s = 3 /\ successful s + failed s = total s /\
    sum_of "total" (metadata s) = 3.
Proof.
  destruct (test_crawler_dispatcher Documents.sample_get_crawler
              Documents.sample_extract Documents.ada Documents.sample_links Documents.online)
    as [[s|e] w'] eqn:E.
  - exists s. split; [reflexivity|].
    destruct (batch_summary _ _ _ _ _ _ _ E) as (Ht & Hsf & _ & _ & Hsum & _).
    split; [exact Ht|]. split; [exact Hsf|]. now rewrite Hsum, Ht.
  - exfalso. vm_compute in E. discriminate E.
Defined.

End BatchRun.

Section StoreFailure.

Import NoSQLBaseDocument.

(** A store failure reads as "nothing there".  When the query raises an
    operation failure, [find] answers [None] and [bulk_find] the empty
    list -- the very answers they give when the query matches no record. *)
Theorem store_failure_reads_as_absent (c : cls) (q : dict) (name : string) (w : world) :
  c_collection c = Some name ->
  (forall e w', Mongo.find_one name q w = (Raise e, w') ->
                catches OperationFailure e = true -> find c q w = (Ok None, w')) /\
  (forall w', Mongo.find_one name q w = (Ok None, w') -> find c q w = (Ok None, w')) /\
  (forall e w', Mongo.find name q w = (Raise e, w') ->
                catches OperationFailure e = true -> bulk_find c q w = (Ok [], w')) /\
  (forall w', Mongo.find name q w = (Ok [], w') -> bulk_find c q w = (Ok [], w')).
Proof.
  intros Hc. repeat split.
  - intros e w' Hq He. unfold find, get_collection_name. rewrite Hc.
    rewrite (bind_ok _ _ w w name) by reflexivity.
    rewrite (try_except_caught _ _ _ w w' e); [reflexivity| |].
    + now rewrite (bind_raise _ _ _ _ _ Hq).
    + cbn [existsb]. now rewrite He.
  - intros w' Hq. unfold find, get_collection_name. rewrite Hc.
    rewrite (bind_ok _ _ w w name) by reflexivity.
    apply try_except_ok. now rewrite (bind_ok _ _ _ _ _ Hq).
  - intros e w' Hq He. exact (bulk_find_store_failure c q name w w' e Hc Hq He).
  - intros w' Hq. exact (bulk_find_all c q name w w' w' [] [] Hc Hq eq_refl).
Qed.

Lemma store_failure_reads_as_absent_witness :
  c_collection Documents.ExampleDocument = Some "test_collection" /\
  find Documents.ExampleDocument [("name", VStr "Entry 0")] Documents.failing_read
  = (Ok None, set_store Documents.failing_read
                (mkStore [("test_collection", Documents.mixed_records)] [] 2)) /\
  bulk_find Documents.ExampleDocument [("name", VStr "Entry 0")] Documents.failing_read
  = (Ok [], set_store Documents.failing_read
              (mkStore [("test_collection", Documents.mixed_records)] [] 2)).
Proof.
  split; [reflexivity|].
  destruct (store_failure_reads_as_absent Documents.ExampleDocument
              [("name", VStr "Entry 0")] "test_collection" Documents.failing_read eq_refl)
    as (Hf & _ & Hb & _).
  split.
  - exact (Hf OperationFailure _ eq_refl eq_refl).
  - exact (Hb OperationFailure _ eq_refl eq_refl).
Defined.

End StoreFailure.
